(** * AiWhatsAppBot: a shallow embedding of the sales bot and its store

    The development follows the repository file by file:
    - [JsString], [JsValues], [Double]: the JavaScript strings, values and
      numbers the code computes with;
    - [Effects]: a computation that returns or throws over a world;
    - [Ai]: ai.js, the responder, over a world that holds the catalog
      cache, products.json and the model server;
    - [Pg]: the three tables of the migration with their constraints, and
      the queries the code builds;
    - [Database]: database.js; [OrdersRoute]: routes/orders.js;
      [Whatsapp]: [formatPhoneNumber] of whatsapp.js.

    Conventions. A string is a byte string: the ASCII range is modelled
    exactly, a byte above 127 has no case, is no digit and no space. What
    a call reads from outside, the clock and the key the store generates,
    is an argument ([Pg.Env]). An [await] is a sequential step. *)

From Stdlib Require Import ZArith QArith Reals Lra Psatz Ascii String List Bool Lia.
From Stdlib Require PrimFloat FloatOps Uint63.
From stdpp Require Import base list strings sorting pretty.

Local Open Scope string_scope.

(** ** JavaScript string primitives *)

Module JsString.

(** [/\d/]: the ten ASCII digits. *)
Definition isDigit (c : ascii) : bool :=
  let n := nat_of_ascii c in (48 <=? n)%nat && (n <=? 57)%nat.

Definition isUpper (c : ascii) : bool :=
  let n := nat_of_ascii c in (65 <=? n)%nat && (n <=? 90)%nat.

Definition lowerChar (c : ascii) : ascii :=
  if isUpper c then ascii_of_nat (nat_of_ascii c + 32) else c.

(** [s.toLowerCase()] on ASCII text: the letters A to Z are folded, as
    JavaScript folds them; JavaScript also folds letters outside ASCII,
    which this leaves alone. *)
Fixpoint toLowerCase (s : string) : string :=
  match s with
  | EmptyString => EmptyString
  | String c r => String (lowerChar c) (toLowerCase r)
  end.

(** [s.startsWith(t)] *)
Fixpoint startsWith (s t : string) {struct t} : bool :=
  match t, s with
  | EmptyString, _ => true
  | String _ _, EmptyString => false
  | String b t', String a s' => if Ascii.eqb a b then startsWith s' t' else false
  end.

(** [s.includes(t)]: [t] occurs at some offset of [s]. *)
Fixpoint includes (s t : string) : bool :=
  if startsWith s t then true
  else match s with
       | EmptyString => false
       | String _ r => includes r t
       end.

(** [s.replace(/\D/g, '')]: every character that is not a digit goes. *)
Fixpoint stripNonDigits (s : string) : string :=
  match s with
  | EmptyString => EmptyString
  | String c r => if isDigit c then String c (stripNonDigits r) else stripNonDigits r
  end.

End JsString.

(** ** Effects: state threaded through calls that may throw *)

Module Effects.

Inductive outcome (E A : Type) : Type :=
| Returned (a : A)
| Thrown (e : E).
Arguments Returned {E A} a.
Arguments Thrown {E A} e.

(** A computation over a world [W] that returns or throws, and leaves a
    world behind either way (a write made before a throw stays made). *)
Definition M (W E A : Type) : Type := W -> outcome E A * W.

Definition ret {W E A} (a : A) : M W E A := fun w => (Returned a, w).

Definition throw {W E A} (e : E) : M W E A := fun w => (Thrown e, w).

Definition bind {W E A B} (c : M W E A) (k : A -> M W E B) : M W E B :=
  fun w => match c w with
           | (Returned a, w') => k a w'
           | (Thrown e, w') => (Thrown e, w')
           end.

(** [try { c } catch (e) { h e }] *)
Definition tryCatch {W E A} (c : M W E A) (h : E -> M W E A) : M W E A :=
  fun w => match c w with
           | (Returned a, w') => (Returned a, w')
           | (Thrown e, w') => h e w'
           end.

Definition gets {W E A} (f : W -> A) : M W E A := fun w => (Returned (f w), w).

Definition modify {W E} (f : W -> W) : M W E unit := fun w => (Returned tt, f w).

Module Notations.
Notation "x <- c ;; k" := (bind c (fun x => k))
  (at level 100, c at next level, right associativity).
Notation "c ;;; k" := (bind c (fun _ => k))
  (at level 100, right associativity).
End Notations.

End Effects.

(** ** ai.js: the responder *)

Module Ai.
Import JsString Effects Effects.Notations.

(** One entry of products.json. An absent optional property is [None];
    [p_price] is the number as a template literal prints it. *)
Record Product := mkProduct {
  p_id : string;
  p_name : string;
  p_price : string;
  p_description : string;
  p_sizes : option (list string);
  p_colors : option (list string);
  p_category : option string;
  p_keywords : option (list string)
}.

Record JsError := mkError { e_name : string; e_message : string }.

Definition TypeError (m : string) : JsError := mkError "TypeError" m.
Definition Error (m : string) : JsError := mkError "Error" m.

(** What reading and parsing products.json gives in the current world. *)
Inductive CatalogFile :=
| ReadFails (e : JsError)
| ParseFails (e : JsError)
| ParsedNull
| Parsed (products : option (list Product)).

Record OllamaMessage := mkOllamaMessage { om_role : string; om_content : option string }.

Record OllamaRequest := mkOllamaRequest {
  rq_url : string;
  rq_model : string;
  rq_messages : list OllamaMessage
}.

Inductive OllamaOutcome :=
| FetchFails (e : JsError)
| NotOk (status : N) (statusText : string)
| BodyFails (e : JsError)
| Content (c : string).

Record World := mkWorld {
  productsData : option (list Product);
  products_json : CatalogFile;
  OLLAMA_URL : option string;
  OLLAMA_MODEL : option string;
  ollama : OllamaRequest -> OllamaOutcome;
  fetched : list OllamaRequest
}.

Definition Js (A : Type) : Type := M World JsError A.

Definition setProductsData (ps : option (list Product)) (w : World) : World :=
  mkWorld ps (products_json w) (OLLAMA_URL w) (OLLAMA_MODEL w) (ollama w) (fetched w).

Definition logFetch (rq : OllamaRequest) (w : World) : World :=
  mkWorld (productsData w) (products_json w) (OLLAMA_URL w) (OLLAMA_MODEL w)
    (ollama w) (fetched w ++ [rq]).

Definition loadProducts : Js (option (list Product)) :=
  cached <- gets productsData;;
  match cached with
  | Some ps => ret (Some ps)
  | None =>
      file <- gets products_json;;
      match file with
      | ReadFails e => throw e
      | ParseFails e => throw e
      | ParsedNull => throw (TypeError "Cannot read properties of null (reading 'products')")
      | Parsed ps => modify (setProductsData ps);;; ret ps
      end
  end.

Definition dq : string := String (ascii_of_nat 34) EmptyString.
Definition nl : string := String (ascii_of_nat 10) EmptyString.

Definition promptHeader : string :=
"You are a HIGH-CONVERTING WhatsApp Sales Assistant for a local retail shop.

You are not a chatbot.
You behave like a real local shopkeeper chatting on WhatsApp.

🎯 MAIN GOAL:
Smoothly convert conversations into confirmed orders.
Always guide toward purchase confidently but naturally.

🗣 LANGUAGE RULES:
- Detect customer language automatically.
- If customer uses Hindi → reply ONLY in pure Hindi (Devanagari).
- If customer uses Gujarati → reply ONLY in pure Gujarati script.
- If customer uses English → reply in English.
- NEVER mix English inside Hindi or Gujarati replies.
- Never use Hinglish or Roman script.

💬 MESSAGE STYLE:
- Maximum 1–2 short sentences.
- WhatsApp tone.
- Friendly, confident, human.
- At most ONE emoji.
- No long explanations.

🛒 SALES FLOW:
1. Understand need.
2. Recommend ONE best product confidently.
3. Mention key benefit (comfort, style, daily use, value).
4. Reduce hesitation naturally.
5. End with a small guiding question.

Never end message without a question unless confirming order.

🔥 CONVERSION BEHAVIOR:
- Assume customer is ready to buy.
- Speak confidently.
- Avoid too many options.
- Create small micro-commitments (size? color? confirm?).

📦 PRODUCT RULES:
- Use ONLY products listed below.
- NEVER invent products, prices, or offers.
- If unsure say:
  Hindi: " +:+ dq +:+ "विवरण की पुष्टि हमारी टीम करेगी।" +:+ dq +:+ "
  Gujarati: " +:+ dq +:+ "વિગતો અમારી ટીમ પુષ્ટિ કરશે।" +:+ dq +:+ "

🧾 BUYING SIGNAL:
If customer says:
haan / yes / ok / levu che / confirm / book

Immediately move to booking.

For Hindi use:
" +:+ dq +:+ "आपका ऑर्डर तैयार कर रहा हूँ, कृपया नाम और शहर बताइए।" +:+ dq +:+ "

For Gujarati use:
" +:+ dq +:+ "તમારો ઓર્ડર તૈયાર કરી રહ્યો છું, કૃપા કરીને નામ અને શહેર જણાવો।" +:+ dq +:+ "

👨‍💼 HUMAN REQUEST:
If user asks for human/agent:
Reply:
Hindi: " +:+ dq +:+ "हमारी टीम शीघ्र आपसे संपर्क करेगी।" +:+ dq +:+ "
Gujarati: " +:+ dq +:+ "અમારી ટીમ જલ્દી સંપર્ક કરશે।" +:+ dq +:+ "
Then stop selling.

=====================
AVAILABLE PRODUCTS
=====================

".

Definition promptFooter : string :=
"

Remember:
Be natural.
Be short.
Be confident.
Always move toward confirmed order.".

Definition productLine (p : Product) : string :=
  let details := p_name p +:+ " - $" +:+ p_price p in
  let details := match p_sizes p with
                 | Some l => details +:+ " (Sizes: " +:+ String.concat ", " l +:+ ")"
                 | None => details
                 end in
  let details := match p_colors p with
                 | Some l => details +:+ " (Colors: " +:+ String.concat ", " l +:+ ")"
                 | None => details
                 end in
  "- " +:+ details +:+ ": " +:+ p_description p.

Definition createSystemPrompt (products : list Product) : string :=
  let productList := String.concat nl (map productLine products) in
  promptHeader +:+ productList +:+ promptFooter.

(** A stored turn as the responder reads it: [msg.message || msg.content]. *)
Record HistoryItem := mkHistoryItem {
  h_role : string;
  h_message : string;
  h_content : option string
}.

Definition orDefault (v : option string) (d : string) : string :=
  match v with
  | Some s => if String.eqb s "" then d else s
  | None => d
  end.

Definition formatMessage (msg : HistoryItem) : OllamaMessage :=
  mkOllamaMessage
    (if String.eqb (h_role msg) "assistant" then "assistant" else "user")
    (if String.eqb (h_message msg) "" then h_content msg else Some (h_message msg)).

Definition callOllama (chatHistory : list HistoryItem) (systemPrompt : string) : Js string :=
  ollamaUrl <- gets (fun w => orDefault (OLLAMA_URL w) "http://localhost:11434");;
  model <- gets (fun w => orDefault (OLLAMA_MODEL w) "llama3");;
  let messages := mkOllamaMessage "system" (Some systemPrompt) :: map formatMessage chatHistory in
  let rq := mkOllamaRequest (ollamaUrl +:+ "/api/chat") model messages in
  modify (logFetch rq);;;
  reply <- gets (fun w => ollama w rq);;
  match reply with
  | FetchFails e => throw e
  | NotOk status statusText =>
      throw (Error ("Ollama API error: " +:+ pretty status +:+ " " +:+ statusText))
  | BodyFails e => throw e
  | Content c => ret c
  end.

(** *** The regular expressions of [extractCustomerInfo]

    Each pattern is a literal, then a character class repeated; a search
    tries every offset from the left and keeps the first that matches. *)

(** [\w] *)
Definition isWord (c : ascii) : bool :=
  let n := nat_of_ascii c in
  isDigit c || isUpper c || ((97 <=? n)%nat && (n <=? 122)%nat) || (n =? 95)%nat.

(** [[a-zA-Z]] *)
Definition isAlpha (c : ascii) : bool :=
  let n := nat_of_ascii c in
  isUpper c || ((97 <=? n)%nat && (n <=? 122)%nat).

(** [\s], and the characters [trim] removes, among ASCII characters;
    JavaScript also takes white space outside ASCII. *)
Definition isSpace (c : ascii) : bool :=
  let n := nat_of_ascii c in
  ((9 <=? n)%nat && (n <=? 13)%nat) || (n =? 32)%nat.

Definition upperChar (c : ascii) : ascii :=
  let n := nat_of_ascii c in
  if (97 <=? n)%nat && (n <=? 122)%nat then ascii_of_nat (n - 32) else c.

Fixpoint toUpperCase (s : string) : string :=
  match s with
  | EmptyString => EmptyString
  | String c r => String (upperChar c) (toUpperCase r)
  end.

Fixpoint takeWhile (p : ascii -> bool) (s : string) : string :=
  match s with
  | EmptyString => EmptyString
  | String c r => if p c then String c (takeWhile p r) else EmptyString
  end.

Fixpoint dropWhile (p : ascii -> bool) (s : string) : string :=
  match s with
  | EmptyString => EmptyString
  | String c r => if p c then dropWhile p r else s
  end.

Fixpoint skip (n : nat) (s : string) : string :=
  match n, s with
  | O, _ => s
  | S _, EmptyString => EmptyString
  | S k, String _ r => skip k r
  end.

(** The leftmost offset of [s] at which [m] matches. *)
Fixpoint search {A : Type} (m : string -> option A) (s : string) : option A :=
  match m s with
  | Some r => Some r
  | None => match s with
            | EmptyString => None
            | String _ r => search m r
            end
  end.

(** [/lit(\w+)/i] tried at the head of [s]: the captured word. *)
Definition matchWordAfter (lit s : string) : option string :=
  if startsWith (toLowerCase s) (toLowerCase lit) then
    match takeWhile isWord (skip (String.length lit) s) with
    | EmptyString => None
    | w => Some w
    end
  else None.

(** [/lit([A-Z][a-zA-Z\s]+?)(?:\.|,|$)/] tried at the head of [s]. The lazy
    run stops at the first offset followed by a dot, a comma or the end,
    and neither a dot nor a comma is in the class: that is the end of the
    longest run. *)
Definition matchPlaceAfter (lit s : string) : option string :=
  if startsWith s lit then
    match skip (String.length lit) s with
    | String c r =>
        if isUpper c then
          let run := takeWhile (fun x => isAlpha x || isSpace x) r in
          match run, dropWhile (fun x => isAlpha x || isSpace x) r with
          | EmptyString, _ => None
          | _, EmptyString => Some (String c run)
          | _, String t _ =>
              if Ascii.eqb t "." || Ascii.eqb t "," then Some (String c run) else None
          end
        else None
    | EmptyString => None
    end
  else None.

Definition revString (s : string) : string :=
  string_of_list_ascii (rev (list_ascii_of_string s)).

(** [s.trim()] *)
Definition trim (s : string) : string :=
  revString (dropWhile isSpace (revString (dropWhile isSpace s))).

(** The first pattern of the list that matches anywhere wins. *)
Fixpoint firstMatch (m : string -> string -> option string) (lits : list string)
    (message : string) : option string :=
  match lits with
  | [] => None
  | lit :: rest =>
      match search (m lit) message with
      | Some r => Some r
      | None => firstMatch m rest message
      end
  end.

Definition capitalize (w : string) : string :=
  match w with
  | EmptyString => EmptyString
  | String c r => String (upperChar c) (toLowerCase r)
  end.

Record ExtractedInfo := mkInfo { i_name : option string; i_city : option string }.

Definition namePatterns : list string :=
  ["my name is "; "i'm "; "i am "; "call me "; "this is "].

Definition cityPatterns : list string :=
  ["from "; "in "; "live in "; "city is "].

Definition extractCustomerInfo (message : string) (chatHistory : list HistoryItem)
    : ExtractedInfo :=
  mkInfo (capitalize <$> firstMatch matchWordAfter namePatterns message)
         (trim <$> firstMatch matchPlaceAfter cityPatterns message).

Definition agentKeywords : list string :=
  ["agent"; "human"; "speak to someone"; "talk to person"; "real person"].

Definition isAgentRequested (message : string) : bool :=
  let lowerMessage := toLowerCase message in
  existsb (fun keyword => includes lowerMessage keyword) agentKeywords.

(** [findRelevantProducts] lower-cases the message and every keyword,
    category and name with [String.prototype.toLowerCase], the Unicode
    mapping of the engine. The loop is written over that mapping as it
    comes: nothing but its being a function is used. *)
Section Relevance.

Variable toLowerCase : string -> string.

(** The three tests of the loop body of [findRelevantProducts], in order;
    an empty category string is falsy and is skipped. *)
Definition keywordMatches (lowerMessage : string) (product : Product) : bool :=
  match p_keywords product with
  | Some ks => existsb (fun keyword => includes lowerMessage (toLowerCase keyword)) ks
  | None => false
  end.

Definition categoryMatches (lowerMessage : string) (product : Product) : bool :=
  match p_category product with
  | Some c => negb (String.eqb c "") && includes lowerMessage (toLowerCase c)
  | None => false
  end.

Definition nameMatches (lowerMessage : string) (product : Product) : bool :=
  includes lowerMessage (toLowerCase (p_name product)).

(** The loop: [relevantProducts] grows at its end, in catalog order. *)
Fixpoint collectRelevant (lowerMessage : string) (products relevantProducts : list Product)
    : list Product :=
  match products with
  | [] => relevantProducts
  | product :: rest =>
      if keywordMatches lowerMessage product
      then collectRelevant lowerMessage rest (relevantProducts ++ [product])
      else if categoryMatches lowerMessage product
      then collectRelevant lowerMessage rest (relevantProducts ++ [product])
      else if nameMatches lowerMessage product
      then collectRelevant lowerMessage rest (relevantProducts ++ [product])
      else collectRelevant lowerMessage rest relevantProducts
  end.

Definition findRelevantProducts (message : string) (products : list Product) : list Product :=
  let lowerMessage := toLowerCase message in
  take 3 (collectRelevant lowerMessage products []).

End Relevance.

Record ProductRef := mkRef { r_id : string; r_name : string; r_price : string }.

(** [metadata]: a property the object literal does not set is [None]. *)
Record Metadata := mkMetadata {
  agentRequested : option bool;
  extractedInfo : option ExtractedInfo;
  relevantProducts : option (list ProductRef);
  error : option bool;
  errorMessage : option string
}.

Record Response := mkResponse { message : string; metadata : Metadata }.

Definition handoffReply : string :=
  "I understand you'd like to speak with a human agent. I've flagged your conversation, and someone from our team will contact you shortly. Is there anything else I can help you with in the meantime?".

Definition fallbackReply : string :=
  "I'm having a little trouble right now. Could you please repeat that? 😊".

(** [for (const product of products)] and [products.map]: a catalog that
    is [undefined] is not iterable. *)
Definition iterable (products : option (list Product)) : Js (list Product) :=
  match products with
  | Some ps => ret ps
  | None => throw (TypeError "products is not iterable")
  end.

Definition respond (userMessage : string) (chatHistory : list HistoryItem) : Js Response :=
  products <- loadProducts;;
  if isAgentRequested userMessage then
    ret (mkResponse handoffReply (mkMetadata (Some true) None None None None))
  else
    let extractedInfo := extractCustomerInfo userMessage chatHistory in
    catalog <- iterable products;;
    let relevantProducts := findRelevantProducts toLowerCase userMessage catalog in
    let systemPrompt := createSystemPrompt catalog in
    let fullHistory := (chatHistory ++ [mkHistoryItem "user" userMessage None])%list in
    aiResponse <- callOllama fullHistory systemPrompt;;
    ret (mkResponse aiResponse
           (mkMetadata (Some false) (Some extractedInfo)
              (Some (map (fun p => mkRef (p_id p) (p_name p) (p_price p)) relevantProducts))
              None None)).

(** The [catch] block of [generateResponse]. *)
Definition fallback (error : JsError) : Js Response :=
  ret (mkResponse fallbackReply
         (mkMetadata None None None (Some true) (Some (e_message error)))).

Definition generateResponse (userMessage : string) (chatHistory : list HistoryItem)
    : Js Response :=
  tryCatch (respond userMessage chatHistory) fallback.

End Ai.

(** ** JavaScript values and numbers *)

Module JsValues.

(** A value that crosses the JSON boundary, [undefined] for an absent
    property; [JArray] and [JObject] stand for any array and any object. *)
Inductive JsValue :=
| JUndefined
| JNull
| JBool (b : bool)
| JNumber (q : Q)
| JString (s : string)
| JArray
| JObject.

(** [!v] is [negb (truthy v)]. *)
Definition truthy (v : JsValue) : bool :=
  match v with
  | JUndefined | JNull => false
  | JBool b => b
  | JNumber q => negb (Qnum q =? 0)%Z
  | JString s => negb (String.eqb s "")
  | JArray | JObject => true
  end.

End JsValues.

(** The Number type where a count, a quotient of counts and a percentage
    live: the non-negative doubles. [Finite m e] is [m * 2^e], with [m = 0]
    or [2^52 <= m < 2^53]. An operation returns the double nearest to the
    exact result, ties to the even significand. Counts stay far from the
    ends of the exponent range, which is left unbounded. *)
Module Double.
Local Open Scope Z_scope.

Inductive t :=
| NaN
| Infinity
| Finite (m e : Z).

Definition zero : t := Finite 0 0.

(** The fraction [n / (d * 2^e)] over integers. *)
Definition scaled (n d e : Z) : Z * Z :=
  if 0 <=? e then (n, d * 2 ^ e) else (n * 2 ^ (- e), d).

(** The integer nearest to [num / den], the even one of two. *)
Definition nearestEven (num den : Z) : Z :=
  let q := num / den in
  let r := num mod den in
  if 2 * r <? den then q
  else if den <? 2 * r then q + 1
  else if Z.even q then q else q + 1.

(** The exponent that puts [n / d] between [2^52] and [2^53]. *)
Definition exponentOf (n d : Z) : Z :=
  let e0 := Z.log2 n - Z.log2 d - 52 in
  let '(num, den) := scaled n d e0 in
  if num / den <? 2 ^ 52 then e0 - 1 else e0.

(** The double nearest to [(n / d) * 2^s], for [n > 0] and [d > 0]. *)
Definition round (n d s : Z) : t :=
  let e := exponentOf n d in
  let '(num, den) := scaled n d e in
  let m := nearestEven num den in
  if m =? 2 ^ 53 then Finite (2 ^ 52) (e + 1 + s) else Finite m (e + s).

Definition ofN (n : N) : t :=
  if (n =? 0)%N then zero else round (Z.of_N n) 1 0.

(** [x / y] *)
Definition div (x y : t) : t :=
  match x, y with
  | NaN, _ | _, NaN => NaN
  | Infinity, Infinity => NaN
  | Infinity, Finite _ _ => Infinity
  | Finite _ _, Infinity => zero
  | Finite a ea, Finite b eb =>
      if b =? 0 then (if a =? 0 then NaN else Infinity)
      else if a =? 0 then zero
      else round a b (ea - eb)
  end.

(** [x * y] *)
Definition mul (x y : t) : t :=
  match x, y with
  | NaN, _ | _, NaN => NaN
  | Infinity, Infinity => Infinity
  | Infinity, Finite b _ => if b =? 0 then NaN else Infinity
  | Finite a _, Infinity => if a =? 0 then NaN else Infinity
  | Finite a ea, Finite b eb =>
      if (a =? 0) || (b =? 0) then zero else round (a * b) 1 (ea + eb)
  end.

(** The integer [n] with [n / 100] nearest to [m * 2^e], the larger of
    two: [floor (100 * m * 2^e + 1/2)]. *)
Definition hundredths (m e : Z) : Z :=
  let '(num, den) := scaled (100 * m) 1 (- e) in
  (2 * num + den) / (2 * den).

(** The digits of [n] with a point before the last two. *)
Definition fixed2 (n : Z) : string :=
  pretty (n / 100) +:+ "." +:+ pretty (n mod 100 / 10) +:+ pretty (n mod 10).

(** [x.toFixed(2)], below [1e21]. *)
Definition toFixed2 (x : t) : string :=
  match x with
  | NaN => "NaN"
  | Infinity => "Infinity"
  | Finite m e => fixed2 (hundredths m e)
  end.

End Double.

(** ** The hosted store: tables, constraints and the query builder *)

Module Pg.
Import Effects.

Definition uuid : Type := N.

(** Milliseconds since the epoch. *)
Definition timestamptz : Type := Z.

(** The errors a request comes back with: SQLSTATE 23505, 23514 and 23503,
    PGRST116 for a result that is not the one row asked for, and what a
    request that did not get through comes back with. *)
Inductive PgError :=
| UniqueViolation (constraint : string)
| CheckViolation (constraint : string)
| ForeignKeyViolation (constraint : string)
| NotSingular (rows : nat)
| Unavailable (message : string).

(** What a call reads from outside the store: the two [new Date()] of an
    object literal, and the [now()] and [gen_random_uuid()] defaults. *)
Record Env := mkEnv {
  date1 : timestamptz;
  date2 : timestamptz;
  pg_now : timestamptz;
  pg_uuid : uuid
}.

Module Leads.
Record row := mk {
  id : uuid;
  phone_number : string;
  customer_name : option string;
  city : option string;
  status : option string;
  needs_human_agent : option bool;
  last_message_at : timestamptz;
  created_at : timestamptz;
  updated_at : timestamptz
}.

(** The object handed to [.update(...)], with the six columns the callers
    in this repository set: [None] leaves the column alone. *)
Record patch := mkPatch {
  set_customer_name : option (option string);
  set_city : option (option string);
  set_status : option (option string);
  set_needs_human_agent : option (option bool);
  set_last_message_at : option timestamptz;
  set_updated_at : option timestamptz
}.

Definition noPatch : patch := mkPatch None None None None None None.

Definition apply (p : patch) (r : row) : row :=
  mk (id r) (phone_number r)
     (default (customer_name r) (set_customer_name p))
     (default (city r) (set_city p))
     (default (status r) (set_status p))
     (default (needs_human_agent r) (set_needs_human_agent p))
     (default (last_message_at r) (set_last_message_at p))
     (created_at r)
     (default (updated_at r) (set_updated_at p)).

Definition statuses : list string := ["new"; "contacted"; "qualified"; "converted"; "lost"].

(** [CHECK (status IN (...))]: a NULL passes. *)
Definition check (r : row) : bool :=
  match status r with
  | Some s => existsb (String.eqb s) statuses
  | None => true
  end.
End Leads.

Module ChatHistory.
Record row := mk {
  id : uuid;
  lead_id : uuid;
  phone_number : string;
  role : string;
  message : string;
  metadata : option Ai.Metadata;
  created_at : timestamptz
}.

Definition check (r : row) : bool := existsb (String.eqb (role r)) ["user"; "assistant"].
End ChatHistory.

Module Orders.
Record item := mkItem {
  item_id : string;
  item_name : string;
  item_quantity : N;
  item_price : string
}.

Record row := mk {
  id : uuid;
  lead_id : uuid;
  phone_number : string;
  products : list item;
  total_amount : option Z;
  status : option string;
  notes : option string;
  created_at : timestamptz
}.

Definition statuses : list string := ["pending"; "confirmed"; "completed"; "cancelled"].

Definition check (r : row) : bool :=
  match status r with
  | Some s => existsb (String.eqb s) statuses
  | None => true
  end.

Definition setStatus (s : option string) (r : row) : row :=
  mk (id r) (lead_id r) (phone_number r) (products r) (total_amount r) s (notes r)
     (created_at r).
End Orders.

Record Database := mkDb {
  leads : list Leads.row;
  chat_history : list ChatHistory.row;
  orders : list Orders.row
}.

Definition Db (A : Type) : Type := M Database PgError A.

Definition setLeads (l : list Leads.row) (db : Database) : Database :=
  mkDb l (chat_history db) (orders db).

Definition setChatHistory (l : list ChatHistory.row) (db : Database) : Database :=
  mkDb (leads db) l (orders db).

Definition setOrders (l : list Orders.row) (db : Database) : Database :=
  mkDb (leads db) (chat_history db) l.

(** [.single()]: exactly one row, or the request fails. *)
Definition single {A : Type} (rows : list A) : outcome PgError A :=
  match rows with
  | [r] => Returned r
  | _ => Thrown (NotSingular (length rows))
  end.

(** [.maybeSingle()]: no row is [null], more than one fails. *)
Definition maybeSingle {A : Type} (rows : list A) : outcome PgError (option A) :=
  match rows with
  | [] => Returned None
  | [r] => Returned (Some r)
  | _ => Thrown (NotSingular (length rows))
  end.

(** [from('leads').select('*').eq('phone_number', p).maybeSingle()] *)
Definition selectLeadByPhone (p : string) : Db (option Leads.row) :=
  fun db => (maybeSingle (filter (λ r, Leads.phone_number r = p) (leads db)), db).

(** [from('leads').insert(r).select().single()] *)
Definition insertLead (r : Leads.row) : Db Leads.row :=
  fun db =>
    if negb (Leads.check r) then (Thrown (CheckViolation "leads_status_check"), db)
    else if bool_decide (Leads.id r ∈ Leads.id <$> leads db)
    then (Thrown (UniqueViolation "leads_pkey"), db)
    else if bool_decide (Leads.phone_number r ∈ Leads.phone_number <$> leads db)
    then (Thrown (UniqueViolation "leads_phone_number_key"), db)
    else (Returned r, setLeads (leads db ++ [r]) db).

(** [from('leads').update(p).eq('id', k).select().single()]. The request
    is one transaction: a failed check or a result that is not one row
    leaves the table as it was. *)
Definition updateLeadById (k : uuid) (p : Leads.patch) : Db Leads.row :=
  fun db =>
    let hit := Leads.apply p <$> filter (λ r, Leads.id r = k) (leads db) in
    if negb (forallb Leads.check hit) then (Thrown (CheckViolation "leads_status_check"), db)
    else match single hit with
         | Returned r =>
             (Returned r,
              setLeads ((λ r, if bool_decide (Leads.id r = k) then Leads.apply p r else r)
                          <$> leads db) db)
         | Thrown e => (Thrown e, db)
         end.

(** [from('chat_history').insert(r).select().single()] *)
Definition insertChat (r : ChatHistory.row) : Db ChatHistory.row :=
  fun db =>
    if negb (ChatHistory.check r) then (Thrown (CheckViolation "chat_history_role_check"), db)
    else if bool_decide (ChatHistory.id r ∈ ChatHistory.id <$> chat_history db)
    then (Thrown (UniqueViolation "chat_history_pkey"), db)
    else if negb (bool_decide (ChatHistory.lead_id r ∈ Leads.id <$> leads db))
    then (Thrown (ForeignKeyViolation "chat_history_lead_id_fkey"), db)
    else (Returned r, setChatHistory (chat_history db ++ [r]) db).

(** [a] is not created after [b]. *)
Definition notAfter (a b : ChatHistory.row) : Prop :=
  (ChatHistory.created_at a <= ChatHistory.created_at b)%Z.

#[export] Instance notAfter_dec : RelDecision notAfter.
Proof. intros a b. unfold notAfter. apply Z.le_dec. Defined.

(** [.order('created_at', { ascending: true })] *)
Definition orderByCreatedAt (rows : list ChatHistory.row) : list ChatHistory.row :=
  merge_sort notAfter rows.

(** [from('chat_history').select('*').eq('phone_number', p)
      .order('created_at', { ascending: true }).limit(n)], when the
    request gets through. Rows created at the same instant come in the
    order the sort leaves them. *)
Definition selectChat (p : string) (n : nat) : Db (list ChatHistory.row) :=
  gets (λ db, take n (orderByCreatedAt
                        (filter (λ r, ChatHistory.phone_number r = p) (chat_history db)))).

(** [from('orders').insert(r).select().single()], for an amount that is a
    whole number within the range of [decimal(10,2)]; the store refuses
    an amount outside it (22003) before any of the checks below. *)
Definition insertOrder (r : Orders.row) : Db Orders.row :=
  fun db =>
    if negb (Orders.check r) then (Thrown (CheckViolation "orders_status_check"), db)
    else if bool_decide (Orders.id r ∈ Orders.id <$> orders db)
    then (Thrown (UniqueViolation "orders_pkey"), db)
    else if negb (bool_decide (Orders.lead_id r ∈ Leads.id <$> leads db))
    then (Thrown (ForeignKeyViolation "orders_lead_id_fkey"), db)
    else (Returned r, setOrders (orders db ++ [r]) db).

(** [from('orders').update({ status }).eq('id', k).select().single()] *)
Definition updateOrderById (k : uuid) (s : option string) : Db Orders.row :=
  fun db =>
    let hit := Orders.setStatus s <$> filter (λ r, Orders.id r = k) (orders db) in
    if negb (forallb Orders.check hit) then (Thrown (CheckViolation "orders_status_check"), db)
    else match single hit with
         | Returned r =>
             (Returned r,
              setOrders ((λ r, if bool_decide (Orders.id r = k) then Orders.setStatus s r else r)
                           <$> orders db) db)
         | Thrown e => (Thrown e, db)
         end.

(** [select('*', { count: 'exact', head: true })] with an optional filter *)
Definition countLeads (keep : Leads.row -> bool) (db : Database) : N :=
  N.of_nat (length (List.filter keep (leads db))).

Definition countOrders (db : Database) : N := N.of_nat (length (orders db)).

End Pg.

(** ** database.js *)

Module Database.
Import Effects Effects.Notations Pg.

Definition getOrCreateLead (env : Env) (phoneNumber : string) : Db Leads.row :=
  existingLead <- selectLeadByPhone phoneNumber;;
  match existingLead with
  | Some lead =>
      updateLeadById (Leads.id lead)
        (Leads.mkPatch None None None None (Some (date1 env)) (Some (date2 env)))
  | None =>
      insertLead (Leads.mk (pg_uuid env) phoneNumber None None (Some "new") (Some false)
                    (date1 env) (pg_now env) (pg_now env))
  end.

(** [{ ...updates, updated_at: new Date().toISOString() }] *)
Definition updateLead (env : Env) (leadId : uuid) (updates : Leads.patch) : Db Leads.row :=
  updateLeadById leadId
    (Leads.mkPatch (Leads.set_customer_name updates) (Leads.set_city updates)
       (Leads.set_status updates) (Leads.set_needs_human_agent updates)
       (Leads.set_last_message_at updates) (Some (date1 env))).

Definition saveChatMessage (env : Env) (leadId : uuid) (phoneNumber role message : string)
    (metadata : option Ai.Metadata) : Db ChatHistory.row :=
  insertChat (ChatHistory.mk (pg_uuid env) leadId phoneNumber role message metadata (pg_now env)).

(** [limit = 20] when the argument is left out. *)
Definition getChatHistory (phoneNumber : string) (limit : option nat)
    : Db (list ChatHistory.row) :=
  selectChat phoneNumber (default 20%nat limit).

Definition createOrder (env : Env) (leadId : uuid) (phoneNumber : string)
    (products : list Orders.item) (totalAmount : option Z) (notes : option string)
    : Db Orders.row :=
  data <- insertOrder (Orders.mk (pg_uuid env) leadId phoneNumber products totalAmount
                         (Some "pending") notes (pg_now env));;
  updateLead env leadId
    (Leads.mkPatch None None (Some (Some "converted")) None None None);;;
  ret data.

Definition updateOrderStatus (orderId : uuid) (status : string) : Db Orders.row :=
  updateOrderById orderId (Some status).

Record Statistics := mkStatistics {
  totalLeads : N;
  convertedLeads : N;
  needsHumanAgent : N;
  totalOrders : N;
  conversionRate : JsValues.JsValue
}.

(** The four counts are those of requests that get through, read from
    one state of the store. *)
Definition getStatistics : Db Statistics :=
  totalLeads <- gets (countLeads (λ _, true));;
  convertedLeads <- gets (countLeads (λ r, bool_decide (Leads.status r = Some "converted")));;
  needsAgent <- gets (countLeads (λ r, bool_decide (Leads.needs_human_agent r = Some true)));;
  totalOrders <- gets countOrders;;
  ret (mkStatistics totalLeads convertedLeads needsAgent totalOrders
         (if (0 <? totalLeads)%N
          then JsValues.JString
                 (Double.toFixed2
                    (Double.mul (Double.div (Double.ofN convertedLeads) (Double.ofN totalLeads))
                       (Double.ofN 100)))
          else JsValues.JNumber 0)).

End Database.

(** ** routes/orders.js *)

Module OrdersRoute.
Import Effects Effects.Notations Pg JsValues.

Definition validStatuses : list string := ["pending"; "confirmed"; "completed"; "cancelled"].

(** [validStatuses.includes(v)]: only a string is the same value as a string. *)
Definition includesValue (l : list string) (v : JsValue) : bool :=
  match v with
  | JString s => existsb (String.eqb s) l
  | _ => false
  end.

Inductive Body :=
| Failure (error : string)
| FailureBecause (error : string) (cause : PgError)
| Success (message : string) (data : Orders.row).

Record HttpResponse := mkHttp { statusCode : N; body : Body }.

(** [PUT /api/orders/:orderId/status], on a body that [express.json()]
    has parsed: [status] is [req.body.status]. The handler catches what
    [updateOrderStatus] throws. *)
Definition putStatus (orderId : uuid) (status : JsValue) (db : Database)
    : HttpResponse * Database :=
  if negb (truthy status) then (mkHttp 400 (Failure "Status is required"), db)
  else if negb (includesValue validStatuses status) then
    (mkHttp 400
       (Failure ("Status must be one of: " +:+ String.concat ", " validStatuses)), db)
  else
    match status with
    | JString s =>
        match Database.updateOrderStatus orderId s db with
        | (Returned updatedOrder, db') =>
            (mkHttp 200 (Success "Order status updated successfully" updatedOrder), db')
        | (Thrown error, db') =>
            (mkHttp 500 (FailureBecause "Failed to update order status" error), db')
        end
    | _ => (mkHttp 500 (Failure "Failed to update order status"), db)
    end.

End OrdersRoute.

(** ** whatsapp.js *)

Module Whatsapp.
Import JsString.

Definition suffix : string := "@s.whatsapp.net".

Definition formatPhoneNumber (phoneNumber : string) : string :=
  let cleaned := stripNonDigits phoneNumber in
  let cleaned :=
    if negb (startsWith cleaned "1") && (String.length cleaned =? 10)%nat
    then "1" ++ cleaned
    else cleaned in
  cleaned ++ suffix.

End Whatsapp.

(** The normalization as the documentation words it: keep the digits,
    put a "1" in front of exactly ten digits that do not start with "1",
    then add the domain. *)
Definition digitsOf (s : string) : list ascii :=
  List.filter JsString.isDigit (list_ascii_of_string s).

Definition needsCountryCode (digits : list ascii) : bool :=
  bool_decide (length digits = 10%nat) && negb (bool_decide (head digits = Some "1"%char)).

Definition normalized (s : string) : string :=
  string_of_list_ascii
    ((if needsCountryCode (digitsOf s) then ["1"%char] else []) ++ digitsOf s)
  +:+ Whatsapp.suffix.

(** [t] occurs in [s] as a substring when case is ignored: a stretch of
    [s] is [t] up to the case of its letters. *)
Definition sameIgnoringCase (a b : string) : Prop :=
  JsString.toLowerCase a = JsString.toLowerCase b.

Definition occursIgnoringCase (t s : string) : Prop :=
  exists pre mid post, s = pre +:+ mid +:+ post /\ sameIgnoringCase mid t.

(** [t] occurs in [s] as a substring. *)
Definition occurs (t s : string) : Prop := exists pre post, s = pre +:+ t +:+ post.

(** A product matches a message by keyword, by category or by name, as
    a substring with case ignored: lower-cased, it occurs in the
    lower-cased message. *)
Definition qualifies (toLowerCase : string -> string) (message : string) (p : Ai.Product)
    : Prop :=
  (exists ks k, Ai.p_keywords p = Some ks /\ k ∈ ks
                /\ occurs (toLowerCase k) (toLowerCase message))
  \/ (exists c, Ai.p_category p = Some c /\ occurs (toLowerCase c) (toLowerCase message))
  \/ occurs (toLowerCase (Ai.p_name p)) (toLowerCase message).

(** The test the loop of [findRelevantProducts] makes on one product. *)
Definition relevant (toLowerCase : string -> string) (lowerMessage : string)
    (p : Ai.Product) : bool :=
  Ai.keywordMatches toLowerCase lowerMessage p || Ai.categoryMatches toLowerCase lowerMessage p
  || Ai.nameMatches toLowerCase lowerMessage p.

(** The message asks for a person. *)
Definition asksForAgent (message : string) : Prop :=
  exists keyword, keyword ∈ Ai.agentKeywords /\ occursIgnoringCase keyword message.

(** The catalog is at hand: cached, or products.json reads and parses. *)
Definition catalogLoads (w : Ai.World) : Prop :=
  is_Some (Ai.productsData w) \/ exists ps, Ai.products_json w = Ai.Parsed ps.

(** A world whose products.json cannot be read, with nothing cached. *)
Definition worldWithoutCatalog : Ai.World :=
  Ai.mkWorld None
    (Ai.ReadFails (Ai.Error "ENOENT: no such file or directory, open 'products.json'"))
    None None (fun _ => Ai.Content "Sure!") [].

(** A world with a one-product catalog and a model that answers. *)
Definition worldWithCatalog : Ai.World :=
  Ai.mkWorld None
    (Ai.Parsed (Some [Ai.mkProduct "PROD001" "Cotton Kurta" "29.99" "Soft cotton kurta"
                        (Some ["M"; "L"]) None (Some "Clothing") (Some ["kurta"; "cotton"])]))
    None None (fun _ => Ai.Content "Sure!") [].

(** The window C1 words: the last [n] turns of a phone number, oldest
    first. *)
Definition mostRecentWindow (phoneNumber : string) (n : nat) (db : Pg.Database)
    : list Pg.ChatHistory.row :=
  let turns := Pg.orderByCreatedAt
                 (filter (λ r, Pg.ChatHistory.phone_number r = phoneNumber)
                    (Pg.chat_history db)) in
  drop (length turns - n) turns.

Definition customer : string := "15551234567@s.whatsapp.net".

Definition turn (k : Pg.uuid) (role message : string) (at_ : Pg.timestamptz)
    : Pg.ChatHistory.row :=
  Pg.ChatHistory.mk k 7%N customer role message None at_.

(** One lead and three turns, stored at 10 s, 20 s and 30 s. *)
Definition storeWithThreeTurns : Pg.Database :=
  Pg.mkDb
    [Pg.Leads.mk 7%N customer None None (Some "new") (Some false) 30000%Z 10000%Z 30000%Z]
    [turn 1%N "user" "hi" 10000%Z;
     turn 2%N "assistant" "Hello! What are you looking for?" 20000%Z;
     turn 3%N "user" "a kurta" 30000%Z]
    [].

Definition emptyStore : Pg.Database := Pg.mkDb [] [] [].

(** A first contact at 1 s and the next message a minute later. *)
Definition firstContact : Pg.Env := Pg.mkEnv 1000%Z 1000%Z 1002%Z 7%N.
Definition nextMessage : Pg.Env := Pg.mkEnv 61000%Z 61000%Z 61002%Z 8%N.

(** A lead that was lost, and the order that wins it back. *)
Definition storeWithLostLead : Pg.Database :=
  Pg.mkDb
    [Pg.Leads.mk 7%N customer (Some "Asha") (Some "Surat") (Some "lost") (Some false)
       30000%Z 10000%Z 30000%Z]
    [] [].

Definition orderPlaced : Pg.Env := Pg.mkEnv 90000%Z 90000%Z 90001%Z 21%N.

Definition oneKurta : list Pg.Orders.item := [Pg.Orders.mkItem "PROD001" "Cotton Kurta" 1 "29.99"].

(** The real number a finite double stands for. *)
Definition Rvalue (m e : Z) : R := (IZR m * powerRZ 2 e)%R.

(** Half a unit in the last place, relative to the value: [2^-53]. *)
Definition ulp : R := (/ IZR (2 ^ 53))%R.

(** [(c / t) * 100] as [getStatistics] computes it. *)
Definition percentage (c t : N) : Double.t :=
  Double.mul (Double.div (Double.ofN c) (Double.ofN t)) (Double.ofN 100).

(** [round(c / t * 100, 2)] in hundredths, over the exact quotient: a
    half goes up, or to the even hundredth. *)
Definition roundHalfUp2 (c t : Z) : Z := ((20000 * c + t) / (2 * t))%Z.

Definition roundHalfEven2 (c t : Z) : Z := Double.nearestEven (10000 * c) t.

(** The exact percentage falls halfway between two hundredths. *)
Definition halfway (c t : Z) : Prop := ((20000 * c + t) mod (2 * t) = 0)%Z.

Definition sampleLead (status : string) (k : nat) : Pg.Leads.row :=
  Pg.Leads.mk (N.of_nat k) ("1555000" +:+ pretty k +:+ "@s.whatsapp.net") None None
    (Some status) (Some false) 0%Z 0%Z 0%Z.

(** A store of leads of which the first [converted] are converted. *)
Definition storeWithLeads (converted others : nat) : Pg.Database :=
  Pg.mkDb (map (sampleLead "converted") (seq 0 converted)
           ++ map (sampleLead "new") (seq converted others))%list [] [].

(** The same catalog, cached, and a model server that answers 503. *)
Definition worldWithModelDown : Ai.World :=
  Ai.mkWorld (Ai.productsData (snd (Ai.loadProducts worldWithCatalog)))
    (Ai.products_json worldWithCatalog) None None
    (fun _ => Ai.NotOk 503 "Service Unavailable") [].

(** ** More requests to the store *)

Module StoreRequests.
Import Effects Pg.

(** [from('leads').update(p).eq('phone_number', n).select().single()],
    one transaction like the update by id. *)
Definition updateLeadByPhone (n : string) (p : Leads.patch) : Db Leads.row :=
  fun db =>
    let hit := Leads.apply p <$> filter (λ r, Leads.phone_number r = n) (leads db) in
    if negb (forallb Leads.check hit) then (Thrown (CheckViolation "leads_status_check"), db)
    else match single hit with
         | Returned r =>
             (Returned r,
              setLeads ((λ r, if bool_decide (Leads.phone_number r = n)
                              then Leads.apply p r else r) <$> leads db) db)
         | Thrown e => (Thrown e, db)
         end.

(** [filters] of [getLeads]: a property left out is [None]. *)
Record LeadFilters := mkFilters {
  f_status : option string;
  f_needs_human_agent : option bool
}.

(** [b] is not contacted after [a]. *)
Definition latestFirst (a b : Leads.row) : Prop :=
  (Leads.last_message_at b <= Leads.last_message_at a)%Z.

#[export] Instance latestFirst_dec : RelDecision latestFirst.
Proof. intros a b. unfold latestFirst. apply Z.le_dec. Defined.

(** [b] is not created after [a]. *)
Definition newestFirst (a b : Orders.row) : Prop :=
  (Orders.created_at b <= Orders.created_at a)%Z.

#[export] Instance newestFirst_dec : RelDecision newestFirst.
Proof. intros a b. unfold newestFirst. apply Z.le_dec. Defined.

(** What a request finds on its way: [Some e] when it does not get
    through, and comes back with [e] as its [error] without having
    reached the tables. *)
Definition Fault : Type := option PgError.

(** [from('chat_history').delete().eq('phone_number', n)] *)
Definition deleteChat (fault : Fault) (n : string) : Db unit :=
  match fault with
  | Some e => throw e
  | None =>
      modify (λ db, setChatHistory
                      (filter (λ r, ChatHistory.phone_number r <> n) (chat_history db)) db)
  end.

(** [from('orders').select('*').eq('phone_number', n)
      .order('created_at', { ascending: false })] *)
Definition selectOrders (fault : Fault) (n : string) : Db (list Orders.row) :=
  match fault with
  | Some e => throw e
  | None =>
      gets (λ db, merge_sort newestFirst
                    (filter (λ r, Orders.phone_number r = n) (orders db)))
  end.

End StoreRequests.

(** ** database.js, the other operations *)

Module DatabaseMore.
Import Effects Effects.Notations Pg StoreRequests.

Definition markForHumanAgent (env : Env) (phoneNumber : string) : Db Leads.row :=
  updateLeadByPhone phoneNumber
    (Leads.mkPatch None None (Some (Some "qualified")) (Some (Some true)) None
       (Some (date1 env))).

(** [if (filters.status)] skips an empty string; a filter on
    [needs_human_agent] is set as soon as the property is there. *)
Definition keepsLead (filters : LeadFilters) (r : Leads.row) : bool :=
  match f_status filters with
  | Some s => String.eqb s "" || bool_decide (Leads.status r = Some s)
  | None => true
  end
  && match f_needs_human_agent filters with
     | Some b => bool_decide (Leads.needs_human_agent r = Some b)
     | None => true
     end.

(** [if (error) throw error; return data] *)
Definition getLeads (fault : Fault) (filters : LeadFilters) : Db (list Leads.row) :=
  match fault with
  | Some e => throw e
  | None =>
      gets (λ db, merge_sort latestFirst (List.filter (keepsLead filters) (leads db)))
  end.

Definition clearChatHistory (fault : Fault) (phoneNumber : string) : Db unit :=
  deleteChat fault phoneNumber.

Definition getOrders (fault : Fault) (phoneNumber : string) : Db (list Orders.row) :=
  selectOrders fault phoneNumber.

End DatabaseMore.

(** ** whatsapp.js: the message gateway *)

Module Gateway.
Import JsString Effects Effects.Notations.

(** What the socket is asked to put on the wire. *)
Inductive Outgoing :=
| Text (jid text : string)
| Presence (presence jid : string).

(** The gateway threads the store, the responder's world and the socket.
    [wire] is every request handed to the socket, oldest first, whether
    it got through or not; [network] says whether a request fails, given
    the requests before it. Waiting ([setTimeout]) is a step like any
    other. *)
Record World := mkWorld {
  store : Pg.Database;
  responder : Ai.World;
  sock : bool;
  isConnected : bool;
  network : list Outgoing -> Outgoing -> option Ai.JsError;
  wire : list Outgoing
}.

Definition setStore (db : Pg.Database) (w : World) : World :=
  mkWorld db (responder w) (sock w) (isConnected w) (network w) (wire w).

Definition setResponder (a : Ai.World) (w : World) : World :=
  mkWorld (store w) a (sock w) (isConnected w) (network w) (wire w).

Definition setWire (l : list Outgoing) (w : World) : World :=
  mkWorld (store w) (responder w) (sock w) (isConnected w) (network w) l.

(** Sending throws a JavaScript error; handling a message can also fail
    in the store. *)
Inductive Failure :=
| StoreFailure (e : Pg.PgError)
| JsFailure (e : Ai.JsError).

Definition Wa (A : Type) : Type := M World Ai.JsError A.

Definition Handler (A : Type) : Type := M World Failure A.

(** [sock.sendMessage] and [sock.sendPresenceUpdate] *)
Definition socketSend (o : Outgoing) : Wa unit :=
  fun w =>
    match network w (wire w) o with
    | Some e => (Thrown e, setWire (wire w ++ [o]) w)
    | None => (Returned tt, setWire (wire w ++ [o]) w)
    end.

Definition notConnected : Ai.JsError := Ai.Error "WhatsApp is not connected".

Definition sendMessage (phoneNumber text : string) : Wa unit :=
  tryCatch
    (ready <- gets (λ w, sock w && isConnected w);;
     if negb ready then throw notConnected
     else socketSend (Text phoneNumber text))
    (λ error, throw error).

Definition sendMessageWithTyping (phoneNumber text : string) : Wa unit :=
  tryCatch
    (ready <- gets (λ w, sock w && isConnected w);;
     if negb ready then throw notConnected
     else
       socketSend (Presence "composing" phoneNumber);;;
       socketSend (Text phoneNumber text);;;
       socketSend (Presence "available" phoneNumber))
    (λ error, throw error).

Definition isWhatsAppConnected : Wa bool := gets isConnected.




(** An incoming message: [key.remoteJid], [key.fromMe], and the two
    places a text can be, [None] where the property is missing. *)
Record WAMessage := mkMessage {
  remoteJid : string;
  fromMe : bool;
  conversation : option string;
  extendedText : option string
}.

(** [conversation || extendedTextMessage.text || ''] *)
Definition textOf (message : WAMessage) : string :=
  match conversation message with
  | Some s => if String.eqb s "" then Ai.orDefault (extendedText message) "" else s
  | None => Ai.orDefault (extendedText message) ""
  end.

Definition liftDb {A : Type} (c : Pg.Db A) : Handler A :=
  fun w =>
    match c (store w) with
    | (Returned a, db) => (Returned a, setStore db w)
    | (Thrown e, db) => (Thrown (StoreFailure e), setStore db w)
    end.

Definition liftAi {A : Type} (c : Ai.Js A) : Handler A :=
  fun w =>
    match c (responder w) with
    | (Returned a, r) => (Returned a, setResponder r w)
    | (Thrown e, r) => (Thrown (JsFailure e), setResponder r w)
    end.

Definition liftWa {A : Type} (c : Wa A) : Handler A :=
  fun w =>
    match c w with
    | (Returned a, w') => (Returned a, w')
    | (Thrown e, w') => (Thrown (JsFailure e), w')
    end.

(** What the five writes of one message read from outside. *)
Record Envs := mkEnvs {
  forLead : Pg.Env;
  forUserTurn : Pg.Env;
  forHandoff : Pg.Env;
  forProfile : Pg.Env;
  forAssistantTurn : Pg.Env
}.

Definition takeoverReply : string := "A human agent will contact you soon! 👋".

Definition apology : string :=
  "Sorry, I'm having technical difficulties. Please try again in a moment. 😊".

(** A stored turn as the responder reads it. *)
Definition asHistory (r : Pg.ChatHistory.row) : Ai.HistoryItem :=
  Ai.mkHistoryItem (Pg.ChatHistory.role r) (Pg.ChatHistory.message r) None.

(** A string that is there and not empty. *)
Definition present (v : option string) : option string :=
  match v with
  | Some s => if String.eqb s "" then None else Some s
  | None => None
  end.

(** The [try] block of [handleIncomingMessage]. *)
Definition handle (envs : Envs) (message : WAMessage) : Handler unit :=
  if includes (remoteJid message) "@g.us" || String.eqb (remoteJid message) "status@broadcast"
  then ret tt
  else if fromMe message then ret tt
  else
    let phoneNumber := remoteJid message in
    let messageText := textOf message in
    if String.eqb messageText "" then ret tt
    else
      lead <- liftDb (Database.getOrCreateLead (forLead envs) phoneNumber);;
      liftDb (Database.saveChatMessage (forUserTurn envs) (Pg.Leads.id lead) phoneNumber
                "user" messageText None);;;
      if bool_decide (Pg.Leads.needs_human_agent lead = Some true)
      then liftWa (sendMessage phoneNumber takeoverReply)
      else
        chatHistory <- liftDb (Database.getChatHistory phoneNumber (Some 10%nat));;
        response <- liftAi (Ai.generateResponse messageText (asHistory <$> chatHistory));;
        (if bool_decide (Ai.agentRequested (Ai.metadata response) = Some true)
         then liftDb (DatabaseMore.markForHumanAgent (forHandoff envs) phoneNumber);;; ret tt
         else ret tt);;;
        match Ai.extractedInfo (Ai.metadata response) with
        | Some info =>
            let name := present (Ai.i_name info) in
            let city := present (Ai.i_city info) in
            if bool_decide (name = None /\ city = None) then ret tt
            else
              liftDb (Database.updateLead (forProfile envs) (Pg.Leads.id lead)
                        (Pg.Leads.mkPatch (Some <$> name) (Some <$> city)
                           None None None None));;;
              ret tt
        | None => ret tt
        end;;;
        liftDb (Database.saveChatMessage (forAssistantTurn envs) (Pg.Leads.id lead)
                  phoneNumber "assistant" (Ai.message response)
                  (Some (Ai.metadata response)));;;
        liftWa (sendMessage phoneNumber (Ai.message response)).

Definition handleIncomingMessage (envs : Envs) (message : WAMessage) : Handler unit :=
  tryCatch (handle envs message)
    (λ error,
      tryCatch (liftWa (sendMessage (remoteJid message) apology))
        (λ sendError, ret tt)).

(** The listener on ['messages.upsert']: one message after the other. *)
Fixpoint handleAll (messages : list (Envs * WAMessage)) : Handler unit :=
  match messages with
  | [] => ret tt
  | (envs, msg) :: rest => handleIncomingMessage envs msg;;; handleAll rest
  end.

Definition onMessagesUpsert (type : string) (messages : list (Envs * WAMessage))
    : Handler unit :=
  if negb (String.eqb type "notify") then ret tt else handleAll messages.

End Gateway.

(** ** The vocabulary of the gateway's properties *)

(** A message the handler drops before it reads the store: one of a
    group, a status update, one of the account itself, one without text. *)
Definition ignored (message : Gateway.WAMessage) : bool :=
  JsString.includes (Gateway.remoteJid message) "@g.us"
  || String.eqb (Gateway.remoteJid message) "status@broadcast"
  || Gateway.fromMe message
  || String.eqb (Gateway.textOf message) "".

(** [c] takes every world to one that [R] relates to it, whether it
    returns or throws. *)
Definition keeps {W E A : Type} (R : relation W) (c : Effects.M W E A) : Prop :=
  forall w, R w (snd (c w)).

(** From [w] to [w'] the socket was handed at most [n] requests, each a
    text to [jid], and the connection is what it was. *)
Definition sends (jid : string) (n : nat) (w w' : Gateway.World) : Prop :=
  Gateway.sock w' = Gateway.sock w
  /\ Gateway.isConnected w' = Gateway.isConnected w
  /\ Gateway.network w' = Gateway.network w
  /\ exists sent,
       Gateway.wire w' = (Gateway.wire w ++ sent)%list
       /\ length sent <= n
       /\ Forall (λ o, exists text, o = Gateway.Text jid text) sent.

(** The five instants and ids of one message handled: the lead touched
    at 1 s, the customer's turn stored at 2 s, the reply's at 5 s. *)
Definition oneExchange : Gateway.Envs :=
  Gateway.mkEnvs firstContact
    (Pg.mkEnv 2000%Z 2000%Z 2001%Z 31%N) (Pg.mkEnv 3000%Z 3000%Z 3001%Z 32%N)
    (Pg.mkEnv 4000%Z 4000%Z 4001%Z 33%N) (Pg.mkEnv 5000%Z 5000%Z 5001%Z 34%N).

(** A text of the customer. *)
Definition incoming (text : string) : Gateway.WAMessage :=
  Gateway.mkMessage customer false (Some text) None.

(** A gateway that is connected and whose socket delivers everything. *)
Definition connected (db : Pg.Database) (r : Ai.World) : Gateway.World :=
  Gateway.mkWorld db r true true (λ _ _, None) [].

(** The customer's lead, already handed to a person. *)
Definition storeWithFlaggedLead : Pg.Database :=
  Pg.mkDb
    [Pg.Leads.mk 7%N customer None None (Some "qualified") (Some true) 30000%Z 10000%Z 30000%Z]
    [] [].

(** From [w] to [w'] nothing but the leads may have changed. *)
Definition leadsOnly (w w' : Gateway.World) : Prop :=
  Gateway.responder w' = Gateway.responder w
  /\ Gateway.sock w' = Gateway.sock w
  /\ Gateway.isConnected w' = Gateway.isConnected w
  /\ Gateway.network w' = Gateway.network w
  /\ Gateway.wire w' = Gateway.wire w
  /\ Pg.chat_history (Gateway.store w') = Pg.chat_history (Gateway.store w)
  /\ Pg.orders (Gateway.store w') = Pg.orders (Gateway.store w).

(** The request [callOllama] makes for a catalog, a history and a
    message: the system prompt, the history, the message. *)
Definition requestFor (r : Ai.World) (products : list Ai.Product)
    (chatHistory : list Ai.HistoryItem) (userMessage : string) : Ai.OllamaRequest :=
  Ai.mkOllamaRequest
    (Ai.orDefault (Ai.OLLAMA_URL r) "http://localhost:11434" +:+ "/api/chat")
    (Ai.orDefault (Ai.OLLAMA_MODEL r) "llama3")
    (Ai.mkOllamaMessage "system" (Some (Ai.createSystemPrompt products))
     :: map Ai.formatMessage
          (chatHistory ++ [Ai.mkHistoryItem "user" userMessage None])%list).

(** The test of the loop of [findRelevantProducts] in words: lower-cased,
    a keyword, a category that is not empty, or the name occurs in the
    lower-cased message. *)
Definition matches (toLowerCase : string -> string) (message : string) (p : Ai.Product)
    : Prop :=
  (exists ks k, Ai.p_keywords p = Some ks /\ k ∈ ks
                /\ occurs (toLowerCase k) (toLowerCase message))
  \/ (exists c, Ai.p_category p = Some c /\ c <> ""
                /\ occurs (toLowerCase c) (toLowerCase message))
  \/ occurs (toLowerCase (Ai.p_name p)) (toLowerCase message).

(** ** routes: the HTTP handlers *)

Module Routes.
Import Effects JsValues.

(** The three shapes of a JSON answer: [success: true] with its data,
    [success: false] with an error, and the answer of a [catch] block,
    which adds the message of what was thrown. *)
Inductive Answer (A : Type) : Type :=
| Success (statusCode : N) (message : option string) (data : A)
| Refused (statusCode : N) (error : string)
| Failed (statusCode : N) (error : string) (cause : Gateway.Failure).
Arguments Success {A} statusCode message data.
Arguments Refused {A} statusCode error.
Arguments Failed {A} statusCode error cause.

(** [formatPhoneNumber] on a value of a JSON body: only a string has
    [replace]. *)
Definition formatValue (v : JsValue) : outcome Ai.JsError string :=
  match v with
  | JString s => Returned (Whatsapp.formatPhoneNumber s)
  | JUndefined =>
      Thrown (Ai.TypeError "Cannot read properties of undefined (reading 'replace')")
  | JNull => Thrown (Ai.TypeError "Cannot read properties of null (reading 'replace')")
  | _ => Thrown (Ai.TypeError "phoneNumber.replace is not a function")
  end.


(** [!message] for a message that is a string or left out. *)
Definition noText (message : option string) : bool :=
  match message with
  | Some text => String.eqb text ""
  | None => true
  end.

(** [POST /api/messages/send], for a body whose [message] is a string
    or left out; [withTyping = true] stands in for [undefined] only. *)
Definition postSend (phoneNumber : JsValue) (message : option string) (withTyping : JsValue)
    (w : Gateway.World) : Answer (string * string) * Gateway.World :=
  if negb (truthy phoneNumber) || noText message
  then (Refused 400 "Phone number and message are required", w)
  else
    let text := default "" message in
    match formatValue phoneNumber with
    | Thrown e => (Failed 500 "Failed to send message" (Gateway.JsFailure e), w)
    | Returned formattedNumber =>
        let typing := match withTyping with JUndefined => true | v => truthy v end in
        match (if typing then Gateway.sendMessageWithTyping formattedNumber text
               else Gateway.sendMessage formattedNumber text) w with
        | (Returned _, w') =>
            (Success 200 (Some "Message sent successfully") (formattedNumber, text), w')
        | (Thrown e, w') => (Failed 500 "Failed to send message" (Gateway.JsFailure e), w')
        end
    end.


(** [req.body.products]: falsy or left out, something that is not an
    array, or an array. *)
Inductive ProductsField :=
| NoProducts
| NotAnArray
| ProductList (items : list Pg.Orders.item).

(** [POST /api/orders], for a [leadId] that is a uuid or left out. *)
Definition postOrder (env : Pg.Env) (leadId : option Pg.uuid) (phoneNumber : JsValue)
    (products : ProductsField) (totalAmount : option Z) (notes : option string)
    (db : Pg.Database) : Answer Pg.Orders.row * Pg.Database :=
  match leadId, truthy phoneNumber, products with
  | Some k, true, ProductList (item :: items) =>
      match formatValue phoneNumber with
      | Thrown e => (Failed 500 "Failed to create order" (Gateway.JsFailure e), db)
      | Returned formattedNumber =>
          match Database.createOrder env k formattedNumber (item :: items) totalAmount notes
                  db with
          | (Returned order, db') =>
              (Success 201 (Some "Order created successfully") order, db')
          | (Thrown e, db') =>
              (Failed 500 "Failed to create order" (Gateway.StoreFailure e), db')
          end
      end
  | Some _, true, ProductList [] | Some _, true, NotAnArray =>
      (Refused 400 "Products must be a non-empty array", db)
  | _, _, _ => (Refused 400 "Lead ID, phone number, and products are required", db)
  end.

(** [GET /api/orders/:phoneNumber]: [count] and [data]. *)
Definition getOrders (fault : StoreRequests.Fault) (phoneNumber : string) (db : Pg.Database)
    : Answer (nat * list Pg.Orders.row) * Pg.Database :=
  match DatabaseMore.getOrders fault (Whatsapp.formatPhoneNumber phoneNumber) db with
  | (Returned orders, db') => (Success 200 None (length orders, orders), db')
  | (Thrown e, db') => (Failed 500 "Failed to fetch orders" (Gateway.StoreFailure e), db')
  end.

(** [PUT /api/leads/:id]: of the body only the four allowed fields are
    copied, each when it is not [undefined] ([null] is copied). *)
Definition putLead (env : Pg.Env) (id : Pg.uuid) (updates : Pg.Leads.patch)
    (db : Pg.Database) : Answer Pg.Leads.row * Pg.Database :=
  let filteredUpdates :=
    Pg.Leads.mkPatch (Pg.Leads.set_customer_name updates) (Pg.Leads.set_city updates)
      (Pg.Leads.set_status updates) (Pg.Leads.set_needs_human_agent updates) None None in
  match Pg.Leads.set_customer_name updates, Pg.Leads.set_city updates,
        Pg.Leads.set_status updates, Pg.Leads.set_needs_human_agent updates with
  | None, None, None, None => (Refused 400 "No valid fields to update", db)
  | _, _, _, _ =>
      match Database.updateLead env id filteredUpdates db with
      | (Returned updatedLead, db') => (Success 200 None updatedLead, db')
      | (Thrown e, db') => (Failed 500 "Failed to update lead" (Gateway.StoreFailure e), db')
      end
  end.

(** [GET /api/leads], each query parameter a string or left out. *)
Definition getLeads (fault : StoreRequests.Fault) (status needs_human_agent : option string)
    (db : Pg.Database) : Answer (nat * list Pg.Leads.row) * Pg.Database :=
  let filters :=
    StoreRequests.mkFilters
      (match status with
       | Some s => if String.eqb s "" then None else Some s
       | None => None
       end)
      (String.eqb "true" <$> needs_human_agent) in
  match DatabaseMore.getLeads fault filters db with
  | (Returned leads, db') => (Success 200 None (length leads, leads), db')
  | (Thrown e, db') => (Failed 500 "Failed to fetch leads" (Gateway.StoreFailure e), db')
  end.

End Routes.

(** ** The vocabulary of the routes' properties *)

(** Every request of [sent], handed to the socket one after the other
    from the world [w], went through. *)
Definition delivered (w : Gateway.World) (sent : list Gateway.Outgoing) : Prop :=
  forall before o after,
    sent = (before ++ o :: after)%list ->
    Gateway.network w (Gateway.wire w ++ before)%list o = None.

(** A value of a JSON body that is a string. *)
Definition isString (v : JsValues.JsValue) : Prop := exists s, v = JsValues.JString s.


(** ** The vocabulary of the further properties *)


(** A turn is filed under its lead: the lead it points to is in the
    store, under the number the turn is stored with. *)
Definition filed (db : Pg.Database) (t : Pg.ChatHistory.row) : Prop :=
  exists lead, lead ∈ Pg.leads db
               /\ Pg.Leads.id lead = Pg.ChatHistory.lead_id t
               /\ Pg.Leads.phone_number lead = Pg.ChatHistory.phone_number t.

(** The id and the number of a lead. *)
Definition leadKey (r : Pg.Leads.row) : Pg.uuid * string :=
  (Pg.Leads.id r, Pg.Leads.phone_number r).

(** From [w] to [w'] no lead lost or changed its id or its number. *)
Definition keysKept (w w' : Gateway.World) : Prop :=
  forall key, key ∈ leadKey <$> Pg.leads (Gateway.store w) ->
              key ∈ leadKey <$> Pg.leads (Gateway.store w').

(** From [w] to [w'] the leads kept their ids and numbers, and every
    turn added is filed under its lead in [w']. *)
Definition files (w w' : Gateway.World) : Prop :=
  keysKept w w'
  /\ forall t, t ∈ Pg.chat_history (Gateway.store w') ->
       t ∈ Pg.chat_history (Gateway.store w) \/ filed (Gateway.store w') t.

(** From [w] to [w'] the leads kept their ids and numbers, and every
    turn added is one of the lead [k], under the number [jid]. *)
Definition filesUnder (k : Pg.uuid) (jid : string) (w w' : Gateway.World) : Prop :=
  keysKept w w'
  /\ forall t, t ∈ Pg.chat_history (Gateway.store w') ->
       t ∈ Pg.chat_history (Gateway.store w)
       \/ (Pg.ChatHistory.lead_id t = k /\ Pg.ChatHistory.phone_number t = jid).

(** * Properties *)

Local Open Scope list_scope.

(** ** Strings *)

Lemma filter_sublist {A : Type} (f : A -> bool) (l : list A) :
  List.filter f l `sublist_of` l.
Proof.
  induction l as [|x l IH]; simpl; [constructor |].
  destruct (f x); by constructor.
Qed.

Lemma append_cons (a : ascii) (s t : string) : String a s +:+ t = String a (s +:+ t).
Proof. reflexivity. Qed.

Lemma append_nil (t : string) : "" +:+ t = t.
Proof. reflexivity. Qed.

Lemma startsWith_spec (s t : string) :
  JsString.startsWith s t = true <-> exists r, s = t +:+ r.
Proof.
  revert s. induction t as [|b t IH]; intros s; simpl.
  - split; [intros _; exists s; reflexivity | reflexivity].
  - destruct s as [|a s].
    + split; [discriminate | intros [r Hr]; discriminate].
    + destruct (Ascii.eqb_spec a b) as [->|Hne].
      * rewrite IH. split; intros [r Hr]; exists r.
        -- rewrite append_cons. by rewrite Hr.
        -- rewrite append_cons in Hr. by injection Hr.
      * split; [discriminate |].
        intros [r Hr]. rewrite append_cons in Hr. injection Hr. congruence.
Qed.

Lemma list_ascii_of_string_app (s t : string) :
  list_ascii_of_string (s +:+ t) = (list_ascii_of_string s ++ list_ascii_of_string t)%list.
Proof.
  induction s as [|a s IH]; [done |].
  rewrite append_cons. simpl. by rewrite IH.
Qed.

Lemma string_of_list_ascii_app (l k : list ascii) :
  string_of_list_ascii (l ++ k) = string_of_list_ascii l +:+ string_of_list_ascii k.
Proof.
  induction l as [|a l IH]; [done |].
  simpl. rewrite append_cons. by rewrite IH.
Qed.

Lemma string_app_assoc (s t u : string) : (s +:+ t) +:+ u = s +:+ (t +:+ u).
Proof.
  induction s as [|a s IH]; [done |].
  rewrite !append_cons. by rewrite IH.
Qed.

Lemma string_length_list (s : string) : String.length s = length (list_ascii_of_string s).
Proof. induction s as [|a s IH]; simpl; [done | by rewrite IH]. Qed.

Lemma stripNonDigits_list (s : string) :
  list_ascii_of_string (JsString.stripNonDigits s) = digitsOf s.
Proof.
  unfold digitsOf. induction s as [|a s IH]; simpl; [done |].
  destruct (JsString.isDigit a); simpl; by rewrite IH.
Qed.

Lemma digitsOf_app (s t : string) : digitsOf (s +:+ t) = (digitsOf s ++ digitsOf t)%list.
Proof. unfold digitsOf. by rewrite list_ascii_of_string_app, List.filter_app. Qed.

Lemma digitsOf_string_of_list (l : list ascii) :
  digitsOf (string_of_list_ascii l) = List.filter JsString.isDigit l.
Proof. unfold digitsOf. by rewrite list_ascii_of_string_of_list_ascii. Qed.

Lemma filter_isDigit_digitsOf (s : string) :
  List.filter JsString.isDigit (digitsOf s) = digitsOf s.
Proof.
  unfold digitsOf. induction (list_ascii_of_string s) as [|a l IH]; simpl; [done |].
  destruct (JsString.isDigit a) eqn:E; simpl; [by rewrite E, IH | done].
Qed.

Lemma startsWith_one (s : string) :
  JsString.startsWith s "1" = bool_decide (head (list_ascii_of_string s) = Some "1"%char).
Proof.
  destruct s as [|a s]; simpl; [done |].
  destruct (Ascii.eqb_spec a "1"%char) as [->|Hne]; [done |].
  symmetry. apply bool_decide_eq_false. congruence.
Qed.

Example formatPhoneNumber_us :
  Whatsapp.formatPhoneNumber "(555) 123-4567" = "15551234567@s.whatsapp.net".
Proof. reflexivity. Qed.

Example extractCustomerInfo_john :
  Ai.extractCustomerInfo "Hi, I'm John and I live in Austin." [] =
  Ai.mkInfo (Some "John") (Some "Austin").
Proof. reflexivity. Qed.

Example extractCustomerInfo_none :
  Ai.extractCustomerInfo "what do you sell?" [] = Ai.mkInfo None None.
Proof. reflexivity. Qed.

(** ** whatsapp.js: phone numbers *)

Lemma stripNonDigits_digitsOf (s : string) :
  JsString.stripNonDigits s = string_of_list_ascii (digitsOf s).
Proof. by rewrite <- stripNonDigits_list, string_of_list_ascii_of_string. Qed.

Lemma formatPhoneNumber_test (s : string) :
  negb (JsString.startsWith (JsString.stripNonDigits s) "1")
  && (String.length (JsString.stripNonDigits s) =? 10)%nat
  = needsCountryCode (digitsOf s).
Proof.
  unfold needsCountryCode.
  rewrite startsWith_one, string_length_list, stripNonDigits_list.
  rewrite andb_comm. f_equal.
  destruct (Nat.eqb_spec (length (digitsOf s)) 10) as [E|E].
  - symmetry. by apply bool_decide_eq_true.
  - symmetry. by apply bool_decide_eq_false.
Qed.

Lemma formatPhoneNumber_unfold (s : string) :
  Whatsapp.formatPhoneNumber s = normalized s.
Proof.
  unfold Whatsapp.formatPhoneNumber, normalized.
  rewrite formatPhoneNumber_test, string_of_list_ascii_app.
  rewrite <- stripNonDigits_digitsOf.
  destruct (needsCountryCode (digitsOf s)); reflexivity.
Qed.

(** C8. [formatPhoneNumber] keeps exactly the digits of its input, in
    order; it puts "1" in front exactly when there are ten of them and
    the first is not "1"; and it ends the result with "@s.whatsapp.net". *)
Theorem formatPhoneNumber_normalizes (phoneNumber : string) :
  exists countryCode,
    Whatsapp.formatPhoneNumber phoneNumber
    = countryCode +:+ string_of_list_ascii (digitsOf phoneNumber) +:+ "@s.whatsapp.net"
    /\ (countryCode = "1" \/ countryCode = "")
    /\ (countryCode = "1" <->
        length (digitsOf phoneNumber) = 10 /\ head (digitsOf phoneNumber) <> Some "1"%char)
    /\ Forall (λ c, JsString.isDigit c = true) (digitsOf phoneNumber)
    /\ digitsOf phoneNumber `sublist_of` list_ascii_of_string phoneNumber
    /\ (forall c, c ∈ list_ascii_of_string phoneNumber -> JsString.isDigit c = true ->
        c ∈ digitsOf phoneNumber).
Proof.
  rewrite formatPhoneNumber_unfold. unfold normalized, needsCountryCode.
  assert (Hd : Forall (λ c, JsString.isDigit c = true) (digitsOf phoneNumber)).
  { apply Forall_forall. intros c Hc. by apply list_elem_of_In, filter_In in Hc as [_ Hc]. }
  assert (Hk : forall c, c ∈ list_ascii_of_string phoneNumber -> JsString.isDigit c = true ->
                         c ∈ digitsOf phoneNumber).
  { intros c Hc Hy. apply list_elem_of_In, filter_In. split; [by apply list_elem_of_In | done]. }
  assert (Hs : digitsOf phoneNumber `sublist_of` list_ascii_of_string phoneNumber)
    by apply filter_sublist.
  destruct (decide (length (digitsOf phoneNumber) = 10)) as [E|E];
    destruct (decide (head (digitsOf phoneNumber) = Some "1"%char)) as [F|F].
  - exists "". rewrite (bool_decide_eq_true_2 _ E), (bool_decide_eq_true_2 _ F).
    split; [reflexivity |]. split; [by right |]. split; [| done].
    split; [discriminate | by intros [_ ?]].
  - exists "1". rewrite (bool_decide_eq_true_2 _ E), (bool_decide_eq_false_2 _ F).
    split; [reflexivity |]. split; [by left |]. by split.
  - exists "". rewrite (bool_decide_eq_false_2 _ E).
    split; [reflexivity |]. split; [by right |]. split; [| done].
    split; [discriminate | by intros [? _]].
  - exists "". rewrite (bool_decide_eq_false_2 _ E).
    split; [reflexivity |]. split; [by right |]. split; [| done].
    split; [discriminate | by intros [? _]].
Qed.

Lemma digitsOf_normalized (s : string) :
  digitsOf (normalized s)
  = ((if needsCountryCode (digitsOf s) then ["1"%char] else []) ++ digitsOf s)%list.
Proof.
  unfold normalized. rewrite digitsOf_app, digitsOf_string_of_list, List.filter_app.
  rewrite filter_isDigit_digitsOf.
  replace (digitsOf Whatsapp.suffix) with (@nil ascii) by reflexivity.
  rewrite app_nil_r. by destruct (needsCountryCode (digitsOf s)).
Qed.

Lemma needsCountryCode_once (d : list ascii) :
  needsCountryCode ((if needsCountryCode d then ["1"%char] else []) ++ d) = false.
Proof.
  destruct (needsCountryCode d) eqn:E; [| exact E].
  unfold needsCountryCode. apply andb_false_iff. right.
  apply negb_false_iff. by apply bool_decide_eq_true.
Qed.

(** C10. [formatPhoneNumber] is idempotent: the suffix brings no digit,
    and a result that got its "1" starts with "1". *)
Theorem formatPhoneNumber_idempotent (s : string) :
  Whatsapp.formatPhoneNumber (Whatsapp.formatPhoneNumber s) = Whatsapp.formatPhoneNumber s.
Proof.
  rewrite !formatPhoneNumber_unfold.
  unfold normalized at 1. rewrite digitsOf_normalized, needsCountryCode_once.
  reflexivity.
Qed.

(** ** ai.js: matching *)

Lemma includes_spec (s t : string) :
  JsString.includes s t = true <-> exists pre post, s = pre +:+ t +:+ post.
Proof.
  induction s as [|a s IH].
  - simpl. destruct (JsString.startsWith "" t) eqn:E.
    + apply startsWith_spec in E as [r Hr]. split; [intros _ | done].
      exists "", r. by rewrite append_nil.
    + split; [done |]. intros (pre & post & H).
      destruct pre; [| discriminate].
      rewrite append_nil in H.
      assert (JsString.startsWith "" t = true) by (apply startsWith_spec; eauto).
      congruence.
  - simpl. destruct (JsString.startsWith (String a s) t) eqn:E.
    + apply startsWith_spec in E as [r Hr]. split; [intros _ | done].
      exists "", r. by rewrite append_nil.
    + rewrite IH. split.
      * intros (pre & post & ->). exists (String a pre), post. by rewrite append_cons.
      * intros (pre & post & H). destruct pre as [|b pre].
        -- rewrite append_nil in H.
           assert (JsString.startsWith (String a s) t = true)
             by (apply startsWith_spec; eauto).
           congruence.
        -- rewrite append_cons in H. injection H as -> ->. eauto.
Qed.

Lemma toLowerCase_app (s t : string) :
  JsString.toLowerCase (s +:+ t) = JsString.toLowerCase s +:+ JsString.toLowerCase t.
Proof.
  induction s as [|a s IH]; [done |].
  rewrite append_cons. simpl. by rewrite IH, append_cons.
Qed.

(** A split of the lowered string is the lowering of a split. *)
Lemma toLowerCase_split (s x y : string) :
  JsString.toLowerCase s = x +:+ y ->
  exists a b, s = a +:+ b /\ JsString.toLowerCase a = x /\ JsString.toLowerCase b = y.
Proof.
  revert s. induction x as [|c x IH]; intros s H.
  - exists "", s. by rewrite !append_nil in *.
  - destruct s as [|d s]; [discriminate |].
    rewrite append_cons in H. simpl in H. injection H as Hc Hs.
    destruct (IH _ Hs) as (a & b & -> & Ha & Hb).
    exists (String d a), b. rewrite append_cons. simpl. by rewrite Hc, Ha.
Qed.

Lemma includes_lowered (s t : string) :
  JsString.includes (JsString.toLowerCase s) (JsString.toLowerCase t) = true
  <-> occursIgnoringCase t s.
Proof.
  rewrite includes_spec. split.
  - intros (x & y & H).
    apply toLowerCase_split in H as (pre & r & -> & <- & H).
    apply toLowerCase_split in H as (mid & post & -> & H & <-).
    by exists pre, mid, post.
  - intros (pre & mid & post & -> & H).
    exists (JsString.toLowerCase pre), (JsString.toLowerCase post).
    by rewrite !toLowerCase_app, H.
Qed.

Section RelevanceFacts.

Variable toLowerCase : string -> string.

Lemma collectRelevant_filter (lowerMessage : string) (products acc : list Ai.Product) :
  Ai.collectRelevant toLowerCase lowerMessage products acc
  = (acc ++ List.filter (relevant toLowerCase lowerMessage) products)%list.
Proof.
  revert acc. induction products as [|p ps IH]; intros acc; simpl.
  - by rewrite app_nil_r.
  - unfold relevant.
    destruct (Ai.keywordMatches toLowerCase lowerMessage p); simpl;
      [by rewrite IH, <- app_assoc |].
    destruct (Ai.categoryMatches toLowerCase lowerMessage p); simpl;
      [by rewrite IH, <- app_assoc |].
    destruct (Ai.nameMatches toLowerCase lowerMessage p); simpl;
      [by rewrite IH, <- app_assoc | apply IH].
Qed.

Lemma relevant_qualifies (message : string) (p : Ai.Product) :
  relevant toLowerCase (toLowerCase message) p = true -> qualifies toLowerCase message p.
Proof.
  unfold relevant, qualifies, occurs. rewrite !orb_true_iff. intros [[H|H]|H].
  - left. unfold Ai.keywordMatches in H.
    destruct (Ai.p_keywords p) as [ks|]; [| discriminate].
    apply existsb_exists in H as (k & Hin & Hk).
    exists ks, k. split; [done |]. split; [by apply list_elem_of_In |].
    by apply includes_spec.
  - right. left. unfold Ai.categoryMatches in H.
    destruct (Ai.p_category p) as [c|]; [| discriminate].
    apply andb_true_iff in H as [_ H]. exists c. split; [done |].
    by apply includes_spec.
  - right. right. by apply includes_spec.
Qed.

(** The products returned are the first three that pass the test. *)
Lemma findRelevantProducts_first_three (message : string) (products : list Ai.Product) :
  Ai.findRelevantProducts toLowerCase message products
  = take 3 (List.filter (relevant toLowerCase (toLowerCase message)) products).
Proof. unfold Ai.findRelevantProducts. by rewrite collectRelevant_filter. Qed.

End RelevanceFacts.

(** C7. Whatever [toLowerCase] makes of a string, for every message and
    every catalog [findRelevantProducts] returns at most three products;
    each one matches the message by a keyword, by its category or by its
    name, as a substring with case ignored (lower-cased, it occurs in the
    lower-cased message); and they come in catalog order. *)
Theorem findRelevantProducts_capped (toLowerCase : string -> string) (message : string)
    (products : list Ai.Product) :
  length (Ai.findRelevantProducts toLowerCase message products) <= 3
  /\ Forall (qualifies toLowerCase message)
       (Ai.findRelevantProducts toLowerCase message products)
  /\ Ai.findRelevantProducts toLowerCase message products `sublist_of` products.
Proof.
  rewrite findRelevantProducts_first_three.
  split; [rewrite length_take; lia |]. split.
  - apply Forall_take, Forall_forall. intros p Hp.
    apply list_elem_of_In, filter_In in Hp as [_ Hp].
    by apply relevant_qualifies.
  - etrans; [apply sublist_take | apply filter_sublist].
Qed.

(** With the folding of ASCII letters, a product that qualifies has a
    keyword, its category or its name in the message up to the case of
    the letters A to Z. *)
Lemma qualifies_ascii (message : string) (p : Ai.Product) :
  qualifies JsString.toLowerCase message p ->
  (exists ks k, Ai.p_keywords p = Some ks /\ k ∈ ks /\ occursIgnoringCase k message)
  \/ (exists c, Ai.p_category p = Some c /\ occursIgnoringCase c message)
  \/ occursIgnoringCase (Ai.p_name p) message.
Proof.
  unfold qualifies, occurs. intros [(ks & k & Hks & Hin & H) | [(c & Hc & H) | H]].
  - left. exists ks, k. split; [done |]. split; [done |].
    by apply includes_lowered, includes_spec.
  - right. left. exists c. split; [done |]. by apply includes_lowered, includes_spec.
  - right. right. by apply includes_lowered, includes_spec.
Qed.

(** ** ai.js: the handoff and the failure policy *)

Lemma agentKeywords_lower (keyword : string) :
  keyword ∈ Ai.agentKeywords -> JsString.toLowerCase keyword = keyword.
Proof.
  unfold Ai.agentKeywords. rewrite !elem_of_cons, elem_of_nil.
  intros [->|[->|[->|[->|[->|[]]]]]]; reflexivity.
Qed.

Lemma isAgentRequested_spec (message : string) :
  Ai.isAgentRequested message = true <-> asksForAgent message.
Proof.
  unfold Ai.isAgentRequested, asksForAgent. rewrite existsb_exists. split.
  - intros (k & Hin & Hk). apply list_elem_of_In in Hin. exists k. split; [done |].
    apply includes_lowered. by rewrite (agentKeywords_lower k).
  - intros (k & Hin & Hk). exists k. split; [by apply list_elem_of_In |].
    apply includes_lowered in Hk. by rewrite (agentKeywords_lower k) in Hk.
Qed.

(** [loadProducts] never calls the model, and throws exactly when nothing
    is cached and the file does not give a parsed object. *)
Lemma loadProducts_loads (w : Ai.World) :
  catalogLoads w ->
  exists ps w', Ai.loadProducts w = (Effects.Returned ps, w') /\ Ai.fetched w' = Ai.fetched w.
Proof.
  unfold Ai.loadProducts, Effects.bind, Effects.gets, Effects.modify, Effects.ret.
  intros [[ps H]|[ps H]].
  - rewrite H. eauto.
  - destruct (Ai.productsData w) as [qs|]; [eauto |]. rewrite H. simpl. eauto.
Qed.

Lemma loadProducts_fails (w : Ai.World) :
  ~ catalogLoads w -> exists e, Ai.loadProducts w = (Effects.Thrown e, w).
Proof.
  unfold catalogLoads, Ai.loadProducts, Effects.bind, Effects.gets, Effects.throw.
  intros H. destruct (Ai.productsData w) as [qs|]; [destruct H; left; eauto |].
  destruct (Ai.products_json w) as [e|e| |ps]; eauto.
  destruct H. right. eauto.
Qed.

Lemma respond_handoff (message : string) (chatHistory : list Ai.HistoryItem) (w : Ai.World) :
  Ai.isAgentRequested message = true ->
  catalogLoads w ->
  exists w', Ai.respond message chatHistory w
             = (Effects.Returned
                  (Ai.mkResponse Ai.handoffReply (Ai.mkMetadata (Some true) None None None None)),
                w')
             /\ Ai.fetched w' = Ai.fetched w.
Proof.
  intros Ha Hc. destruct (loadProducts_loads w Hc) as (ps & w' & Hl & Hf).
  exists w'. unfold Ai.respond, Effects.bind. by rewrite Hl, Ha.
Qed.

Lemma respond_load_failure (message : string) (chatHistory : list Ai.HistoryItem)
    (w w1 : Ai.World) (e : Ai.JsError) :
  Ai.loadProducts w = (Effects.Thrown e, w1) ->
  Ai.respond message chatHistory w = (Effects.Thrown e, w1).
Proof. intros H. unfold Ai.respond, Effects.bind. by rewrite H. Qed.

Lemma catalogLoads_dec (w : Ai.World) : catalogLoads w \/ ~ catalogLoads w.
Proof.
  unfold catalogLoads. destruct (Ai.productsData w) as [ps|]; [left; left; eauto |].
  destruct (Ai.products_json w) as [e|e| |ps].
  1-3: right; intros [[? ?]|[? ?]]; discriminate.
  left. right. eauto.
Qed.

(** C2, as the code has it. A message that asks for a person never
    reaches the model. When the catalog is at hand the reply is the
    handoff with [agentRequested = true]; when loading it throws, the
    reply is the fallback with [error = true] and no [agentRequested]. *)
Theorem handoff_skips_model (message : string) (chatHistory : list Ai.HistoryItem)
    (w : Ai.World) :
  asksForAgent message ->
  exists r w',
    Ai.generateResponse message chatHistory w = (Effects.Returned r, w')
    /\ Ai.fetched w' = Ai.fetched w
    /\ (catalogLoads w ->
        Ai.message r = Ai.handoffReply /\ Ai.agentRequested (Ai.metadata r) = Some true)
    /\ (~ catalogLoads w ->
        Ai.message r = Ai.fallbackReply /\ Ai.error (Ai.metadata r) = Some true
        /\ Ai.agentRequested (Ai.metadata r) = None).
Proof.
  intros Ha. apply isAgentRequested_spec in Ha.
  unfold Ai.generateResponse, Effects.tryCatch.
  destruct (catalogLoads_dec w) as [Hc|Hc].
  - destruct (respond_handoff message chatHistory w Ha Hc) as (w' & -> & Hf).
    eexists _, w'. split; [reflexivity |]. split; [exact Hf |]. split; [done |].
    intros Hn. by destruct Hn.
  - destruct (loadProducts_fails w Hc) as [e He].
    rewrite (respond_load_failure _ _ _ _ _ He).
    eexists _, w. split; [reflexivity |]. split; [done |]. split; [intros Hy; by destruct Hc |].
    done.
Qed.

Lemma handoff_skips_model_witness :
  exists r w',
    Ai.generateResponse "Can I talk to a HUMAN please" [] worldWithCatalog
    = (Effects.Returned r, w')
    /\ Ai.fetched w' = Ai.fetched worldWithCatalog
    /\ (catalogLoads worldWithCatalog ->
        Ai.message r = Ai.handoffReply /\ Ai.agentRequested (Ai.metadata r) = Some true)
    /\ (~ catalogLoads worldWithCatalog ->
        Ai.message r = Ai.fallbackReply /\ Ai.error (Ai.metadata r) = Some true
        /\ Ai.agentRequested (Ai.metadata r) = None).
Proof.
  apply (handoff_skips_model "Can I talk to a HUMAN please" [] worldWithCatalog).
  apply isAgentRequested_spec. reflexivity.
Defined.

(** C2 fails as worded: with products.json unreadable, a message that
    asks for a human gets the fallback reply, without [agentRequested]. *)
Lemma handoff_lost_without_catalog :
  asksForAgent "I need a human"
  /\ exists r w',
       Ai.generateResponse "I need a human" [] worldWithoutCatalog = (Effects.Returned r, w')
       /\ Ai.agentRequested (Ai.metadata r) <> Some true.
Proof.
  split.
  - apply isAgentRequested_spec. reflexivity.
  - eexists _, _. split; [reflexivity |]. discriminate.
Qed.

(** C9. [generateResponse] never throws. Whatever its body throws, a
    failure to read or parse the catalog as much as a failure of the model
    call, becomes the fallback reply with [error = true] and the message
    of the error; a body that returns is returned as it is. *)
Theorem generateResponse_catches_all (message : string) (chatHistory : list Ai.HistoryItem)
    (w : Ai.World) :
  exists r w',
    Ai.generateResponse message chatHistory w = (Effects.Returned r, w')
    /\ (forall e w1, Ai.respond message chatHistory w = (Effects.Thrown e, w1) ->
        w' = w1
        /\ r = Ai.mkResponse Ai.fallbackReply
                 (Ai.mkMetadata None None None (Some true) (Some (Ai.e_message e))))
    /\ (forall e w1, Ai.loadProducts w = (Effects.Thrown e, w1) ->
        Ai.message r = Ai.fallbackReply /\ Ai.error (Ai.metadata r) = Some true)
    /\ (forall r0 w1, Ai.respond message chatHistory w = (Effects.Returned r0, w1) ->
        w' = w1 /\ r = r0).
Proof.
  unfold Ai.generateResponse, Effects.tryCatch.
  destruct (Ai.respond message chatHistory w) as [[r0|e0] w0] eqn:E.
  - exists r0, w0. split; [done |]. split; [intros e w1 H; discriminate |].
    split; [| intros r1 w1 H; by injection H as -> ->].
    intros e w1 H. rewrite (respond_load_failure _ _ _ _ _ H) in E. discriminate.
  - eexists _, w0. split; [reflexivity |].
    split; [intros e w1 H; by injection H as -> -> |].
    split; [done | intros r1 w1 H; discriminate].
Qed.

(** The two failures C9 names, each run to the fallback. *)
Example generateResponse_catalog_failure :
  Ai.generateResponse "do you sell kurtas?" [] worldWithoutCatalog
  = (Effects.Returned
       (Ai.mkResponse Ai.fallbackReply
          (Ai.mkMetadata None None None (Some true)
             (Some "ENOENT: no such file or directory, open 'products.json'"))),
     worldWithoutCatalog).
Proof. reflexivity. Qed.

Example generateResponse_model_failure :
  fst (Ai.generateResponse "do you sell kurtas?" [] worldWithModelDown)
  = Effects.Returned
      (Ai.mkResponse Ai.fallbackReply
         (Ai.mkMetadata None None None (Some true)
            (Some "Ollama API error: 503 Service Unavailable"))).
Proof. by vm_compute. Qed.

(** A turn that goes through: one request to the model, the history and
    the new message after the system prompt, and the one product that
    matches in the metadata. *)
Example generateResponse_answers :
  let '(r, w) := Ai.generateResponse "Do you sell KURTAS? I'm asha, from Surat."
                   [Ai.mkHistoryItem "user" "hi" None;
                    Ai.mkHistoryItem "assistant" "Hello!" None] worldWithCatalog in
  r = Effects.Returned
        (Ai.mkResponse "Sure!"
           (Ai.mkMetadata (Some false) (Some (Ai.mkInfo (Some "Asha") (Some "Surat")))
              (Some [Ai.mkRef "PROD001" "Cotton Kurta" "29.99"]) None None))
  /\ (λ rq, (Ai.rq_url rq, Ai.rq_model rq,
             (λ m, (Ai.om_role m)) <$> Ai.rq_messages rq)) <$> Ai.fetched w
     = [("http://localhost:11434/api/chat", "llama3",
         ["system"; "user"; "assistant"; "user"])].
Proof. by vm_compute. Qed.

(** ** database.js: chat history *)

#[local] Instance notAfter_total : Total Pg.notAfter.
Proof. intros a b. unfold Pg.notAfter. lia. Qed.

#[local] Instance notAfter_trans : Transitive Pg.notAfter.
Proof. intros a b c. unfold Pg.notAfter. lia. Qed.

Lemma StronglySorted_take {A : Type} (R : relation A) (l : list A) (n : nat) :
  StronglySorted R l -> StronglySorted R (take n l).
Proof.
  intros H. rewrite <- (take_drop n l) in H.
  by apply StronglySorted_app_1_l in H.
Qed.

(** What the query gives. [getChatHistory] leaves the store alone and
    returns the oldest [limit] turns of the phone number, ascending by
    creation time: they are turns of that number, sorted, as many as the
    limit allows, and every turn left out is no older than any of them. *)
Theorem getChatHistory_oldest_window (phoneNumber : string) (limit : option nat)
    (db : Pg.Database) :
  exists rows rest,
    Database.getChatHistory phoneNumber limit db = (Effects.Returned rows, db)
    /\ rows ++ rest ≡ₚ filter (λ r, Pg.ChatHistory.phone_number r = phoneNumber)
                         (Pg.chat_history db)
    /\ StronglySorted Pg.notAfter rows
    /\ length rows = min (default 20 limit) (length (rows ++ rest))
    /\ (forall a b, a ∈ rows -> b ∈ rest -> Pg.notAfter a b).
Proof.
  set (turns := Pg.orderByCreatedAt
                  (filter (λ r, Pg.ChatHistory.phone_number r = phoneNumber)
                     (Pg.chat_history db))).
  assert (Hs : StronglySorted Pg.notAfter turns)
    by apply (StronglySorted_merge_sort Pg.notAfter).
  exists (take (default 20 limit) turns), (drop (default 20 limit) turns).
  split; [reflexivity |]. rewrite take_drop.
  split; [apply (merge_sort_Permutation Pg.notAfter) |].
  split; [by apply StronglySorted_take |].
  split; [apply length_take |].
  intros a b Ha Hb. rewrite <- (take_drop (default 20 limit) turns) in Hs.
  by eapply StronglySorted_app_1_elem_of.
Qed.

(** C1. The code on three turns and a limit of two: it returns the first
    two, where the most recent window, the one a caller reads for
    context, is the last two. Ascending order and then the limit keep the
    wrong end of the history. *)
Lemma getChatHistory_not_most_recent :
  Database.getChatHistory customer (Some 2) storeWithThreeTurns
  = (Effects.Returned [turn 1%N "user" "hi" 10000%Z;
                       turn 2%N "assistant" "Hello! What are you looking for?" 20000%Z],
     storeWithThreeTurns)
  /\ mostRecentWindow customer 2 storeWithThreeTurns
     = [turn 2%N "assistant" "Hello! What are you looking for?" 20000%Z;
        turn 3%N "user" "a kurta" 30000%Z]
  /\ fst (Database.getChatHistory customer (Some 2) storeWithThreeTurns)
     <> Effects.Returned (mostRecentWindow customer 2 storeWithThreeTurns).
Proof. split; [| split]; [reflexivity | reflexivity | discriminate]. Qed.

(** ** database.js: leads *)

Lemma filter_absent {A B : Type} `{EqDecision B} (f : A -> B) (b : B) (l : list A) :
  b ∉ f <$> l -> filter (λ r, f r = b) l = [].
Proof.
  induction l as [|x l IH]; [done |].
  rewrite fmap_cons, not_elem_of_cons. intros [Hx Hl].
  rewrite filter_cons_False by congruence. by apply IH.
Qed.

Lemma fmap_if_absent {A B : Type} `{EqDecision B} (f : A -> B) (g : A -> A) (b : B)
    (l : list A) :
  b ∉ f <$> l -> (λ r, if bool_decide (f r = b) then g r else r) <$> l = l.
Proof.
  induction l as [|x l IH]; [done |].
  rewrite !fmap_cons, not_elem_of_cons. intros [Hx Hl].
  rewrite bool_decide_eq_false_2 by congruence. by rewrite IH.
Qed.

Lemma selectLeadByPhone_absent (phoneNumber : string) (db : Pg.Database) :
  phoneNumber ∉ Pg.Leads.phone_number <$> Pg.leads db ->
  Pg.selectLeadByPhone phoneNumber db = (Effects.Returned None, db).
Proof. intros H. unfold Pg.selectLeadByPhone. by rewrite filter_absent. Qed.

Lemma insertLead_fresh (r : Pg.Leads.row) (db : Pg.Database) :
  Pg.Leads.check r = true ->
  Pg.Leads.id r ∉ Pg.Leads.id <$> Pg.leads db ->
  Pg.Leads.phone_number r ∉ Pg.Leads.phone_number <$> Pg.leads db ->
  Pg.insertLead r db = (Effects.Returned r, Pg.setLeads (Pg.leads db ++ [r]) db).
Proof.
  intros Hc Hi Hp. unfold Pg.insertLead. rewrite Hc. simpl.
  by rewrite !bool_decide_eq_false_2.
Qed.

(** Updating the one row that carries a key. *)
Lemma updateLeadById_last (p : Pg.Leads.patch) (r : Pg.Leads.row) (l : list Pg.Leads.row)
    (db : Pg.Database) :
  Pg.leads db = l ++ [r] ->
  Pg.Leads.id r ∉ Pg.Leads.id <$> l ->
  Pg.Leads.check (Pg.Leads.apply p r) = true ->
  Pg.updateLeadById (Pg.Leads.id r) p db
  = (Effects.Returned (Pg.Leads.apply p r), Pg.setLeads (l ++ [Pg.Leads.apply p r]) db).
Proof.
  intros Hl Hi Hc. unfold Pg.updateLeadById. rewrite Hl, filter_app.
  rewrite (filter_absent Pg.Leads.id) by done.
  rewrite filter_cons_True by done. simpl. rewrite Hc. simpl.
  rewrite fmap_app, (fmap_if_absent Pg.Leads.id) by done. simpl.
  by rewrite bool_decide_eq_true_2.
Qed.

Lemma fmap_update_preserves {B : Type} (f : Pg.Leads.row -> B) (k : Pg.uuid)
    (p : Pg.Leads.patch) (l : list Pg.Leads.row) :
  (forall r, f (Pg.Leads.apply p r) = f r) ->
  f <$> ((λ r, if bool_decide (Pg.Leads.id r = k) then Pg.Leads.apply p r else r) <$> l)
  = f <$> l.
Proof.
  intros Hf. rewrite <- list_fmap_compose. apply list_fmap_ext.
  intros i r _. simpl. by destruct (bool_decide _).
Qed.

Lemma updateLeadById_keys (k : Pg.uuid) (p : Pg.Leads.patch) (db : Pg.Database) :
  Pg.Leads.id <$> Pg.leads (snd (Pg.updateLeadById k p db)) = Pg.Leads.id <$> Pg.leads db
  /\ Pg.Leads.phone_number <$> Pg.leads (snd (Pg.updateLeadById k p db))
     = Pg.Leads.phone_number <$> Pg.leads db.
Proof.
  unfold Pg.updateLeadById. destruct (negb _); [done |].
  destruct (Pg.single _); [| done]. simpl.
  split; by apply fmap_update_preserves.
Qed.

(** The keys of the leads table stay keys: whatever [getOrCreateLead] is
    called with and however it ends, no id and no phone number comes to
    be stored twice. *)
Lemma getOrCreateLead_keeps_keys (env : Pg.Env) (phoneNumber : string) (db : Pg.Database) :
  NoDup (Pg.Leads.id <$> Pg.leads db) ->
  NoDup (Pg.Leads.phone_number <$> Pg.leads db) ->
  NoDup (Pg.Leads.id <$> Pg.leads (snd (Database.getOrCreateLead env phoneNumber db)))
  /\ NoDup (Pg.Leads.phone_number
              <$> Pg.leads (snd (Database.getOrCreateLead env phoneNumber db))).
Proof.
  intros Hi Hp. unfold Database.getOrCreateLead, Effects.bind, Pg.selectLeadByPhone.
  destruct (Pg.maybeSingle _) as [[lead|]|e]; [| | done].
  - destruct (updateLeadById_keys (Pg.Leads.id lead)
                (Pg.Leads.mkPatch None None None None (Some (Pg.date1 env))
                   (Some (Pg.date2 env))) db) as [-> ->].
    done.
  - unfold Pg.insertLead. simpl.
    case_bool_decide as Hid; [done |]. case_bool_decide as Hph; [done |]. simpl.
    rewrite !fmap_app. split; apply NoDup_app; (split; [done |]); simpl;
      (split; [| apply NoDup_singleton]); intros x Hx Hx';
      apply list_elem_of_singleton in Hx'; by subst.
Qed.

(** C3, as the code has it. A first contact inserts exactly one lead,
    with status "new"; the next call for the number returns the lead of
    the same id, refreshed in [last_message_at] and in [updated_at] and
    in nothing else, and inserts nothing. *)
Theorem getOrCreateLead_upserts (env1 env2 : Pg.Env) (phoneNumber : string)
    (db : Pg.Database) :
  phoneNumber ∉ Pg.Leads.phone_number <$> Pg.leads db ->
  Pg.pg_uuid env1 ∉ Pg.Leads.id <$> Pg.leads db ->
  exists lead1 db1 lead2 db2,
    Database.getOrCreateLead env1 phoneNumber db = (Effects.Returned lead1, db1)
    /\ Pg.leads db1 = Pg.leads db ++ [lead1]
    /\ Pg.Leads.phone_number lead1 = phoneNumber
    /\ Pg.Leads.status lead1 = Some "new"
    /\ Database.getOrCreateLead env2 phoneNumber db1 = (Effects.Returned lead2, db2)
    /\ Pg.Leads.id lead2 = Pg.Leads.id lead1
    /\ lead2 = Pg.Leads.mk (Pg.Leads.id lead1) (Pg.Leads.phone_number lead1)
                 (Pg.Leads.customer_name lead1) (Pg.Leads.city lead1)
                 (Pg.Leads.status lead1) (Pg.Leads.needs_human_agent lead1)
                 (Pg.date1 env2) (Pg.Leads.created_at lead1) (Pg.date2 env2)
    /\ Pg.leads db2 = Pg.leads db ++ [lead2].
Proof.
  intros Hp Hi.
  set (lead1 := Pg.Leads.mk (Pg.pg_uuid env1) phoneNumber None None (Some "new")
                  (Some false) (Pg.date1 env1) (Pg.pg_now env1) (Pg.pg_now env1)).
  set (db1 := Pg.setLeads (Pg.leads db ++ [lead1]) db).
  set (touch := Pg.Leads.mkPatch None None None None (Some (Pg.date1 env2))
                  (Some (Pg.date2 env2))).
  assert (H1 : Database.getOrCreateLead env1 phoneNumber db = (Effects.Returned lead1, db1)).
  { unfold Database.getOrCreateLead, Effects.bind.
    rewrite selectLeadByPhone_absent by done. by apply insertLead_fresh. }
  assert (H2 : Database.getOrCreateLead env2 phoneNumber db1
               = (Effects.Returned (Pg.Leads.apply touch lead1),
                  Pg.setLeads (Pg.leads db ++ [Pg.Leads.apply touch lead1]) db1)).
  { unfold Database.getOrCreateLead, Effects.bind, Pg.selectLeadByPhone.
    replace (Pg.leads db1) with (Pg.leads db ++ [lead1]) by done.
    rewrite filter_app, (filter_absent Pg.Leads.phone_number) by done.
    rewrite filter_cons_True by done. simpl.
    by apply (updateLeadById_last touch lead1 (Pg.leads db) db1). }
  exists lead1, db1, (Pg.Leads.apply touch lead1),
    (Pg.setLeads (Pg.leads db ++ [Pg.Leads.apply touch lead1]) db1).
  by repeat split.
Qed.

Lemma getOrCreateLead_upserts_witness :
  exists lead1 db1 lead2 db2,
    Database.getOrCreateLead firstContact customer emptyStore = (Effects.Returned lead1, db1)
    /\ Pg.leads db1 = Pg.leads emptyStore ++ [lead1]
    /\ Pg.Leads.phone_number lead1 = customer
    /\ Pg.Leads.status lead1 = Some "new"
    /\ Database.getOrCreateLead nextMessage customer db1 = (Effects.Returned lead2, db2)
    /\ Pg.Leads.id lead2 = Pg.Leads.id lead1
    /\ lead2 = Pg.Leads.mk (Pg.Leads.id lead1) (Pg.Leads.phone_number lead1)
                 (Pg.Leads.customer_name lead1) (Pg.Leads.city lead1)
                 (Pg.Leads.status lead1) (Pg.Leads.needs_human_agent lead1)
                 (Pg.date1 nextMessage) (Pg.Leads.created_at lead1) (Pg.date2 nextMessage)
    /\ Pg.leads db2 = Pg.leads emptyStore ++ [lead2].
Proof.
  apply (getOrCreateLead_upserts firstContact nextMessage customer emptyStore);
    simpl; apply not_elem_of_nil.
Defined.

(** C3 fails as worded: the second call also moves [updated_at], from
    the insert's 1.002 s to 61 s. *)
Lemma getOrCreateLead_moves_updated_at :
  exists lead1 db1 lead2 db2,
    Database.getOrCreateLead firstContact customer emptyStore = (Effects.Returned lead1, db1)
    /\ Database.getOrCreateLead nextMessage customer db1 = (Effects.Returned lead2, db2)
    /\ Pg.Leads.updated_at lead1 = 1002%Z
    /\ Pg.Leads.updated_at lead2 = 61000%Z
    /\ Pg.Leads.updated_at lead2 <> Pg.Leads.updated_at lead1.
Proof.
  eexists _, _, _, _.
  split; [reflexivity |]. split; [reflexivity |]. split; [reflexivity |].
  split; [reflexivity | discriminate].
Qed.

(** ** database.js: orders *)

Lemma filter_update_by_id (p : Pg.Leads.patch) (k : Pg.uuid) (l : list Pg.Leads.row) :
  filter (λ r, Pg.Leads.id r = k)
    ((λ r, if bool_decide (Pg.Leads.id r = k) then Pg.Leads.apply p r else r) <$> l)
  = Pg.Leads.apply p <$> filter (λ r, Pg.Leads.id r = k) l.
Proof.
  induction l as [|x l IH]; [done |].
  rewrite fmap_cons. destruct (decide (Pg.Leads.id x = k)) as [E|E].
  - rewrite bool_decide_eq_true_2 by done.
    rewrite !filter_cons_True by done. by rewrite fmap_cons, IH.
  - rewrite bool_decide_eq_false_2 by done.
    rewrite !filter_cons_False by done. apply IH.
Qed.

(** What a successful [updateLeadById] did. *)
Lemma updateLeadById_returned (k : Pg.uuid) (p : Pg.Leads.patch) (db db' : Pg.Database)
    (r : Pg.Leads.row) :
  Pg.updateLeadById k p db = (Effects.Returned r, db') ->
  exists before,
    filter (λ r, Pg.Leads.id r = k) (Pg.leads db) = [before]
    /\ r = Pg.Leads.apply p before
    /\ filter (λ r, Pg.Leads.id r = k) (Pg.leads db') = [r]
    /\ Pg.orders db' = Pg.orders db
    /\ Pg.chat_history db' = Pg.chat_history db.
Proof.
  unfold Pg.updateLeadById.
  destruct (forallb _ _); simpl; [| discriminate].
  destruct (filter (λ r, Pg.Leads.id r = k) (Pg.leads db)) as [|before [|? ?]] eqn:E;
    simpl; try discriminate.
  intros H. injection H as <- <-. exists before. split; [done |]. split; [done |].
  simpl. by rewrite filter_update_by_id, E.
Qed.

Lemma insertOrder_returned (o r : Pg.Orders.row) (db db' : Pg.Database) :
  Pg.insertOrder o db = (Effects.Returned r, db') ->
  r = o /\ Pg.leads db' = Pg.leads db /\ Pg.orders db' = Pg.orders db ++ [o].
Proof.
  unfold Pg.insertOrder.
  repeat (match goal with |- context [if ?b then _ else _] => destruct b end;
          simpl; try discriminate).
  by intros [= <- <-].
Qed.

(** C5. After a [createOrder] that succeeds, the store holds one lead
    with the order's [leadId]; it is the lead that was there, now with
    status "converted" whatever its status was, and a fresh [updated_at]. *)
Theorem createOrder_converts_lead (env : Pg.Env) (leadId : Pg.uuid) (phoneNumber : string)
    (products : list Pg.Orders.item) (totalAmount : option Z) (notes : option string)
    (db db' : Pg.Database) (order : Pg.Orders.row) :
  Database.createOrder env leadId phoneNumber products totalAmount notes db
  = (Effects.Returned order, db') ->
  exists before after,
    filter (λ r, Pg.Leads.id r = leadId) (Pg.leads db) = [before]
    /\ filter (λ r, Pg.Leads.id r = leadId) (Pg.leads db') = [after]
    /\ Pg.Leads.status after = Some "converted"
    /\ after = Pg.Leads.mk (Pg.Leads.id before) (Pg.Leads.phone_number before)
                 (Pg.Leads.customer_name before) (Pg.Leads.city before)
                 (Some "converted") (Pg.Leads.needs_human_agent before)
                 (Pg.Leads.last_message_at before) (Pg.Leads.created_at before)
                 (Pg.date1 env).
Proof.
  unfold Database.createOrder, Database.updateLead, Effects.bind, Effects.ret.
  destruct (Pg.insertOrder _ db) as [[data|e] db1] eqn:Hi; [| discriminate].
  apply insertOrder_returned in Hi as (_ & Hl & _).
  destruct (Pg.updateLeadById _ _ db1) as [[lead|e] db2] eqn:Hu; [| discriminate].
  intros [= _ <-].
  apply updateLeadById_returned in Hu as (before & Hb & -> & Ha & _).
  rewrite Hl in Hb. exists before. eexists. split; [exact Hb |]. split; [exact Ha |].
  split; reflexivity.
Qed.

(** [createOrder] does succeed: on a store that has the lead once and
    not yet the order's key. *)
Lemma createOrder_succeeds (env : Pg.Env) (leadId : Pg.uuid) (phoneNumber : string)
    (products : list Pg.Orders.item) (totalAmount : option Z) (notes : option string)
    (db : Pg.Database) (lead : Pg.Leads.row) :
  filter (λ r, Pg.Leads.id r = leadId) (Pg.leads db) = [lead] ->
  Pg.pg_uuid env ∉ Pg.Orders.id <$> Pg.orders db ->
  exists db',
    Database.createOrder env leadId phoneNumber products totalAmount notes db
    = (Effects.Returned
         (Pg.Orders.mk (Pg.pg_uuid env) leadId phoneNumber products totalAmount
            (Some "pending") notes (Pg.pg_now env)), db').
Proof.
  intros Hl Ho.
  assert (Hin : leadId ∈ Pg.Leads.id <$> Pg.leads db).
  { assert (Hm : lead ∈ filter (λ r, Pg.Leads.id r = leadId) (Pg.leads db))
      by (rewrite Hl; apply list_elem_of_here).
    apply list_elem_of_filter in Hm as [<- Hm]. by apply list_elem_of_fmap_2. }
  unfold Database.createOrder, Database.updateLead, Effects.bind, Effects.ret.
  unfold Pg.insertOrder. simpl.
  rewrite (bool_decide_eq_false_2 _ Ho), (bool_decide_eq_true_2 _ Hin). simpl.
  unfold Pg.updateLeadById. simpl. rewrite Hl. simpl. eauto.
Qed.

Lemma createOrder_converts_lead_witness :
  exists before after,
    filter (λ r, Pg.Leads.id r = 7%N) (Pg.leads storeWithLostLead) = [before]
    /\ filter (λ r, Pg.Leads.id r = 7%N)
         (Pg.leads (snd (Database.createOrder orderPlaced 7%N customer oneKurta
                           (Some 2999%Z) None storeWithLostLead))) = [after]
    /\ Pg.Leads.status after = Some "converted"
    /\ after = Pg.Leads.mk (Pg.Leads.id before) (Pg.Leads.phone_number before)
                 (Pg.Leads.customer_name before) (Pg.Leads.city before)
                 (Some "converted") (Pg.Leads.needs_human_agent before)
                 (Pg.Leads.last_message_at before) (Pg.Leads.created_at before)
                 (Pg.date1 orderPlaced).
Proof.
  eapply (createOrder_converts_lead orderPlaced 7%N customer oneKurta (Some 2999%Z) None
            storeWithLostLead).
  reflexivity.
Defined.

(** ** routes/orders.js: the status update *)

(** C6. A status outside pending, confirmed, completed and cancelled,
    whatever kind of value it is, is answered with 400 and a [Failure]
    body, and the store is returned as it was: the handler does not
    reach [updateOrderStatus]. *)
Theorem putStatus_rejects_invalid (orderId : Pg.uuid) (status : JsValues.JsValue)
    (db : Pg.Database) :
  (forall s, s ∈ OrdersRoute.validStatuses -> status <> JsValues.JString s) ->
  exists error,
    OrdersRoute.putStatus orderId status db
    = (OrdersRoute.mkHttp 400 (OrdersRoute.Failure error), db).
Proof.
  intros H. unfold OrdersRoute.putStatus.
  destruct (JsValues.truthy status); simpl; [| eauto].
  destruct (OrdersRoute.includesValue OrdersRoute.validStatuses status) eqn:E;
    simpl; [| eauto].
  destruct status as [| | | |s| |]; try discriminate.
  apply existsb_exists in E as (v & Hin & Hv).
  apply String.eqb_eq in Hv as ->. destruct (H v); [by apply list_elem_of_In | done].
Qed.

Lemma putStatus_rejects_invalid_witness :
  exists error,
    OrdersRoute.putStatus 21%N (JsValues.JString "shipped") storeWithLostLead
    = (OrdersRoute.mkHttp 400 (OrdersRoute.Failure error), storeWithLostLead).
Proof.
  apply (putStatus_rejects_invalid 21%N (JsValues.JString "shipped") storeWithLostLead).
  intros s Hs. unfold OrdersRoute.validStatuses in Hs.
  rewrite !elem_of_cons, elem_of_nil in Hs.
  destruct Hs as [->|[->|[->|[->|[]]]]]; discriminate.
Defined.

(** ** Numbers: rounding to the nearest double *)

Section DoubleFacts.
Local Open Scope R_scope.

Lemma two_pow_pos (e : Z) : 0 < powerRZ 2 e.
Proof. apply powerRZ_lt. lra. Qed.

Lemma IZR_two_pow (e : Z) : (0 <= e)%Z -> IZR (2 ^ e) = powerRZ 2 e.
Proof.
  intros He. rewrite <- (Z2Nat.id e He) at 1 2.
  rewrite <- pow_IZR, pow_powerRZ. reflexivity.
Qed.

Lemma two_pow_add (a b : Z) : powerRZ 2 (a + b) = powerRZ 2 a * powerRZ 2 b.
Proof. apply powerRZ_add. lra. Qed.

Lemma two_pow_opp (a : Z) : powerRZ 2 (- a) = / powerRZ 2 a.
Proof. apply powerRZ_neg'. Qed.

(** [scaled n d e] is the fraction [n / (d * 2^e)]. *)
Lemma scaled_spec (n d e num den : Z) :
  (0 < d)%Z -> Double.scaled n d e = (num, den) ->
  (0 < den)%Z /\ IZR num / IZR den = IZR n / IZR d * powerRZ 2 (- e).
Proof.
  intros Hd. unfold Double.scaled. destruct (Z.leb_spec 0 e) as [He|He].
  - intros [= <- <-]. split; [apply Z.mul_pos_pos; [done | by apply Z.pow_pos_nonneg] |].
    rewrite mult_IZR, IZR_two_pow, two_pow_opp by done.
    pose proof (two_pow_pos e). apply IZR_lt in Hd. field. lra.
  - intros [= <- <-]. split; [done |].
    rewrite mult_IZR, IZR_two_pow by lia.
    apply IZR_lt in Hd. field. lra.
Qed.

(** The integer chosen is within a half of the quotient. *)
Lemma nearestEven_spec (num den : Z) :
  (0 < den)%Z ->
  - (1 / 2) <= IZR (Double.nearestEven num den) - IZR num / IZR den <= 1 / 2.
Proof.
  intros Hd.
  assert (Hz : (- den <= 2 * (Double.nearestEven num den * den - num) <= den)%Z).
  { unfold Double.nearestEven.
    pose proof (Z.div_mod num den ltac:(lia)) as Hdm.
    pose proof (Z.mod_pos_bound num den Hd) as Hr.
    destruct (Z.ltb_spec (2 * (num mod den)) den);
      [| destruct (Z.ltb_spec den (2 * (num mod den))); [| destruct (Z.even (num / den))]];
      nia. }
  destruct Hz as [Hlo Hhi]. apply IZR_le in Hlo, Hhi. apply IZR_lt in Hd.
  rewrite mult_IZR, minus_IZR, mult_IZR in Hlo, Hhi. rewrite opp_IZR in Hlo.
  replace (IZR (Double.nearestEven num den) - IZR num / IZR den)
    with ((IZR (Double.nearestEven num den) * IZR den - IZR num) / IZR den)
    by (field; lra).
  split.
  - apply Rmult_le_reg_r with (IZR den); [lra |].
    replace ((IZR (Double.nearestEven num den) * IZR den - IZR num) / IZR den * IZR den)
      with (IZR (Double.nearestEven num den) * IZR den - IZR num) by (field; lra).
    lra.
  - apply Rmult_le_reg_r with (IZR den); [lra |].
    replace ((IZR (Double.nearestEven num den) * IZR den - IZR num) / IZR den * IZR den)
      with (IZR (Double.nearestEven num den) * IZR den - IZR num) by (field; lra).
    lra.
Qed.

Lemma floor_div_le (num den k : Z) :
  (0 < den)%Z -> (k <= num / den)%Z -> IZR k <= IZR num / IZR den.
Proof.
  intros Hd Hk.
  assert (H : (k * den <= num)%Z).
  { pose proof (Z.mul_div_le num den Hd). nia. }
  apply IZR_le in H. rewrite mult_IZR in H. apply IZR_lt in Hd.
  apply Rmult_le_reg_r with (IZR den); [lra |].
  replace (IZR num / IZR den * IZR den) with (IZR num) by (field; lra). lra.
Qed.

(** The exponent chosen puts the quotient at [2^52] or above. *)
Lemma exponentOf_spec (n d : Z) :
  (0 < n)%Z -> (0 < d)%Z ->
  IZR (2 ^ 52) <= IZR n / IZR d * powerRZ 2 (- Double.exponentOf n d).
Proof.
  intros Hn Hd.
  destruct (Z.log2_spec n Hn) as [Hna _].
  destruct (Z.log2_spec d Hd) as [_ Hdb].
  pose proof (Z.log2_nonneg n) as Ha. pose proof (Z.log2_nonneg d) as Hb.
  set (a := Z.log2 n) in *. set (b := Z.log2 d) in *.
  apply IZR_le in Hna. apply IZR_lt in Hdb.
  rewrite IZR_two_pow in Hna, Hdb by lia.
  replace (Z.succ b) with (b + 1)%Z in Hdb by lia.
  rewrite two_pow_add in Hdb. change (powerRZ 2 1) with (2 * 1) in Hdb.
  pose proof (two_pow_pos a) as Pa. pose proof (two_pow_pos b) as Pb.
  assert (Hn' : 0 < IZR n) by (apply IZR_lt; lia).
  assert (Hd' : 0 < IZR d) by (apply IZR_lt; lia).
  assert (H52 : IZR (2 ^ 52) = powerRZ 2 52) by (apply IZR_two_pow; lia).
  (* the first candidate puts the quotient above 2^51 *)
  assert (H0 : IZR (2 ^ 52) < 2 * (IZR n / IZR d * powerRZ 2 (- (a - b - 52)))).
  { replace (- (a - b - 52))%Z with (52 + b + - a)%Z by lia.
    rewrite !two_pow_add, two_pow_opp, H52.
    pose proof (two_pow_pos 52) as P52.
    replace (2 * (IZR n / IZR d * (powerRZ 2 52 * powerRZ 2 b * / powerRZ 2 a)))
      with (powerRZ 2 52 * ((IZR n * (2 * powerRZ 2 b)) / (IZR d * powerRZ 2 a)))
      by (field; lra).
    rewrite <- (Rmult_1_r (powerRZ 2 52)) at 1.
    apply Rmult_lt_compat_l; [lra |].
    apply Rmult_lt_reg_r with (IZR d * powerRZ 2 a); [nra |].
    replace (IZR n * (2 * powerRZ 2 b) / (IZR d * powerRZ 2 a) * (IZR d * powerRZ 2 a))
      with (IZR n * (2 * powerRZ 2 b)) by (field; lra).
    nra. }
  unfold Double.exponentOf. fold a b.
  destruct (Double.scaled n d (a - b - 52)) as [num den] eqn:Es.
  destruct (scaled_spec _ _ _ _ _ Hd Es) as [Hden Hv].
  destruct (Z.ltb_spec (num / den) (2 ^ 52)) as [Hlt|Hge].
  - replace (- (a - b - 52 - 1))%Z with (- (a - b - 52) + 1)%Z by lia.
    rewrite two_pow_add. change (powerRZ 2 1) with (2 * 1). lra.
  - rewrite <- Hv. by apply floor_div_le.
Qed.

(** Rounding moves a positive value by at most [2^-53] of itself. *)
Lemma round_spec (n d s : Z) :
  (0 < n)%Z -> (0 < d)%Z ->
  exists m e,
    Double.round n d s = Double.Finite m e
    /\ (0 < m)%Z
    /\ - (IZR n / IZR d * powerRZ 2 s * ulp)
       <= Rvalue m e - IZR n / IZR d * powerRZ 2 s
       <= IZR n / IZR d * powerRZ 2 s * ulp.
Proof.
  intros Hn Hd. unfold Double.round.
  pose proof (exponentOf_spec n d Hn Hd) as He.
  set (e := Double.exponentOf n d) in *.
  destruct (Double.scaled n d e) as [num den] eqn:Es.
  destruct (scaled_spec _ _ _ _ _ Hd Es) as [Hden Hv].
  pose proof (nearestEven_spec num den Hden) as Hm.
  set (m := Double.nearestEven num den) in *.
  rewrite <- Hv in He. set (v := IZR num / IZR den) in *.
  assert (H52 : IZR (2 ^ 52) = 4503599627370496) by reflexivity.
  assert (H53 : IZR (2 ^ 53) = 9007199254740992) by reflexivity.
  assert (Hmpos : (0 < m)%Z) by (apply lt_IZR; lra).
  pose proof (two_pow_pos (e + s)) as Pes.
  assert (Hval : IZR n / IZR d * powerRZ 2 s = v * powerRZ 2 (e + s)).
  { rewrite Hv, two_pow_add, two_pow_opp.
    pose proof (two_pow_pos e). field. split; [lra |]. apply IZR_lt in Hd. lra. }
  assert (Herr : - (v * powerRZ 2 (e + s) * ulp)
                 <= IZR m * powerRZ 2 (e + s) - v * powerRZ 2 (e + s)
                 <= v * powerRZ 2 (e + s) * ulp).
  { unfold ulp. rewrite H53. nra. }
  destruct (Z.eqb_spec m (2 ^ 53)) as [E|E].
  - exists (2 ^ 52)%Z, (e + 1 + s)%Z. split; [done |]. split; [done |].
    rewrite Hval. unfold Rvalue.
    replace (e + 1 + s)%Z with (1 + (e + s))%Z by lia.
    rewrite (two_pow_add 1 (e + s)). change (powerRZ 2 1) with (2 * 1).
    rewrite E, H53 in Herr. rewrite H52.
    replace (4503599627370496 * (2 * 1 * powerRZ 2 (e + s)))
      with (9007199254740992 * powerRZ 2 (e + s)) by ring.
    exact Herr.
  - exists m, (e + s)%Z. split; [done |]. split; [done |].
    rewrite Hval. exact Herr.
Qed.

Lemma div_lt_floor (num den k : Z) :
  (0 < den)%Z -> (num / den < k)%Z -> IZR num / IZR den < IZR k.
Proof.
  intros Hd Hk.
  assert (H : (num < k * den)%Z).
  { pose proof (Z.div_mod num den ltac:(lia)). pose proof (Z.mod_pos_bound num den Hd). nia. }
  apply IZR_lt in H. rewrite mult_IZR in H. apply IZR_lt in Hd.
  apply Rmult_lt_reg_r with (IZR den); [lra |].
  replace (IZR num / IZR den * IZR den) with (IZR num) by (field; lra). lra.
Qed.

(** The exponent chosen keeps the quotient below [2^53]. *)
Lemma exponentOf_upper (n d : Z) :
  (0 < n)%Z -> (0 < d)%Z ->
  IZR n / IZR d * powerRZ 2 (- Double.exponentOf n d) < IZR (2 ^ 53).
Proof.
  intros Hn Hd.
  destruct (Z.log2_spec n Hn) as [_ Hna].
  destruct (Z.log2_spec d Hd) as [Hdb _].
  pose proof (Z.log2_nonneg n) as Ha. pose proof (Z.log2_nonneg d) as Hb.
  set (a := Z.log2 n) in *. set (b := Z.log2 d) in *.
  apply IZR_lt in Hna. apply IZR_le in Hdb.
  rewrite IZR_two_pow in Hna, Hdb by lia.
  replace (Z.succ a) with (a + 1)%Z in Hna by lia.
  rewrite two_pow_add in Hna. change (powerRZ 2 1) with (2 * 1) in Hna.
  pose proof (two_pow_pos a) as Pa. pose proof (two_pow_pos b) as Pb.
  assert (Hn' : 0 < IZR n) by (apply IZR_lt; lia).
  assert (Hd' : 0 < IZR d) by (apply IZR_lt; lia).
  assert (H52 : IZR (2 ^ 52) = powerRZ 2 52) by (apply IZR_two_pow; lia).
  assert (H53 : IZR (2 ^ 53) = 2 * IZR (2 ^ 52)) by (simpl; lra).
  assert (H0 : IZR n / IZR d * powerRZ 2 (- (a - b - 52)) < IZR (2 ^ 53)).
  { replace (- (a - b - 52))%Z with (52 + b + - a)%Z by lia.
    rewrite !two_pow_add, two_pow_opp, H53, H52.
    pose proof (two_pow_pos 52) as P52.
    replace (IZR n / IZR d * (powerRZ 2 52 * powerRZ 2 b * / powerRZ 2 a))
      with (powerRZ 2 52 * ((IZR n * powerRZ 2 b) / (IZR d * powerRZ 2 a)))
      by (field; lra).
    rewrite (Rmult_comm 2). apply Rmult_lt_compat_l; [lra |].
    apply Rmult_lt_reg_r with (IZR d * powerRZ 2 a); [nra |].
    replace (IZR n * powerRZ 2 b / (IZR d * powerRZ 2 a) * (IZR d * powerRZ 2 a))
      with (IZR n * powerRZ 2 b) by (field; lra).
    nra. }
  unfold Double.exponentOf. fold a b.
  destruct (Double.scaled n d (a - b - 52)) as [num den] eqn:Es.
  destruct (scaled_spec _ _ _ _ _ Hd Es) as [Hden Hv].
  destruct (Z.ltb_spec (num / den) (2 ^ 52)) as [Hlt|Hge].
  - replace (- (a - b - 52 - 1))%Z with (- (a - b - 52) + 1)%Z by lia.
    rewrite two_pow_add. change (powerRZ 2 1) with (2 * 1).
    apply div_lt_floor in Hlt; [| done]. rewrite Hv in Hlt. lra.
  - exact H0.
Qed.

(** [round] returns a double in normal form. *)
Lemma round_normal (n d s : Z) :
  (0 < n)%Z -> (0 < d)%Z ->
  exists m e, Double.round n d s = Double.Finite m e /\ (2 ^ 52 <= m < 2 ^ 53)%Z.
Proof.
  intros Hn Hd. unfold Double.round.
  pose proof (exponentOf_spec n d Hn Hd) as Hlo.
  pose proof (exponentOf_upper n d Hn Hd) as Hhi.
  set (e := Double.exponentOf n d) in *.
  destruct (Double.scaled n d e) as [num den] eqn:Es.
  destruct (scaled_spec _ _ _ _ _ Hd Es) as [Hden Hv].
  rewrite <- Hv in Hlo, Hhi.
  pose proof (nearestEven_spec num den Hden) as Hm.
  set (m := Double.nearestEven num den) in *.
  assert (H52 : IZR (2 ^ 52) = 4503599627370496) by reflexivity.
  assert (H53 : IZR (2 ^ 53) = 9007199254740992) by reflexivity.
  assert (Hml : (2 ^ 52 <= m)%Z).
  { apply Z.lt_pred_le, lt_IZR. unfold Z.pred. rewrite plus_IZR. lra. }
  assert (Hmu : (m <= 2 ^ 53)%Z).
  { apply Z.lt_succ_r, lt_IZR. rewrite succ_IZR. lra. }
  destruct (Z.eqb_spec m (2 ^ 53)) as [E|E].
  - exists (2 ^ 52)%Z, (e + 1 + s)%Z. split; [done | lia].
  - exists m, (e + s)%Z. split; [done | lia].
Qed.

(** An integer below [2^53] is a double. *)
Lemma ofN_exact (n : Z) :
  (0 < n < 2 ^ 53)%Z ->
  exists m e, Double.round n 1 0 = Double.Finite m e /\ (0 < m)%Z /\ Rvalue m e = IZR n.
Proof.
  intros [Hn Hlt]. unfold Double.round.
  assert (He : (Double.exponentOf n 1 <= 0)%Z).
  { unfold Double.exponentOf. change (Z.log2 1) with 0%Z.
    assert (Z.log2 n < 53)%Z by (apply Z.log2_lt_pow2; lia).
    destruct (Double.scaled n 1 (Z.log2 n - 0 - 52)) as [num den].
    destruct (_ <? _)%Z; lia. }
  set (e := Double.exponentOf n 1) in *.
  assert (Es : Double.scaled n 1 e = ((n * 2 ^ (- e))%Z, 1%Z)).
  { unfold Double.scaled. destruct (Z.leb_spec 0 e); [| done].
    replace e with 0%Z by lia. simpl. f_equal. lia. }
  rewrite Es. unfold Double.nearestEven.
  rewrite Z.mod_1_r, Z.div_1_r. change (2 * 0 <? 1)%Z with true. cbv iota.
  assert (Hp : (0 < 2 ^ (- e))%Z) by (apply Z.pow_pos_nonneg; lia).
  assert (Hv : Rvalue (n * 2 ^ (- e)) (e + 0) = IZR n).
  { unfold Rvalue. rewrite mult_IZR, IZR_two_pow by lia.
    rewrite Z.add_0_r, two_pow_opp. pose proof (two_pow_pos e). field. lra. }
  destruct (Z.eqb_spec (n * 2 ^ (- e)) (2 ^ 53)) as [E|E].
  - exists (2 ^ 52)%Z, (e + 1 + 0)%Z. split; [done |]. split; [done |].
    rewrite <- Hv, E. unfold Rvalue.
    replace (e + 1 + 0)%Z with (1 + (e + 0))%Z by lia.
    rewrite (two_pow_add 1 (e + 0)). change (powerRZ 2 1) with (2 * 1).
    replace (IZR (2 ^ 53)) with (2 * IZR (2 ^ 52)) by (simpl; lra). ring.
  - exists (n * 2 ^ (- e))%Z, (e + 0)%Z. split; [done |]. split; [nia | exact Hv].
Qed.

Lemma hundred_exact : Double.ofN 100 = Double.Finite 7036874417766400 (-46).
Proof. reflexivity. Qed.

Lemma Rvalue_hundred : Rvalue 7036874417766400 (-46) = 100.
Proof.
  unfold Rvalue. change (-46)%Z with (- (46))%Z.
  rewrite two_pow_opp, <- IZR_two_pow by lia.
  replace (IZR (2 ^ 46)) with 70368744177664 by reflexivity. lra.
Qed.

Lemma Rvalue_mul (a ea b eb : Z) :
  Rvalue a ea * Rvalue b eb = IZR (a * b) / IZR 1 * powerRZ 2 (ea + eb).
Proof. unfold Rvalue. rewrite mult_IZR, two_pow_add. field. Qed.

Lemma Rvalue_div (a ea b eb : Z) :
  (0 < b)%Z -> Rvalue a ea / Rvalue b eb = IZR a / IZR b * powerRZ 2 (ea - eb).
Proof.
  intros Hb. unfold Rvalue. replace (ea - eb)%Z with (ea + - eb)%Z by lia.
  rewrite two_pow_add, two_pow_opp. pose proof (two_pow_pos eb). apply IZR_lt in Hb.
  field. lra.
Qed.

(** The percentage of a positive count is a finite double within
    [20001 / 2^53] hundredths of the exact percentage. *)
Lemma percentage_error (c t : Z) :
  (0 < c <= t)%Z -> (t < 2 ^ 53)%Z ->
  exists m e,
    percentage (Z.to_N c) (Z.to_N t) = Double.Finite m e
    /\ (0 < m)%Z
    /\ - (20001 * ulp) <= 100 * Rvalue m e - 10000 * IZR c / IZR t <= 20001 * ulp.
Proof.
  intros [Hc Hct] Ht. unfold percentage, Double.ofN.
  destruct (N.eqb_spec (Z.to_N c) 0) as [E|_]; [lia |].
  destruct (N.eqb_spec (Z.to_N t) 0) as [E|_]; [lia |].
  rewrite !Z2N.id by lia.
  destruct (ofN_exact c ltac:(lia)) as (a & ea & -> & Ha & Hva).
  destruct (ofN_exact t ltac:(lia)) as (b & eb & -> & Hb & Hvb).
  change (if (100 =? 0)%N then Double.zero else Double.round (Z.of_N 100) 1 0)
    with (Double.ofN 100).
  rewrite hundred_exact. unfold Double.div.
  destruct (Z.eqb_spec b 0) as [E|_]; [lia |].
  destruct (Z.eqb_spec a 0) as [E|_]; [lia |].
  destruct (round_spec a b (ea - eb) Ha Hb) as (m1 & e1 & -> & Hm1 & H1).
  rewrite <- Rvalue_div, Hva, Hvb in H1 by done.
  unfold Double.mul.
  destruct (Z.eqb_spec m1 0) as [E|_]; [lia |]. simpl orb. cbv iota.
  destruct (round_spec (m1 * 7036874417766400) 1 (e1 + -46) ltac:(lia) ltac:(lia))
    as (m2 & e2 & -> & Hm2 & H2).
  rewrite <- Rvalue_mul, Rvalue_hundred in H2.
  exists m2, e2. split; [done |]. split; [done |].
  assert (Hq : 0 < IZR c / IZR t <= 1).
  { apply IZR_lt in Hc. apply IZR_le in Hct.
    assert (0 < IZR t) by lra. split.
    - apply Rdiv_lt_0_compat; lra.
    - apply Rmult_le_reg_r with (IZR t); [lra |].
      replace (IZR c / IZR t * IZR t) with (IZR c) by (field; lra). lra. }
  set (q := IZR c / IZR t) in *. set (v1 := Rvalue m1 e1) in *.
  set (v2 := Rvalue m2 e2) in *.
  replace (10000 * IZR c / IZR t) with (10000 * q)
    by (unfold q; field; apply IZR_lt in Hc, Ht; apply IZR_le in Hct; lra).
  assert (Hu : ulp = / 9007199254740992) by reflexivity.
  assert (Hu0 : 0 < ulp) by (rewrite Hu; lra).
  assert (Hu1 : ulp <= / 1000000) by (rewrite Hu; lra).
  nra.
Qed.

(** [hundredths] is the floor of a hundred times the value, plus a half. *)
Lemma hundredths_spec (m e : Z) :
  IZR (Double.hundredths m e) <= 100 * Rvalue m e + 1 / 2 < IZR (Double.hundredths m e) + 1.
Proof.
  unfold Double.hundredths.
  destruct (Double.scaled (100 * m) 1 (- e)) as [num den] eqn:Es.
  destruct (scaled_spec (100 * m) 1 (- e) num den ltac:(lia) Es) as [Hden Hv].
  rewrite Z.opp_involutive, mult_IZR in Hv.
  replace (100 * Rvalue m e) with (IZR num / IZR den)
    by (rewrite Hv; unfold Rvalue; field).
  set (k := ((2 * num + den) / (2 * den))%Z).
  assert (Hk : (2 * den * k <= 2 * num + den < 2 * den * (k + 1))%Z).
  { pose proof (Z.div_mod (2 * num + den) (2 * den) ltac:(lia)).
    pose proof (Z.mod_pos_bound (2 * num + den) (2 * den) ltac:(lia)).
    fold k in H. nia. }
  destruct Hk as [Hlo Hhi]. apply IZR_le in Hlo. apply IZR_lt in Hhi, Hden.
  rewrite ?plus_IZR, ?mult_IZR, ?plus_IZR in Hlo, Hhi.
  split.
  - apply Rmult_le_reg_r with (2 * IZR den); [lra |].
    replace ((IZR num / IZR den + 1 / 2) * (2 * IZR den)) with (2 * IZR num + IZR den)
      by (field; lra).
    nra.
  - apply Rmult_lt_reg_r with (2 * IZR den); [lra |].
    replace ((IZR num / IZR den + 1 / 2) * (2 * IZR den)) with (2 * IZR num + IZR den)
      by (field; lra).
    rewrite plus_IZR in Hhi. nra.
Qed.

Lemma ofN_positive (n : N) :
  (0 < n)%N -> exists m e, Double.ofN n = Double.Finite m e /\ (0 < m)%Z.
Proof.
  intros Hn. unfold Double.ofN. destruct (N.eqb_spec n 0%N) as [E|_]; [lia |].
  destruct (round_spec (Z.of_N n) 1 0 ltac:(lia) ltac:(lia)) as (m & e & Hr & Hm & _).
  eauto.
Qed.

(** What [toFixed(2)] shows of a percentage: the exact percentage rounded
    half up, or the hundredth below when the exact percentage is halfway. *)
Lemma percentage_hundredths (c t : Z) :
  (0 <= c <= t)%Z -> (0 < t <= 10 ^ 11)%Z ->
  exists m e,
    percentage (Z.to_N c) (Z.to_N t) = Double.Finite m e
    /\ (Double.hundredths m e = roundHalfUp2 c t
        \/ (halfway c t /\ Double.hundredths m e = roundHalfUp2 c t - 1)%Z).
Proof.
  intros [Hc Hct] [Ht Hmax].
  destruct (Z.eq_dec c 0%Z) as [->|Hc0].
  { exists 0%Z, 0%Z. split.
    - destruct (ofN_positive (Z.to_N t) ltac:(lia)) as (b & eb & Hb & Hpos).
      unfold percentage. rewrite Hb. change (Double.ofN (Z.to_N 0)) with Double.zero.
      unfold Double.zero, Double.div.
      destruct (Z.eqb_spec b 0%Z); [lia | reflexivity].
    - left. unfold roundHalfUp2. change (Double.hundredths 0 0) with 0%Z.
      symmetry. apply Z.div_small. lia. }
  destruct (percentage_error c t ltac:(lia) ltac:(lia)) as (m & e & Hp & Hm & Herr).
  exists m, e. split; [exact Hp |].
  pose proof (hundredths_spec m e) as Hn.
  set (n := Double.hundredths m e) in *. set (x := 100 * Rvalue m e) in *.
  unfold roundHalfUp2, halfway.
  pose proof (Z.div_mod (20000 * c + t) (2 * t) ltac:(lia)) as Hdm.
  pose proof (Z.mod_pos_bound (20000 * c + t) (2 * t) ltac:(lia)) as Hrho.
  set (r := ((20000 * c + t) / (2 * t))%Z) in *.
  set (rho := ((20000 * c + t) mod (2 * t))%Z) in *.
  assert (Hu : ulp = / 9007199254740992) by reflexivity.
  assert (Ht' : 0 < IZR t <= 100000000000).
  { split; [apply IZR_lt; lia | apply IZR_le in Hmax; exact Hmax]. }
  set (y := 10000 * IZR c / IZR t + 1 / 2) in *.
  assert (Hy : 2 * IZR t * y = 2 * IZR t * IZR r + IZR rho).
  { unfold y. apply (f_equal IZR) in Hdm.
    rewrite !plus_IZR, !mult_IZR in Hdm. field_simplify; [| lra]. lra. }
  assert (Hrho' : 0 <= IZR rho < 2 * IZR t).
  { destruct Hrho as [H1 H2]. apply IZR_le in H1. apply IZR_lt in H2.
    rewrite mult_IZR in H2. lra. }
  assert (Hd : - (3 / 1000000000000) < x + 1 / 2 - y < 3 / 1000000000000).
  { unfold y. rewrite Hu in Herr. lra. }
  destruct (Z.eq_dec rho 0%Z) as [E0|E0].
  - rewrite E0 in Hy. assert (y = IZR r) by nra.
    assert (n <= r)%Z by (apply Z.lt_succ_r, lt_IZR; rewrite succ_IZR; lra).
    assert (r - 1 <= n)%Z by (apply Z.lt_succ_r, lt_IZR; rewrite succ_IZR, minus_IZR; lra).
    destruct (Z.eq_dec n r); [by left | right; split; [done | lia]].
  - left.
    assert (H1 : 1 <= IZR rho) by (apply IZR_le; lia).
    assert (H2 : IZR rho <= 2 * IZR t - 1).
    { destruct Hrho as [_ H2]. assert (H3 : (rho <= 2 * t - 1)%Z) by lia.
      apply IZR_le in H3. rewrite minus_IZR, mult_IZR in H3. exact H3. }
    assert (Hlo : IZR r + 4 / 1000000000000 <= y) by nra.
    assert (Hhi : y <= IZR r + 1 - 4 / 1000000000000) by nra.
    assert (n <= r)%Z by (apply Z.lt_succ_r, lt_IZR; rewrite succ_IZR; lra).
    assert (r <= n)%Z by (apply Z.lt_succ_r, lt_IZR; rewrite succ_IZR; lra).
    lia.
Qed.

End DoubleFacts.

(** ** database.js: statistics *)

Lemma countLeads_all (db : Pg.Database) :
  Pg.countLeads (λ _, true) db = N.of_nat (length (Pg.leads db)).
Proof.
  unfold Pg.countLeads. f_equal. f_equal.
  induction (Pg.leads db) as [|x l IH]; simpl; [done | by rewrite IH].
Qed.

Lemma countLeads_le (keep : Pg.Leads.row -> bool) (db : Pg.Database) :
  (Pg.countLeads keep db <= Pg.countLeads (λ _, true) db)%N.
Proof.
  rewrite countLeads_all. unfold Pg.countLeads.
  pose proof (List.filter_length_le keep (Pg.leads db)). lia.
Qed.

(** C4, as the code has it. With no lead [conversionRate] is the number
    0. With [T > 0] leads of which [C] are converted it is a string, what
    [toFixed(2)] makes of the double [(C / T) * 100]: the two decimals of
    [round(C / T * 100, 2)], or, only where [C / T * 100] lies exactly
    halfway between two hundredths, possibly the hundredth below. (For up
    to [10^11] leads, half a unit of a double being too small to matter.) *)
Theorem getStatistics_conversionRate (db : Pg.Database) :
  exists stats,
    Database.getStatistics db = (Effects.Returned stats, db)
    /\ Database.totalLeads stats = N.of_nat (length (Pg.leads db))
    /\ Database.convertedLeads stats
       = N.of_nat (length (List.filter
                             (λ r, bool_decide (Pg.Leads.status r = Some "converted"))
                             (Pg.leads db)))
    /\ (Database.totalLeads stats = 0%N ->
        Database.conversionRate stats = JsValues.JNumber 0)
    /\ ((0 < Database.totalLeads stats <= 100000000000)%N ->
        let rounded := roundHalfUp2 (Z.of_N (Database.convertedLeads stats))
                         (Z.of_N (Database.totalLeads stats)) in
        Database.conversionRate stats = JsValues.JString (Double.fixed2 rounded)
        \/ (halfway (Z.of_N (Database.convertedLeads stats))
              (Z.of_N (Database.totalLeads stats))
            /\ Database.conversionRate stats
               = JsValues.JString (Double.fixed2 (rounded - 1)))).
Proof.
  eexists. split; [reflexivity |]. simpl.
  split; [apply countLeads_all |]. split; [reflexivity |].
  set (T := Pg.countLeads (λ _, true) db).
  set (C := Pg.countLeads (λ r, bool_decide (Pg.Leads.status r = Some "converted")) db).
  assert (HCT : (C <= T)%N) by apply countLeads_le.
  split.
  - intros ->. reflexivity.
  - intros [Hpos Hmax]. destruct (N.ltb_spec 0 T) as [_|]; [| lia].
    destruct (percentage_hundredths (Z.of_N C) (Z.of_N T) ltac:(lia) ltac:(simpl; lia))
      as (m & e & Hp & Hn).
    rewrite !N2Z.id in Hp. fold (percentage C T). rewrite Hp. simpl.
    destruct Hn as [->|[Hh ->]]; [by left | by right].
Qed.

(** C4 fails as worded: of 160 leads 23 are converted, 14.375 percent,
    which rounds to 14.38 whichever way a half goes; the double
    [(23 / 160) * 100] lies just below and [toFixed(2)] gives "14.37". *)
Lemma conversionRate_below_rounded :
  fst (Database.getStatistics (storeWithLeads 23 137))
  = Effects.Returned (Database.mkStatistics 160 23 0 0 (JsValues.JString "14.37"))
  /\ (23 * 100 * 1000 = 14375 * 160)%Z
  /\ roundHalfUp2 23 160 = 1438%Z
  /\ roundHalfEven2 23 160 = 1438%Z
  /\ Double.fixed2 1438 = "14.38"
  /\ JsValues.JString "14.37" <> JsValues.JString (Double.fixed2 (roundHalfUp2 23 160)).
Proof. repeat split; try (by vm_compute). Qed.

Example getStatistics_no_leads :
  fst (Database.getStatistics emptyStore)
  = Effects.Returned (Database.mkStatistics 0 0 0 0 (JsValues.JNumber 0)).
Proof. reflexivity. Qed.

Example getStatistics_one_in_three :
  fst (Database.getStatistics (storeWithLeads 1 2))
  = Effects.Returned (Database.mkStatistics 3 1 0 0 (JsValues.JString "33.33")).
Proof. by vm_compute. Qed.

Example getStatistics_all_converted :
  fst (Database.getStatistics (storeWithLeads 4 0))
  = Effects.Returned (Database.mkStatistics 4 4 0 0 (JsValues.JString "100.00")).
Proof. by vm_compute. Qed.

Example toFixed2_half_goes_up : Double.toFixed2 (percentage 1 32) = "3.13".
Proof. by vm_compute. Qed.

(** The model of the doubles against the machine's: the same significand
    and exponent for the percentage above. *)
Module Machine.
Import Uint63.

Example percentage_23_160_machine :
  FloatOps.Prim2SF
    (PrimFloat.mul (PrimFloat.div (PrimFloat.of_uint63 23%uint63) (PrimFloat.of_uint63 160%uint63))
       (PrimFloat.of_uint63 100%uint63))
  = SpecFloat.S754_finite false 8092405580431359 (-49)
  /\ percentage 23 160 = Double.Finite 8092405580431359 (-49).
Proof. split; by vm_compute. Qed.

Example percentage_1_3_machine :
  FloatOps.Prim2SF
    (PrimFloat.mul (PrimFloat.div (PrimFloat.of_uint63 1%uint63) (PrimFloat.of_uint63 3%uint63))
       (PrimFloat.of_uint63 100%uint63))
  = SpecFloat.S754_finite false 4691249611844266 (-47)
  /\ percentage 1 3 = Double.Finite 4691249611844266 (-47).
Proof. split; by vm_compute. Qed.

End Machine.

(** * More of the code *)

(** ** database.js: orders and leads *)

Lemma snoc_differs {A : Type} (l : list A) (x : A) : l ++ [x] <> l.
Proof.
  intros H. apply (f_equal length) in H. rewrite length_app in H. simpl in H. lia.
Qed.

(** [createOrder] step by step: the insert, and only after it the update
    of the lead. Either nothing is written and the call throws, or the
    order is at the end of the table, whatever becomes of the lead. *)
Lemma createOrder_run (env : Pg.Env) (k : Pg.uuid) (n : string) (ps : list Pg.Orders.item)
    (t : option Z) (s : option string) (db : Pg.Database) :
  let order := Pg.Orders.mk (Pg.pg_uuid env) k n ps t (Some "pending") s (Pg.pg_now env) in
  let result := Database.createOrder env k n ps t s db in
  Pg.chat_history (snd result) = Pg.chat_history db
  /\ ((snd result = db /\ exists e, fst result = Effects.Thrown e)
      \/ (Pg.orders (snd result) = Pg.orders db ++ [order]
          /\ k ∈ Pg.Leads.id <$> Pg.leads db
          /\ forall r, fst result = Effects.Returned r -> r = order)).
Proof.
  intros order result. subst result order.
  unfold Database.createOrder, Database.updateLead, Effects.bind, Effects.ret.
  unfold Pg.insertOrder. simpl.
  destruct (bool_decide (Pg.pg_uuid env ∈ _)); simpl; [split; [done | left; eauto] |].
  destruct (decide (k ∈ Pg.Leads.id <$> Pg.leads db)) as [Hfk|Hfk].
  2: { rewrite (bool_decide_eq_false_2 _ Hfk). simpl. split; [done | left; eauto]. }
  rewrite (bool_decide_eq_true_2 _ Hfk). simpl.
  unfold Pg.updateLeadById. simpl.
  destruct (negb _); simpl; [split; [done | right; by split_and!] |].
  destruct (Pg.single _); simpl; (split; [done | right; split_and!; [done.. |]]).
  - by intros r [= <-].
  - discriminate.
Qed.

(** X2. [createOrder] stores the order before it converts the lead.
    Whatever the arguments and the store, the turns stay as they are and
    the orders are as they were or have the new order, pending, at
    their end. With the orders as they were the whole store is as it
    was and the call has thrown: so the leads change only when the order
    is stored, and an order for a lead that is not there is not stored.
    A call that returns, returns the order it stored. *)
Theorem createOrder_stores_before_converting (env : Pg.Env) (leadId : Pg.uuid)
    (phoneNumber : string) (products : list Pg.Orders.item) (totalAmount : option Z)
    (notes : option string) (db : Pg.Database) :
  let order := Pg.Orders.mk (Pg.pg_uuid env) leadId phoneNumber products totalAmount
                 (Some "pending") notes (Pg.pg_now env) in
  let result := Database.createOrder env leadId phoneNumber products totalAmount notes db in
  let db' := snd result in
  Pg.chat_history db' = Pg.chat_history db
  /\ (Pg.orders db' = Pg.orders db \/ Pg.orders db' = Pg.orders db ++ [order])
  /\ (Pg.orders db' = Pg.orders db -> db' = db /\ exists e, fst result = Effects.Thrown e)
  /\ (Pg.leads db' <> Pg.leads db -> Pg.orders db' = Pg.orders db ++ [order])
  /\ (leadId ∉ Pg.Leads.id <$> Pg.leads db ->
      db' = db /\ exists e, fst result = Effects.Thrown e)
  /\ (forall r, fst result = Effects.Returned r ->
        r = order /\ Pg.orders db' = Pg.orders db ++ [order]).
Proof.
  intros order result db'.
  destruct (createOrder_run env leadId phoneNumber products totalAmount notes db)
    as [Hchat [[Hsame [e He]] | (Hnew & Hin & Hret)]];
    fold order in Hchat; fold result in Hchat; fold db' in Hchat.
  - fold result in Hsame, He. fold db' in Hsame. rewrite Hsame. split_and!; [done | by left | by eauto | done | by eauto |].
    intros r Hr. rewrite He in Hr. discriminate.
  - fold order in Hnew, Hret. fold result in Hnew, Hret. fold db' in Hnew.
    split_and!; [done | by right | | done | done | ].
    + intros Hsame. rewrite Hnew in Hsame. by apply snoc_differs in Hsame.
    + intros r Hr. split; [by apply Hret | done].
Qed.

(** X3. What [updateLead] leaves alone, whatever the updates and whether
    it returns or throws: every lead with another id; of the leads with
    the given id, every column the updates leave out, [updated_at]
    apart; the turns and the orders. [updated_at] stays or becomes the
    instant of the call, and of the lead returned it is that instant
    even when the updates carry an [updated_at] of their own. *)
Theorem updateLead_frame (env : Pg.Env) (leadId : Pg.uuid) (updates : Pg.Leads.patch)
    (db : Pg.Database) :
  let result := Database.updateLead env leadId updates db in
  let db' := snd result in
  Forall2 (λ r r',
      (Pg.Leads.id r <> leadId -> r' = r)
      /\ (Pg.Leads.set_customer_name updates = None ->
          Pg.Leads.customer_name r' = Pg.Leads.customer_name r)
      /\ (Pg.Leads.set_city updates = None -> Pg.Leads.city r' = Pg.Leads.city r)
      /\ (Pg.Leads.set_status updates = None -> Pg.Leads.status r' = Pg.Leads.status r)
      /\ (Pg.Leads.set_needs_human_agent updates = None ->
          Pg.Leads.needs_human_agent r' = Pg.Leads.needs_human_agent r)
      /\ (Pg.Leads.set_last_message_at updates = None ->
          Pg.Leads.last_message_at r' = Pg.Leads.last_message_at r)
      /\ (Pg.Leads.updated_at r' = Pg.Leads.updated_at r
          \/ Pg.Leads.updated_at r' = Pg.date1 env))
    (Pg.leads db) (Pg.leads db')
  /\ Pg.chat_history db' = Pg.chat_history db
  /\ Pg.orders db' = Pg.orders db
  /\ forall lead, fst result = Effects.Returned lead ->
       lead ∈ Pg.leads db' /\ Pg.Leads.updated_at lead = Pg.date1 env.
Proof.
  intros result db'. subst result db'.
  unfold Database.updateLead, Pg.updateLeadById. simpl.
  set (p := Pg.Leads.mkPatch _ _ _ _ _ _).
  set (same := λ r r' : Pg.Leads.row, _).
  assert (Hid : Forall2 same (Pg.leads db) (Pg.leads db)).
  { apply Forall_Forall2_diag, Forall_forall. intros r _. unfold same.
    split_and!; auto. }
  destruct (negb _); [by split_and! |].
  destruct (Pg.single _) as [lead|e] eqn:Hone; [| by split_and!]. simpl.
  split_and!; [| done | done |].
  - apply Forall2_fmap_r, Forall_Forall2_diag, Forall_forall.
    intros r _. unfold same. simpl. destruct (decide (Pg.Leads.id r = leadId)) as [E|E].
    + rewrite (bool_decide_eq_true_2 _ E). subst p. simpl.
      split_and!; try (by intros ->); [done | by right].
    + rewrite (bool_decide_eq_false_2 _ E). split_and!; auto.
  - intros lead' [= <-].
    assert (Hin : lead ∈ Pg.Leads.apply p <$> filter (λ r, Pg.Leads.id r = leadId)
                                                 (Pg.leads db)).
    { destruct (Pg.Leads.apply p <$> filter _ (Pg.leads db)) as [|one [|? ?]];
        simpl in Hone; try discriminate.
      injection Hone as ->. apply list_elem_of_here. }
    apply list_elem_of_fmap in Hin as (r & -> & Hr).
    apply list_elem_of_filter in Hr as [Hk Hr]. split; [| done].
    apply list_elem_of_fmap. exists r. split; [| done].
    by rewrite (bool_decide_eq_true_2 _ Hk).
Qed.

(** X4. [updateLead] with a status outside new, contacted, qualified,
    converted and lost, given for a lead that is there, throws the check
    violation and leaves the store as it was. *)
Theorem updateLead_rejects_status (env : Pg.Env) (leadId : Pg.uuid) (updates : Pg.Leads.patch)
    (status : string) (db : Pg.Database) :
  Pg.Leads.set_status updates = Some (Some status) ->
  status ∉ Pg.Leads.statuses ->
  leadId ∈ Pg.Leads.id <$> Pg.leads db ->
  Database.updateLead env leadId updates db
  = (Effects.Thrown (Pg.CheckViolation "leads_status_check"), db).
Proof.
  intros Hs Hbad Hin. unfold Database.updateLead, Pg.updateLeadById.
  apply list_elem_of_fmap in Hin as (lead & -> & Hin).
  assert (Hhit : lead ∈ filter (λ r, Pg.Leads.id r = Pg.Leads.id lead) (Pg.leads db))
    by (by apply list_elem_of_filter).
  replace (forallb Pg.Leads.check _) with false; [done |].
  symmetry. apply not_true_is_false. rewrite forallb_forall. intros Hall.
  specialize (Hall _ (proj1 (list_elem_of_In _ _) (list_elem_of_fmap_2 _ _ _ Hhit))).
  unfold Pg.Leads.check, Pg.Leads.apply in Hall. simpl in Hall. rewrite Hs in Hall.
  simpl in Hall. rewrite !orb_true_iff, !String.eqb_eq in Hall.
  apply Hbad. unfold Pg.Leads.statuses. rewrite !elem_of_cons.
  destruct Hall as [?|[?|[?|[?|[?|?]]]]]; auto 10. discriminate.
Qed.

Lemma updateLead_rejects_status_witness :
  Database.updateLead nextMessage 7%N
    (Pg.Leads.mkPatch None None (Some (Some "won")) None None None) storeWithLostLead
  = (Effects.Thrown (Pg.CheckViolation "leads_status_check"), storeWithLostLead).
Proof.
  apply (updateLead_rejects_status nextMessage 7%N _ "won" storeWithLostLead).
  - reflexivity.
  - unfold Pg.Leads.statuses. rewrite !not_elem_of_cons. repeat split; try discriminate.
    apply not_elem_of_nil.
  - simpl. apply list_elem_of_here.
Defined.

(** ** database.js: the handoff flag *)





(** ** database.js: turns, orders and leads read back *)

#[local] Existing Instance StoreRequests.newestFirst_dec.
#[local] Existing Instance StoreRequests.latestFirst_dec.

#[local] Instance newestFirst_total : Total StoreRequests.newestFirst.
Proof. intros a b. unfold StoreRequests.newestFirst. lia. Qed.

#[local] Instance newestFirst_trans : Transitive StoreRequests.newestFirst.
Proof. intros a b c. unfold StoreRequests.newestFirst. lia. Qed.

#[local] Instance latestFirst_total : Total StoreRequests.latestFirst.
Proof. intros a b. unfold StoreRequests.latestFirst. lia. Qed.

#[local] Instance latestFirst_trans : Transitive StoreRequests.latestFirst.
Proof. intros a b c. unfold StoreRequests.latestFirst. lia. Qed.

Lemma filter_phone_after_delete (n m : string) (l : list Pg.ChatHistory.row) :
  filter (λ r, Pg.ChatHistory.phone_number r = m)
    (filter (λ r, Pg.ChatHistory.phone_number r <> n) l)
  = if decide (m = n) then [] else filter (λ r, Pg.ChatHistory.phone_number r = m) l.
Proof.
  induction l as [|x l IH]; [by destruct (decide _) |].
  destruct (decide (Pg.ChatHistory.phone_number x = n)) as [E|E].
  - rewrite (filter_cons_False (λ r, Pg.ChatHistory.phone_number r <> n)) by auto.
    rewrite IH. destruct (decide (m = n)) as [->|Hmn]; [done |].
    rewrite (filter_cons_False (λ r, Pg.ChatHistory.phone_number r = m)) by congruence.
    done.
  - rewrite (filter_cons_True (λ r, Pg.ChatHistory.phone_number r <> n)) by auto.
    destruct (decide (Pg.ChatHistory.phone_number x = m)) as [F|F].
    + rewrite !(filter_cons_True (λ r, Pg.ChatHistory.phone_number r = m)) by done.
      rewrite IH. destruct (decide (m = n)); [congruence | done].
    + rewrite !(filter_cons_False (λ r, Pg.ChatHistory.phone_number r = m)) by done.
      apply IH.
Qed.

(** X6. [clearChatHistory] rethrows the error of a request that fails.
    When the request gets through it returns, and in the store it leaves
    no turn is under the number: a reading of the history of the number
    that returns, returns no turn, whatever the limit. The turns of
    every other number are as before and in the same order, and so are
    the leads and the orders. *)
Theorem clearChatHistory_clears (phoneNumber : string) (db : Pg.Database) :
  (forall e, fst (DatabaseMore.clearChatHistory (Some e) phoneNumber db) = Effects.Thrown e)
  /\ exists db',
       DatabaseMore.clearChatHistory None phoneNumber db = (Effects.Returned tt, db')
       /\ filter (λ r, Pg.ChatHistory.phone_number r = phoneNumber) (Pg.chat_history db') = []
       /\ (forall limit rows db'',
             Database.getChatHistory phoneNumber limit db' = (Effects.Returned rows, db'') ->
             rows = [])
       /\ (forall other, other <> phoneNumber ->
             filter (λ r, Pg.ChatHistory.phone_number r = other) (Pg.chat_history db')
             = filter (λ r, Pg.ChatHistory.phone_number r = other) (Pg.chat_history db))
       /\ Pg.leads db' = Pg.leads db
       /\ Pg.orders db' = Pg.orders db.
Proof.
  split; [done |].
  eexists. split; [reflexivity |]. simpl.
  split_and!; [| | | done | done].
  - by rewrite filter_phone_after_delete, decide_True.
  - intros limit rows db''.
    unfold Database.getChatHistory, Pg.selectChat, Effects.gets. simpl.
    rewrite filter_phone_after_delete, decide_True by done.
    replace (Pg.orderByCreatedAt []) with (@nil Pg.ChatHistory.row) by reflexivity.
    rewrite take_nil. by intros [= <- _].
  - intros other Hne. by rewrite filter_phone_after_delete, decide_False.
Qed.





(** X8. [getOrders] rethrows the error of a request that fails. When the
    request gets through it leaves the store alone and returns exactly
    the orders of the phone number, each as often as it is stored, the
    newest first. *)
Theorem getOrders_newest_first (phoneNumber : string) (db : Pg.Database) :
  (forall e, fst (DatabaseMore.getOrders (Some e) phoneNumber db) = Effects.Thrown e)
  /\ exists rows,
       DatabaseMore.getOrders None phoneNumber db = (Effects.Returned rows, db)
       /\ rows ≡ₚ filter (λ r, Pg.Orders.phone_number r = phoneNumber) (Pg.orders db)
       /\ StronglySorted StoreRequests.newestFirst rows
       /\ (forall r, r ∈ rows <-> r ∈ Pg.orders db /\ Pg.Orders.phone_number r = phoneNumber).
Proof.
  split; [done |].
  eexists. split; [reflexivity |].
  assert (Hp : merge_sort StoreRequests.newestFirst
                 (filter (λ r, Pg.Orders.phone_number r = phoneNumber) (Pg.orders db))
               ≡ₚ filter (λ r, Pg.Orders.phone_number r = phoneNumber) (Pg.orders db))
    by apply merge_sort_Permutation.
  split; [exact Hp |].
  split; [apply (StronglySorted_merge_sort StoreRequests.newestFirst) |].
  intros r. rewrite Hp, list_elem_of_filter. tauto.
Qed.

Lemma keepsLead_spec (filters : StoreRequests.LeadFilters) (r : Pg.Leads.row) :
  DatabaseMore.keepsLead filters r = true
  <-> (forall s, StoreRequests.f_status filters = Some s -> s <> "" ->
                 Pg.Leads.status r = Some s)
      /\ (forall b, StoreRequests.f_needs_human_agent filters = Some b ->
                    Pg.Leads.needs_human_agent r = Some b).
Proof.
  unfold DatabaseMore.keepsLead. rewrite andb_true_iff.
  destruct (StoreRequests.f_status filters) as [s|],
    (StoreRequests.f_needs_human_agent filters) as [b|];
    rewrite ?orb_true_iff, ?bool_decide_eq_true, ?String.eqb_eq.
  - split.
    + intros [[->|Hs] Hb]; split; intros ? [= <-]; try done.
    + intros [Hs Hb]. split; [| by apply Hb].
      destruct (decide (s = "")); [by left | right; by apply Hs].
  - split.
    + intros [[->|Hs] _]; split; intros ? [= <-]; try done.
    + intros [Hs _]. split; [| done].
      destruct (decide (s = "")); [by left | right; by apply Hs].
  - split.
    + intros [_ Hb]. split; [done |]. by intros ? [= <-].
    + intros [_ Hb]. split; [done | by apply Hb].
  - split; [intros _; split; done | done].
Qed.

(** X9. [getLeads] rethrows the error of a request that fails. When the
    request gets through it leaves the store alone and returns, latest
    contact first, exactly the leads that pass the filters: a status
    filter that is not the empty string asks for that status, an empty
    one asks for nothing, and a [needs_human_agent] filter asks for that
    value, which a lead whose flag is NULL never has. *)
Theorem getLeads_filters (filters : StoreRequests.LeadFilters) (db : Pg.Database) :
  (forall e, fst (DatabaseMore.getLeads (Some e) filters db) = Effects.Thrown e)
  /\ exists rows,
       DatabaseMore.getLeads None filters db = (Effects.Returned rows, db)
       /\ StronglySorted StoreRequests.latestFirst rows
       /\ rows ⊆+ Pg.leads db
       /\ (forall r, r ∈ rows <->
             r ∈ Pg.leads db
             /\ (forall s, StoreRequests.f_status filters = Some s -> s <> "" ->
                           Pg.Leads.status r = Some s)
             /\ (forall b, StoreRequests.f_needs_human_agent filters = Some b ->
                           Pg.Leads.needs_human_agent r = Some b)).
Proof.
  split; [done |].
  eexists. split; [reflexivity |].
  assert (Hp : merge_sort StoreRequests.latestFirst
                 (List.filter (DatabaseMore.keepsLead filters) (Pg.leads db))
               ≡ₚ List.filter (DatabaseMore.keepsLead filters) (Pg.leads db))
    by apply merge_sort_Permutation.
  split; [apply (StronglySorted_merge_sort StoreRequests.latestFirst) |].
  split; [rewrite Hp; apply sublist_submseteq, filter_sublist |].
  intros r. rewrite Hp, list_elem_of_In, filter_In, <- list_elem_of_In, keepsLead_spec.
  tauto.
Qed.

(** ** whatsapp.js: sending *)

Lemma sendMessage_not_ready (phoneNumber text : string) (w : Gateway.World) :
  Gateway.sock w && Gateway.isConnected w = false ->
  Gateway.sendMessage phoneNumber text w = (Effects.Thrown Gateway.notConnected, w).
Proof.
  intros H. unfold Gateway.sendMessage, Effects.tryCatch, Effects.bind, Effects.gets.
  by rewrite H.
Qed.

Lemma sendMessage_ready (phoneNumber text : string) (w : Gateway.World) :
  Gateway.sock w && Gateway.isConnected w = true ->
  Gateway.sendMessage phoneNumber text w
  = (match Gateway.network w (Gateway.wire w) (Gateway.Text phoneNumber text) with
     | Some e => Effects.Thrown e
     | None => Effects.Returned tt
     end,
     Gateway.setWire (Gateway.wire w ++ [Gateway.Text phoneNumber text]) w).
Proof.
  intros H. unfold Gateway.sendMessage, Effects.tryCatch, Effects.bind, Effects.gets.
  rewrite H. simpl. unfold Gateway.socketSend. by destruct (Gateway.network _ _ _).
Qed.

(** What a send can do to the world: put its one text on the wire, or
    nothing. *)
Lemma sendMessage_effect (phoneNumber text : string) (w : Gateway.World) :
  exists sent,
    snd (Gateway.sendMessage phoneNumber text w) = Gateway.setWire (Gateway.wire w ++ sent) w
    /\ (sent = [] \/ sent = [Gateway.Text phoneNumber text]).
Proof.
  destruct (Gateway.sock w && Gateway.isConnected w) eqn:H.
  - rewrite sendMessage_ready by done. eauto.
  - rewrite sendMessage_not_ready by done. exists []. rewrite app_nil_r.
    split; [by destruct w | by left].
Qed.



(** X11. [sendMessageWithTyping], not connected, throws "WhatsApp is not
    connected" and hands the socket nothing. Connected, it hands the
    socket the composing presence, then the text, then the available
    presence, and stops at the first that fails: it returns exactly when
    all three went through, and the available presence is never asked for
    unless the text went through. *)
Theorem sendMessageWithTyping_steps (phoneNumber text : string) (w : Gateway.World) :
  let composing := Gateway.Presence "composing" phoneNumber in
  let message := Gateway.Text phoneNumber text in
  let available := Gateway.Presence "available" phoneNumber in
  let fails l o := is_Some (Gateway.network w l o) in
  exists outcome sent,
    Gateway.sendMessageWithTyping phoneNumber text w
    = (outcome, Gateway.setWire (Gateway.wire w ++ sent) w)
    /\ (Gateway.sock w && Gateway.isConnected w = false ->
        outcome = Effects.Thrown Gateway.notConnected /\ sent = [])
    /\ (Gateway.sock w && Gateway.isConnected w = true ->
        (sent = [composing] /\ fails (Gateway.wire w) composing
         /\ outcome = match Gateway.network w (Gateway.wire w) composing with
                      | Some e => Effects.Thrown e | None => Effects.Returned tt end)
        \/ (sent = [composing; message] /\ ~ fails (Gateway.wire w) composing
            /\ fails (Gateway.wire w ++ [composing]) message
            /\ outcome = match Gateway.network w (Gateway.wire w ++ [composing]) message with
                         | Some e => Effects.Thrown e | None => Effects.Returned tt end)
        \/ (sent = [composing; message; available] /\ ~ fails (Gateway.wire w) composing
            /\ ~ fails (Gateway.wire w ++ [composing]) message
            /\ outcome = match Gateway.network w (Gateway.wire w ++ [composing; message])
                                 available with
                         | Some e => Effects.Thrown e | None => Effects.Returned tt end)).
Proof.
  intros composing message available fails.
  unfold Gateway.sendMessageWithTyping, Effects.tryCatch, Effects.bind, Effects.gets.
  destruct (Gateway.sock w && Gateway.isConnected w) eqn:Hr; simpl.
  2: { exists (Effects.Thrown Gateway.notConnected), []. rewrite app_nil_r.
       split; [by destruct w |]. split; [done | discriminate]. }
  unfold Gateway.socketSend at 1. fold composing.
  destruct (Gateway.network w (Gateway.wire w) composing) as [e1|] eqn:H1; simpl.
  { eexists _, [composing]. split; [reflexivity |]. split; [discriminate |].
    intros _. left. unfold fails. rewrite H1. eauto. }
  unfold Gateway.socketSend at 1. simpl. fold message.
  destruct (Gateway.network w (Gateway.wire w ++ [composing]) message) as [e2|] eqn:H2; simpl.
  { eexists _, [composing; message]. rewrite <- app_assoc.
    split; [reflexivity |]. split; [discriminate |].
    intros _. right. left. unfold fails. rewrite H1, H2.
    repeat split; eauto; try (by intros [? ?]). }
  unfold Gateway.socketSend. simpl. fold available. rewrite <- !app_assoc. simpl.
  exists (match Gateway.network w (Gateway.wire w ++ [composing; message]) available with
          | Some e => Effects.Thrown e | None => Effects.Returned tt end),
    [composing; message; available].
  split.
  - destruct (Gateway.network w (Gateway.wire w ++ [composing; message]) available);
      reflexivity.
  - split; [discriminate |]. intros _. right. right. unfold fails. rewrite H1, H2.
    repeat split; try (by intros [? ?]).
Qed.

(** ** whatsapp.js: handling a message *)

Lemma keeps_ret {W E A : Type} (R : relation W) `{!Reflexive R} (a : A) :
  keeps R (Effects.ret (E := E) a).
Proof. intros w. simpl. reflexivity. Qed.

(** A step that keeps [R], then one that keeps [S]. *)
Lemma keeps_bind {W E A B : Type} (R S T : relation W) `{!Reflexive S}
    (c : Effects.M W E A) (k : A -> Effects.M W E B) :
  (forall x y z, R x y -> S y z -> T x z) ->
  keeps R c -> (forall a, keeps S (k a)) -> keeps T (Effects.bind c k).
Proof.
  intros Hcomp Hc Hk w. unfold Effects.bind. specialize (Hc w).
  destruct (c w) as [[a|e] w1]; simpl in *.
  - eapply Hcomp; [exact Hc | apply Hk].
  - eapply Hcomp; [exact Hc | reflexivity].
Qed.

Lemma keeps_tryCatch {W E A : Type} (R S T : relation W) `{!Reflexive S}
    (c : Effects.M W E A) (h : E -> Effects.M W E A) :
  (forall x y z, R x y -> S y z -> T x z) ->
  keeps R c -> (forall e, keeps S (h e)) -> keeps T (Effects.tryCatch c h).
Proof.
  intros Hcomp Hc Hh w. unfold Effects.tryCatch. specialize (Hc w).
  destruct (c w) as [[a|e] w1]; simpl in *.
  - eapply Hcomp; [exact Hc | reflexivity].
  - eapply Hcomp; [exact Hc | apply Hh].
Qed.

(** The [try] block of [handleIncomingMessage], step by step: what every
    read and write of the store and every call of the responder keep,
    and a send after them keeps, the block keeps. *)
Lemma handle_keeps (R S : relation Gateway.World) `{!Reflexive R} `{!Reflexive S}
    (envs : Gateway.Envs) (message : Gateway.WAMessage) :
  (forall x y z, R x y -> R y z -> R x z) ->
  (forall x y z, R x y -> S y z -> S x z) ->
  (forall env n, keeps R (Gateway.liftDb (Database.getOrCreateLead env n))) ->
  (forall env k n r m d, keeps R (Gateway.liftDb (Database.saveChatMessage env k n r m d))) ->
  (forall n l, keeps R (Gateway.liftDb (Database.getChatHistory n l))) ->
  (forall t h, keeps R (Gateway.liftAi (Ai.generateResponse t h))) ->
  (forall env n, keeps R (Gateway.liftDb (DatabaseMore.markForHumanAgent env n))) ->
  (forall env k p, keeps R (Gateway.liftDb (Database.updateLead env k p))) ->
  (forall t, keeps S (Gateway.liftWa (Gateway.sendMessage (Gateway.remoteJid message) t))) ->
  keeps S (Gateway.handle envs message).
Proof.
  intros HR HS Hlead Hsave Hread Hai Hmark Hupd Hsend.
  unfold Gateway.handle.
  destruct (_ || _); [by apply keeps_ret |].
  destruct (Gateway.fromMe message); [by apply keeps_ret |].
  destruct (String.eqb _ _); [by apply keeps_ret |].
  apply (keeps_bind R S S); [done.. |]. intros lead.
  apply (keeps_bind R S S); [done.. |]. intros _.
  destruct (bool_decide _); [done |].
  apply (keeps_bind R S S); [done.. |]. intros chatHistory.
  apply (keeps_bind R S S); [done.. |]. intros response.
  apply (keeps_bind R S S); [done | |].
  { destruct (bool_decide _); [| by apply keeps_ret].
    apply (keeps_bind R R R); [done.. |]. intros _. by apply keeps_ret. }
  intros _.
  apply (keeps_bind R S S); [done | |].
  { destruct (Ai.extractedInfo _) as [info|]; [| by apply keeps_ret].
    destruct (bool_decide _); [by apply keeps_ret |].
    apply (keeps_bind R R R); [done.. |]. intros _. by apply keeps_ret. }
  intros _.
  apply (keeps_bind R S S); [done.. |]. intros _. done.
Qed.

(** The handler with its [catch]: a send more. *)
Lemma handleIncomingMessage_keeps (R S T : relation Gateway.World)
    `{!Reflexive R} `{!Reflexive S} (envs : Gateway.Envs) (message : Gateway.WAMessage) :
  (forall x y z, R x y -> R y z -> R x z) ->
  (forall x y z, R x y -> S y z -> S x z) ->
  (forall x y z, S x y -> S y z -> T x z) ->
  (forall env n, keeps R (Gateway.liftDb (Database.getOrCreateLead env n))) ->
  (forall env k n r m d, keeps R (Gateway.liftDb (Database.saveChatMessage env k n r m d))) ->
  (forall n l, keeps R (Gateway.liftDb (Database.getChatHistory n l))) ->
  (forall t h, keeps R (Gateway.liftAi (Ai.generateResponse t h))) ->
  (forall env n, keeps R (Gateway.liftDb (DatabaseMore.markForHumanAgent env n))) ->
  (forall env k p, keeps R (Gateway.liftDb (Database.updateLead env k p))) ->
  (forall t, keeps S (Gateway.liftWa (Gateway.sendMessage (Gateway.remoteJid message) t))) ->
  keeps T (Gateway.handleIncomingMessage envs message).
Proof.
  intros HR HS HT Hlead Hsave Hread Hai Hmark Hupd Hsend.
  unfold Gateway.handleIncomingMessage.
  apply (keeps_tryCatch S S T); [done | by apply (handle_keeps R S) |].
  intros error w. unfold Effects.tryCatch.
  specialize (Hsend Gateway.apology w).
  by destruct (Gateway.liftWa _ w) as [[[]|e] w1].
Qed.

Lemma handleIncomingMessage_returns (envs : Gateway.Envs) (message : Gateway.WAMessage)
    (w : Gateway.World) :
  fst (Gateway.handleIncomingMessage envs message w) = Effects.Returned tt.
Proof.
  unfold Gateway.handleIncomingMessage, Effects.tryCatch.
  destruct (Gateway.handle envs message w) as [[[]|e] w1]; [done |].
  by destruct (Gateway.liftWa _ w1) as [[[]|e'] w2].
Qed.

Lemma handle_ignored (envs : Gateway.Envs) (message : Gateway.WAMessage)
    (w : Gateway.World) :
  ignored message = true ->
  Gateway.handle envs message w = (Effects.Returned tt, w).
Proof.
  unfold ignored, Gateway.handle.
  destruct (JsString.includes _ _ || String.eqb _ _); [done |].
  destruct (Gateway.fromMe message); [done |].
  simpl. by intros ->.
Qed.

Lemma liftDb_run {A : Type} (c : Pg.Db A) (w : Gateway.World) :
  Gateway.liftDb c w
  = (match fst (c (Gateway.store w)) with
     | Effects.Returned a => Effects.Returned a
     | Effects.Thrown e => Effects.Thrown (Gateway.StoreFailure e)
     end,
     Gateway.setStore (snd (c (Gateway.store w))) w).
Proof. unfold Gateway.liftDb. by destruct (c _) as [[a|e] db]. Qed.

Lemma liftAi_run {A : Type} (c : Ai.Js A) (w : Gateway.World) :
  Gateway.liftAi c w
  = (match fst (c (Gateway.responder w)) with
     | Effects.Returned a => Effects.Returned a
     | Effects.Thrown e => Effects.Thrown (Gateway.JsFailure e)
     end,
     Gateway.setResponder (snd (c (Gateway.responder w))) w).
Proof. unfold Gateway.liftAi. by destruct (c _) as [[a|e] r]. Qed.

Lemma liftWa_run {A : Type} (c : Gateway.Wa A) (w : Gateway.World) :
  Gateway.liftWa c w
  = (match fst (c w) with
     | Effects.Returned a => Effects.Returned a
     | Effects.Thrown e => Effects.Thrown (Gateway.JsFailure e)
     end,
     snd (c w)).
Proof. unfold Gateway.liftWa. by destruct (c w) as [[a|e] w']. Qed.

#[local] Instance sends_reflexive (jid : string) (n : nat) : Reflexive (sends jid n).
Proof.
  intros w. repeat split. exists []. rewrite app_nil_r.
  repeat split; [simpl; lia | constructor].
Qed.

Lemma sends_then (jid : string) (n m : nat) (x y z : Gateway.World) :
  sends jid n x y -> sends jid m y z -> sends jid (n + m) x z.
Proof.
  intros (Hs1 & Hc1 & Hn1 & s1 & Hw1 & Hl1 & Hf1) (Hs2 & Hc2 & Hn2 & s2 & Hw2 & Hl2 & Hf2).
  repeat split; [congruence.. |].
  exists (s1 ++ s2). rewrite Hw2, Hw1, <- app_assoc, length_app.
  repeat split; [lia | by apply Forall_app].
Qed.

Lemma liftDb_sends {A : Type} (jid : string) (c : Pg.Db A) :
  keeps (sends jid 0) (Gateway.liftDb c).
Proof. intros w. rewrite liftDb_run. simpl. apply (sends_reflexive jid 0 w). Qed.

Lemma liftAi_sends {A : Type} (jid : string) (c : Ai.Js A) :
  keeps (sends jid 0) (Gateway.liftAi c).
Proof. intros w. rewrite liftAi_run. simpl. apply (sends_reflexive jid 0 w). Qed.

Lemma sendMessage_sends (jid text : string) :
  keeps (sends jid 1) (Gateway.liftWa (Gateway.sendMessage jid text)).
Proof.
  intros w. rewrite liftWa_run. simpl.
  destruct (sendMessage_effect jid text w) as (sent & -> & Hsent).
  repeat split. exists sent. split; [done |].
  destruct Hsent as [-> | ->]; simpl; split; try lia; repeat constructor. by exists text.
Qed.

(** X12. [handleIncomingMessage] never throws. A message of a group, a
    status update, a message of the account itself and a message without
    text change nothing at all. For any other message the socket is
    handed at most two requests, each one a text to the sender of the
    message, and the connection is left as it was. *)
Theorem handleIncomingMessage_contained (envs : Gateway.Envs) (message : Gateway.WAMessage)
    (w : Gateway.World) :
  exists w',
    Gateway.handleIncomingMessage envs message w = (Effects.Returned tt, w')
    /\ (ignored message = true -> w' = w)
    /\ Gateway.sock w' = Gateway.sock w
    /\ Gateway.isConnected w' = Gateway.isConnected w
    /\ Gateway.network w' = Gateway.network w
    /\ exists sent,
         Gateway.wire w' = Gateway.wire w ++ sent
         /\ length sent <= 2
         /\ Forall (λ o, exists text, o = Gateway.Text (Gateway.remoteJid message) text) sent.
Proof.
  exists (snd (Gateway.handleIncomingMessage envs message w)).
  split; [| split].
  - rewrite <- (handleIncomingMessage_returns envs message w).
    by destruct (Gateway.handleIncomingMessage envs message w).
  - intros H. unfold Gateway.handleIncomingMessage, Effects.tryCatch.
    by rewrite handle_ignored.
  - set (jid := Gateway.remoteJid message).
    apply (handleIncomingMessage_keeps (sends jid 0) (sends jid 1) (sends jid 2)).
    + apply (sends_then jid 0 0).
    + apply (sends_then jid 0 1).
    + apply (sends_then jid 1 1).
    + intros. apply liftDb_sends.
    + intros. apply liftDb_sends.
    + intros. apply liftDb_sends.
    + intros. apply liftAi_sends.
    + intros. apply liftDb_sends.
    + intros. apply liftDb_sends.
    + intros. apply sendMessage_sends.
Qed.

Lemma handleAll_returns (messages : list (Gateway.Envs * Gateway.WAMessage))
    (w : Gateway.World) :
  fst (Gateway.handleAll messages w) = Effects.Returned tt.
Proof.
  revert w. induction messages as [|[envs msg] rest IH]; intros w; [done |].
  simpl. unfold Effects.bind.
  pose proof (handleIncomingMessage_returns envs msg w) as H.
  destruct (Gateway.handleIncomingMessage envs msg w) as [[[]|e] w1]; [| done].
  apply IH.
Qed.

(** ** whatsapp.js: the paths of the handler *)

Lemma bind_liftDb {A B : Type} (c : Pg.Db A) (k : A -> Gateway.Handler B)
    (w : Gateway.World) :
  Effects.bind (Gateway.liftDb c) k w
  = match c (Gateway.store w) with
    | (Effects.Returned a, db) => k a (Gateway.setStore db w)
    | (Effects.Thrown e, db) =>
        (Effects.Thrown (Gateway.StoreFailure e), Gateway.setStore db w)
    end.
Proof. unfold Effects.bind, Gateway.liftDb. by destruct (c _) as [[a|e] db]. Qed.

Lemma bind_liftAi {A B : Type} (c : Ai.Js A) (k : A -> Gateway.Handler B)
    (w : Gateway.World) :
  Effects.bind (Gateway.liftAi c) k w
  = match c (Gateway.responder w) with
    | (Effects.Returned a, r) => k a (Gateway.setResponder r w)
    | (Effects.Thrown e, r) =>
        (Effects.Thrown (Gateway.JsFailure e), Gateway.setResponder r w)
    end.
Proof. unfold Effects.bind, Gateway.liftAi. by destruct (c _) as [[a|e] r]. Qed.

(** The handler is its [try] block, and after a throw one attempt at the
    apology. *)
Lemma handleIncomingMessage_run (envs : Gateway.Envs) (message : Gateway.WAMessage)
    (w : Gateway.World) :
  Gateway.handleIncomingMessage envs message w
  = (Effects.Returned tt,
     match Gateway.handle envs message w with
     | (Effects.Returned _, w1) => w1
     | (Effects.Thrown _, w1) =>
         snd (Gateway.sendMessage (Gateway.remoteJid message) Gateway.apology w1)
     end).
Proof.
  unfold Gateway.handleIncomingMessage, Effects.tryCatch.
  destruct (Gateway.handle envs message w) as [[[]|e] w1]; [done |].
  rewrite liftWa_run. by destruct (fst _) as [[]|?].
Qed.

Lemma handle_attended (envs : Gateway.Envs) (message : Gateway.WAMessage)
    (w : Gateway.World) :
  ignored message = false ->
  JsString.includes (Gateway.remoteJid message) "@g.us"
  || String.eqb (Gateway.remoteJid message) "status@broadcast" = false
  /\ Gateway.fromMe message = false
  /\ String.eqb (Gateway.textOf message) "" = false.
Proof.
  unfold ignored. rewrite !orb_false_iff. tauto.
Qed.

(** [getOrCreateLead] writes to [leads] only. *)
Lemma getOrCreateLead_others (env : Pg.Env) (n : string) (db : Pg.Database) :
  Pg.chat_history (snd (Database.getOrCreateLead env n db)) = Pg.chat_history db
  /\ Pg.orders (snd (Database.getOrCreateLead env n db)) = Pg.orders db.
Proof.
  unfold Database.getOrCreateLead, Effects.bind, Pg.selectLeadByPhone.
  destruct (Pg.maybeSingle _) as [[lead|]|e]; [| | done].
  - unfold Pg.updateLeadById. destruct (negb _); [done |]. by destruct (Pg.single _).
  - unfold Pg.insertLead. simpl. destruct (bool_decide _); [done |].
    by destruct (bool_decide _).
Qed.

(** The lead [getOrCreateLead] returns for a number that has one is that
    one, with its flag and its status. *)
Lemma getOrCreateLead_existing (env : Pg.Env) (n : string) (db db' : Pg.Database)
    (lead lead' : Pg.Leads.row) :
  lead ∈ Pg.leads db -> Pg.Leads.phone_number lead = n ->
  Database.getOrCreateLead env n db = (Effects.Returned lead', db') ->
  Pg.Leads.id lead' = Pg.Leads.id lead
  /\ Pg.Leads.needs_human_agent lead' = Pg.Leads.needs_human_agent lead
  /\ Pg.Leads.status lead' = Pg.Leads.status lead.
Proof.
  intros Hin Hn. unfold Database.getOrCreateLead, Effects.bind, Pg.selectLeadByPhone.
  assert (Hf : lead ∈ filter (λ r, Pg.Leads.phone_number r = n) (Pg.leads db))
    by (by apply list_elem_of_filter).
  destruct (filter (λ r, Pg.Leads.phone_number r = n) (Pg.leads db))
    as [|found [|? ?]] eqn:Hsel; simpl; [by apply elem_of_nil in Hf | | discriminate].
  apply list_elem_of_singleton in Hf as <-.
  unfold Pg.updateLeadById. destruct (negb _); [discriminate |].
  assert (Hi : lead ∈ filter (λ r, Pg.Leads.id r = Pg.Leads.id lead) (Pg.leads db))
    by (by apply list_elem_of_filter).
  destruct (filter (λ r, Pg.Leads.id r = Pg.Leads.id lead) (Pg.leads db))
    as [|one [|? ?]] eqn:Hid; simpl; try discriminate.
  apply list_elem_of_singleton in Hi as <-.
  by intros [= <- <-].
Qed.

(** A turn is stored at the end of the table, or nothing is written. *)
Lemma saveChatMessage_cases (env : Pg.Env) (k : Pg.uuid) (n role message : string)
    (metadata : option Ai.Metadata) (db : Pg.Database) :
  let row := Pg.ChatHistory.mk (Pg.pg_uuid env) k n role message metadata (Pg.pg_now env) in
  Database.saveChatMessage env k n role message metadata db
  = (Effects.Returned row, Pg.setChatHistory (Pg.chat_history db ++ [row]) db)
  \/ exists e, Database.saveChatMessage env k n role message metadata db
               = (Effects.Thrown e, db).
Proof.
  unfold Database.saveChatMessage, Pg.insertChat. simpl.
  destruct (negb _); [eauto |]. destruct (bool_decide _); [eauto |].
  destruct (negb _); eauto.
Qed.

(** X14. A customer whose lead is flagged for a human agent gets no
    answer of the responder: the responder is not called (neither the
    catalog nor the model is touched), no turn of the assistant is
    stored, at most the customer's own turn is, and the only texts
    handed to the socket are "A human agent will contact you soon!" and,
    after a failure, the apology. *)
Theorem flagged_lead_bypasses_responder (envs : Gateway.Envs) (message : Gateway.WAMessage)
    (w : Gateway.World) (lead : Pg.Leads.row) :
  lead ∈ Pg.leads (Gateway.store w) ->
  Pg.Leads.phone_number lead = Gateway.remoteJid message ->
  Pg.Leads.needs_human_agent lead = Some true ->
  exists w' turns sent,
    Gateway.handleIncomingMessage envs message w = (Effects.Returned tt, w')
    /\ Gateway.responder w' = Gateway.responder w
    /\ Pg.chat_history (Gateway.store w') = Pg.chat_history (Gateway.store w) ++ turns
    /\ length turns <= 1
    /\ Forall (λ r, Pg.ChatHistory.role r = "user"
                    /\ Pg.ChatHistory.message r = Gateway.textOf message
                    /\ Pg.ChatHistory.phone_number r = Gateway.remoteJid message) turns
    /\ Gateway.wire w' = Gateway.wire w ++ sent
    /\ Forall (λ o, o = Gateway.Text (Gateway.remoteJid message) Gateway.takeoverReply
                    \/ o = Gateway.Text (Gateway.remoteJid message) Gateway.apology) sent.
Proof.
  intros Hin Hn Hflag. set (jid := Gateway.remoteJid message) in *.
  rewrite handleIncomingMessage_run.
  assert (Hh : exists o w1 turns sent,
             Gateway.handle envs message w = (o, w1)
             /\ Gateway.responder w1 = Gateway.responder w
             /\ Pg.chat_history (Gateway.store w1) = Pg.chat_history (Gateway.store w) ++ turns
             /\ length turns <= 1
             /\ Forall (λ r, Pg.ChatHistory.role r = "user"
                             /\ Pg.ChatHistory.message r = Gateway.textOf message
                             /\ Pg.ChatHistory.phone_number r = jid) turns
             /\ Gateway.wire w1 = Gateway.wire w ++ sent
             /\ Forall (λ o, o = Gateway.Text jid Gateway.takeoverReply
                             \/ o = Gateway.Text jid Gateway.apology) sent).
  { destruct (ignored message) eqn:Hig.
    { rewrite handle_ignored by done. exists (Effects.Returned tt), w, [], [].
      rewrite !app_nil_r. repeat split; simpl; try lia; constructor. }
    apply (handle_attended envs message w) in Hig as (Hg & Hme & Htx).
    unfold Gateway.handle. rewrite Hg, Hme, Htx. fold jid.
    rewrite bind_liftDb.
    pose proof (getOrCreateLead_others (Gateway.forLead envs) jid (Gateway.store w))
      as [Hchat1 _].
    destruct (Database.getOrCreateLead (Gateway.forLead envs) jid (Gateway.store w))
      as [[lead'|e] db1] eqn:E1; simpl in Hchat1.
    2: { eexists _, _, [], []. split; [reflexivity |]. simpl. rewrite !app_nil_r.
         repeat split; simpl; try lia; try done; constructor. }
    destruct (getOrCreateLead_existing _ _ _ _ _ _ Hin Hn E1) as (_ & Hflag' & _).
    rewrite bind_liftDb. simpl.
    destruct (saveChatMessage_cases (Gateway.forUserTurn envs) (Pg.Leads.id lead') jid
                "user" (Gateway.textOf message) None db1) as [E2 | [e E2]]; rewrite E2.
    2: { eexists _, _, [], []. split; [reflexivity |]. simpl. rewrite !app_nil_r.
         repeat split; simpl; try lia; try done; constructor. }
    rewrite bool_decide_eq_true_2 by congruence.
    rewrite liftWa_run.
    match goal with
    | |- context [Gateway.sendMessage ?j ?t ?w0] =>
        destruct (sendMessage_effect j t w0)
          as (sent & Hw & Hsent)
    end.
    eexists _, _, [_], sent. split; [reflexivity |]. rewrite Hw. simpl.
    rewrite Hchat1. repeat split; simpl; try lia; try done.
    - by repeat constructor.
    - destruct Hsent as [-> | ->]; constructor; [by left | constructor]. }
  destruct Hh as (o & w1 & turns & sent & -> & Hr & Hc & Hl & Ht & Hw & Hs).
  destruct o as [[]|e].
  - exists w1, turns, sent. by repeat split.
  - fold jid. destruct (sendMessage_effect jid Gateway.apology w1) as (more & -> & Hmore).
    eexists _, turns, (sent ++ more). split; [reflexivity |]. simpl.
    rewrite Hw, <- app_assoc. repeat split; try done.
    apply Forall_app. split; [done |].
    destruct Hmore as [-> | ->]; constructor; [by right | constructor].
Qed.

Lemma flagged_lead_bypasses_responder_witness :
  exists w' turns sent,
    Gateway.handleIncomingMessage oneExchange (incoming "any news?")
      (connected storeWithFlaggedLead worldWithCatalog)
    = (Effects.Returned tt, w')
    /\ Gateway.responder w' = worldWithCatalog
    /\ Pg.chat_history (Gateway.store w') = [] ++ turns
    /\ length turns <= 1
    /\ Forall (λ r, Pg.ChatHistory.role r = "user"
                    /\ Pg.ChatHistory.message r = "any news?"
                    /\ Pg.ChatHistory.phone_number r = customer) turns
    /\ Gateway.wire w' = [] ++ sent
    /\ Forall (λ o, o = Gateway.Text customer Gateway.takeoverReply
                    \/ o = Gateway.Text customer Gateway.apology) sent.
Proof.
  apply (flagged_lead_bypasses_responder oneExchange (incoming "any news?")
           (connected storeWithFlaggedLead worldWithCatalog)
           (Pg.Leads.mk 7%N customer None None (Some "qualified") (Some true)
              30000%Z 10000%Z 30000%Z)).
  - apply list_elem_of_here.
  - reflexivity.
  - reflexivity.
Defined.

(** [getOrCreateLead] flags no lead. *)
Lemma getOrCreateLead_flags (env : Pg.Env) (n : string) (db : Pg.Database)
    (lead' : Pg.Leads.row) :
  lead' ∈ Pg.leads (snd (Database.getOrCreateLead env n db)) ->
  Pg.Leads.needs_human_agent lead' = Some true ->
  exists lead, lead ∈ Pg.leads db /\ Pg.Leads.id lead = Pg.Leads.id lead'
               /\ Pg.Leads.needs_human_agent lead = Some true.
Proof.
  unfold Database.getOrCreateLead, Effects.bind, Pg.selectLeadByPhone.
  destruct (Pg.maybeSingle _) as [[found|]|e]; simpl; [| | by eauto].
  - unfold Pg.updateLeadById. destruct (negb _); simpl; [by eauto |].
    destruct (Pg.single _); simpl; [| by eauto].
    intros Hin Hflag. apply list_elem_of_fmap in Hin as (lead & -> & Hin).
    exists lead. destruct (bool_decide _); by repeat split.
  - unfold Pg.insertLead. simpl. destruct (bool_decide _); simpl; [by eauto |].
    destruct (bool_decide _); simpl; [by eauto |].
    intros Hin Hflag. apply elem_of_app in Hin as [Hin | Hin]; [by eauto |].
    apply list_elem_of_singleton in Hin as ->. discriminate.
Qed.

(** [markForHumanAgent] returns a lead of the store it leaves, flagged
    and qualified, or writes nothing. *)
Lemma markForHumanAgent_cases (env : Pg.Env) (n : string) (db : Pg.Database) :
  (exists r db', DatabaseMore.markForHumanAgent env n db = (Effects.Returned r, db')
                 /\ r ∈ Pg.leads db'
                 /\ Pg.Leads.phone_number r = n
                 /\ Pg.Leads.needs_human_agent r = Some true
                 /\ Pg.Leads.status r = Some "qualified"
                 /\ Pg.chat_history db' = Pg.chat_history db
                 /\ Pg.orders db' = Pg.orders db)
  \/ exists e, DatabaseMore.markForHumanAgent env n db = (Effects.Thrown e, db).
Proof.
  unfold DatabaseMore.markForHumanAgent, StoreRequests.updateLeadByPhone.
  destruct (negb _); [by eauto |].
  destruct (filter (λ r, Pg.Leads.phone_number r = n) (Pg.leads db))
    as [|x [|? ?]] eqn:Hsel; simpl; [by eauto | | by eauto].
  assert (Hx : x ∈ filter (λ r, Pg.Leads.phone_number r = n) (Pg.leads db))
    by (rewrite Hsel; apply list_elem_of_here).
  apply list_elem_of_filter in Hx as [Hn Hx].
  left. eexists _, _. split; [reflexivity |]. simpl. repeat split; [| done].
  apply list_elem_of_fmap. exists x. split; [| done].
  by rewrite bool_decide_eq_true_2.
Qed.

Lemma getChatHistory_run (n : string) (limit : option nat) (db : Pg.Database) :
  Database.getChatHistory n limit db
  = (Effects.Returned
       (take (default 20 limit)
          (Pg.orderByCreatedAt
             (filter (λ r, Pg.ChatHistory.phone_number r = n) (Pg.chat_history db)))), db).
Proof. reflexivity. Qed.

(** Asked for a person, the responder answers with the handoff when the
    catalog is at hand and with the fallback when it is not, and calls
    the model in neither case. *)
Lemma generateResponse_asked (text : string) (chatHistory : list Ai.HistoryItem)
    (r : Ai.World) :
  asksForAgent text ->
  exists r', Ai.fetched r' = Ai.fetched r
             /\ ((catalogLoads r
                  /\ Ai.generateResponse text chatHistory r
                     = (Effects.Returned
                          (Ai.mkResponse Ai.handoffReply
                             (Ai.mkMetadata (Some true) None None None None)), r'))
                 \/ (~ catalogLoads r
                     /\ exists e, Ai.generateResponse text chatHistory r
                                  = (Effects.Returned
                                       (Ai.mkResponse Ai.fallbackReply
                                          (Ai.mkMetadata None None None (Some true)
                                             (Some (Ai.e_message e)))), r'))).
Proof.
  intros Ha. apply isAgentRequested_spec in Ha.
  unfold Ai.generateResponse, Effects.tryCatch.
  destruct (catalogLoads_dec r) as [Hc|Hc].
  - destruct (respond_handoff text chatHistory r Ha Hc) as (r' & -> & Hf).
    exists r'. split; [done |]. by left.
  - destruct (loadProducts_fails r Hc) as [e He].
    rewrite (respond_load_failure _ _ _ _ _ He).
    exists r. split; [done |]. right. split; [done |]. by exists e.
Qed.

(** X15. A customer who asks for a person. The model is never called.
    The handoff reply is handed to the socket only when the catalog was
    at hand, and only after the lead was flagged for a human agent and
    qualified in the store. When the catalog cannot be loaded the request
    is lost: the handoff reply is not sent and the message flags no
    lead. *)
Theorem agent_request_flags_before_reply (envs : Gateway.Envs) (message : Gateway.WAMessage)
    (w : Gateway.World) :
  asksForAgent (Gateway.textOf message) ->
  exists w' sent,
    Gateway.handleIncomingMessage envs message w = (Effects.Returned tt, w')
    /\ Ai.fetched (Gateway.responder w') = Ai.fetched (Gateway.responder w)
    /\ Gateway.wire w' = Gateway.wire w ++ sent
    /\ (Gateway.Text (Gateway.remoteJid message) Ai.handoffReply ∈ sent ->
        catalogLoads (Gateway.responder w)
        /\ exists lead, lead ∈ Pg.leads (Gateway.store w')
                        /\ Pg.Leads.phone_number lead = Gateway.remoteJid message
                        /\ Pg.Leads.needs_human_agent lead = Some true
                        /\ Pg.Leads.status lead = Some "qualified")
    /\ (~ catalogLoads (Gateway.responder w) ->
        forall lead', lead' ∈ Pg.leads (Gateway.store w') ->
                      Pg.Leads.needs_human_agent lead' = Some true ->
                      exists lead, lead ∈ Pg.leads (Gateway.store w)
                                   /\ Pg.Leads.id lead = Pg.Leads.id lead'
                                   /\ Pg.Leads.needs_human_agent lead = Some true).
Proof.
  intros Hask. set (jid := Gateway.remoteJid message) in *.
  set (text := Gateway.textOf message) in *.
  rewrite handleIncomingMessage_run.
  set (flagged := λ db lead', Pg.Leads.needs_human_agent lead' = Some true ->
                   exists lead, lead ∈ Pg.leads db /\ Pg.Leads.id lead = Pg.Leads.id lead'
                                /\ Pg.Leads.needs_human_agent lead = Some true).
  assert (Hh : exists o w1 sent,
             Gateway.handle envs message w = (o, w1)
             /\ Ai.fetched (Gateway.responder w1) = Ai.fetched (Gateway.responder w)
             /\ Gateway.wire w1 = Gateway.wire w ++ sent
             /\ (Gateway.Text jid Ai.handoffReply ∈ sent ->
                 catalogLoads (Gateway.responder w)
                 /\ exists lead, lead ∈ Pg.leads (Gateway.store w1)
                                 /\ Pg.Leads.phone_number lead = jid
                                 /\ Pg.Leads.needs_human_agent lead = Some true
                                 /\ Pg.Leads.status lead = Some "qualified")
             /\ (~ catalogLoads (Gateway.responder w) ->
                 forall lead', lead' ∈ Pg.leads (Gateway.store w1) ->
                               flagged (Gateway.store w) lead')).
  { assert (Hnil : forall P : Prop, Gateway.Text jid Ai.handoffReply ∈ [] -> P)
      by (intros P HP; by apply elem_of_nil in HP).
    destruct (ignored message) eqn:Hig.
    { rewrite handle_ignored by done. exists (Effects.Returned tt), w, [].
      rewrite app_nil_r. split_and!; [done.. | apply Hnil |].
      intros _ lead' Hin Hf. by exists lead'. }
    apply (handle_attended envs message w) in Hig as (Hg & Hme & Htx).
    unfold Gateway.handle. rewrite Hg, Hme, Htx. fold jid text.
    rewrite bind_liftDb.
    pose proof (getOrCreateLead_flags (Gateway.forLead envs) jid (Gateway.store w)) as Hflags.
    destruct (Database.getOrCreateLead (Gateway.forLead envs) jid (Gateway.store w))
      as [[lead1|e] db1] eqn:E1; simpl in Hflags.
    2: { eexists _, _, []. split; [reflexivity |]. simpl. rewrite app_nil_r.
         split_and!; [done.. | apply Hnil |]. intros _ lead' Hin Hf. by apply Hflags. }
    rewrite bind_liftDb. simpl.
    destruct (saveChatMessage_cases (Gateway.forUserTurn envs) (Pg.Leads.id lead1) jid
                "user" text None db1) as [E2 | [e E2]]; rewrite E2.
    2: { eexists _, _, []. split; [reflexivity |]. simpl. rewrite app_nil_r.
         split_and!; [done.. | apply Hnil |]. intros _ lead' Hin Hf. by apply Hflags. }
    set (db2 := Pg.setChatHistory _ db1).
    destruct (bool_decide (Pg.Leads.needs_human_agent lead1 = Some true)).
    { rewrite liftWa_run.
      match goal with
      | |- context [Gateway.sendMessage ?j ?t ?w0] =>
          destruct (sendMessage_effect j t w0) as (sent & Hw & Hsent)
      end.
      eexists _, _, sent. split; [reflexivity |]. rewrite Hw. simpl.
      split_and!; [done.. | |].
      - destruct Hsent as [-> | ->]; [apply Hnil |].
        intros Hin. apply list_elem_of_singleton in Hin. discriminate.
      - intros _ lead' Hin Hf. by apply Hflags. }
    rewrite bind_liftDb, getChatHistory_run. rewrite bind_liftAi. simpl.
    match goal with
    | |- context [Ai.generateResponse text ?h (Gateway.responder w)] =>
        destruct (generateResponse_asked text h (Gateway.responder w) Hask)
          as (r' & Hfetched & [[Hc E3] | [Hc [err E3]]]); rewrite E3
    end.
    - simpl. unfold Effects.bind at 1. unfold Effects.bind at 1. rewrite liftDb_run. simpl.
      destruct (markForHumanAgent_cases (Gateway.forHandoff envs) jid db2)
        as [(lead2 & db3 & E4 & Hin & Hn & Hflag & Hstatus & _) | [e E4]]; rewrite E4; simpl.
      2: { eexists _, _, []. split; [reflexivity |]. simpl. rewrite app_nil_r.
           split_and!; [done.. | apply Hnil | done]. }
      unfold Effects.bind at 1. unfold Effects.ret at 1.
      rewrite bind_liftDb. simpl.
      destruct (saveChatMessage_cases (Gateway.forAssistantTurn envs) (Pg.Leads.id lead1) jid
                  "assistant" Ai.handoffReply
                  (Some (Ai.mkMetadata (Some true) None None None None)) db3)
        as [E5 | [e E5]]; rewrite E5.
      2: { eexists _, _, []. split; [reflexivity |]. simpl. rewrite app_nil_r.
           split_and!; [done.. | apply Hnil | done]. }
      rewrite liftWa_run.
      match goal with
      | |- context [Gateway.sendMessage ?j ?t ?w0] =>
          destruct (sendMessage_effect j t w0) as (sent & Hw & Hsent)
      end.
      eexists _, _, sent. split; [reflexivity |]. rewrite Hw. simpl.
      split_and!; [done.. | | done]. intros _. split; [done |]. by exists lead2.
    - simpl. unfold Effects.bind at 1. unfold Effects.ret at 1.
      unfold Effects.bind at 1. unfold Effects.ret at 1.
      rewrite bind_liftDb. simpl.
      destruct (saveChatMessage_cases (Gateway.forAssistantTurn envs) (Pg.Leads.id lead1) jid
                  "assistant" Ai.fallbackReply
                  (Some (Ai.mkMetadata None None None (Some true) (Some (Ai.e_message err))))
                  db2)
        as [E5 | [e E5]]; rewrite E5.
      2: { eexists _, _, []. split; [reflexivity |]. simpl. rewrite app_nil_r.
           split_and!; [done.. | apply Hnil |]. intros _ lead' Hin Hf. by apply Hflags. }
      rewrite liftWa_run.
      match goal with
      | |- context [Gateway.sendMessage ?j ?t ?w0] =>
          destruct (sendMessage_effect j t w0) as (sent & Hw & Hsent)
      end.
      eexists _, _, sent. split; [reflexivity |]. rewrite Hw. simpl.
      split_and!; [done.. | |].
      + destruct Hsent as [-> | ->]; [apply Hnil |].
        intros Hin. apply list_elem_of_singleton in Hin. discriminate.
      + intros _ lead' Hin Hf. by apply Hflags. }
  destruct Hh as (o & w1 & sent & -> & Hf & Hw & Hsent & Hlost).
  destruct o as [[]|e].
  - exists w1, sent. by split_and!.
  - fold jid. destruct (sendMessage_effect jid Gateway.apology w1) as (more & -> & Hmore).
    eexists _, (sent ++ more). split; [reflexivity |]. simpl.
    rewrite Hw, <- app_assoc. split_and!; [done.. | | done].
    intros Hin. apply Hsent. apply elem_of_app in Hin as [Hin | Hin]; [done |].
    destruct Hmore as [-> | ->]; [by apply elem_of_nil in Hin |].
    apply list_elem_of_singleton in Hin. discriminate.
Qed.

Lemma agent_request_flags_before_reply_witness :
  exists w' sent,
    Gateway.handleIncomingMessage oneExchange (incoming "Can I talk to a HUMAN please")
      (connected emptyStore worldWithCatalog)
    = (Effects.Returned tt, w')
    /\ Ai.fetched (Gateway.responder w') = []
    /\ Gateway.wire w' = [] ++ sent
    /\ (Gateway.Text customer Ai.handoffReply ∈ sent ->
        catalogLoads worldWithCatalog
        /\ exists lead, lead ∈ Pg.leads (Gateway.store w')
                        /\ Pg.Leads.phone_number lead = customer
                        /\ Pg.Leads.needs_human_agent lead = Some true
                        /\ Pg.Leads.status lead = Some "qualified")
    /\ (~ catalogLoads worldWithCatalog ->
        forall lead', lead' ∈ Pg.leads (Gateway.store w') ->
                      Pg.Leads.needs_human_agent lead' = Some true ->
                      exists lead, lead ∈ Pg.leads emptyStore
                                   /\ Pg.Leads.id lead = Pg.Leads.id lead'
                                   /\ Pg.Leads.needs_human_agent lead = Some true).
Proof.
  apply (agent_request_flags_before_reply oneExchange
           (incoming "Can I talk to a HUMAN please")
           (connected emptyStore worldWithCatalog)).
  apply isAgentRequested_spec. reflexivity.
Defined.

(** That run: the lead is created, flagged and qualified, both turns are
    stored, and the handoff reply is the one text sent. *)
Example agent_request_run :
  let w' := snd (Gateway.handleIncomingMessage oneExchange
                   (incoming "Can I talk to a HUMAN please")
                   (connected emptyStore worldWithCatalog)) in
  Gateway.wire w' = [Gateway.Text customer Ai.handoffReply]
  /\ Pg.leads (Gateway.store w')
     = [Pg.Leads.mk 7%N customer None None (Some "qualified") (Some true)
          1000%Z 1002%Z 3000%Z]
  /\ Pg.ChatHistory.role <$> Pg.chat_history (Gateway.store w') = ["user"; "assistant"].
Proof. by vm_compute. Qed.

#[local] Instance leadsOnly_reflexive : Reflexive leadsOnly.
Proof. by intros w. Qed.

Lemma leadsOnly_then (x y z : Gateway.World) :
  leadsOnly x y -> leadsOnly y z -> leadsOnly x z.
Proof.
  intros (? & ? & ? & ? & ? & ? & ?) (? & ? & ? & ? & ? & ? & ?).
  repeat split; congruence.
Qed.

Lemma updateLead_others (env : Pg.Env) (k : Pg.uuid) (p : Pg.Leads.patch)
    (db : Pg.Database) :
  Pg.chat_history (snd (Database.updateLead env k p db)) = Pg.chat_history db
  /\ Pg.orders (snd (Database.updateLead env k p db)) = Pg.orders db.
Proof.
  unfold Database.updateLead, Pg.updateLeadById.
  destruct (negb _); [done |]. by destruct (Pg.single _).
Qed.

Lemma markForHumanAgent_others (env : Pg.Env) (n : string) (db : Pg.Database) :
  Pg.chat_history (snd (DatabaseMore.markForHumanAgent env n db)) = Pg.chat_history db
  /\ Pg.orders (snd (DatabaseMore.markForHumanAgent env n db)) = Pg.orders db.
Proof.
  unfold DatabaseMore.markForHumanAgent, StoreRequests.updateLeadByPhone.
  destruct (negb _); [done |]. by destruct (Pg.single _).
Qed.

Lemma liftDb_leadsOnly {A : Type} (c : Pg.Db A) :
  (forall db, Pg.chat_history (snd (c db)) = Pg.chat_history db
              /\ Pg.orders (snd (c db)) = Pg.orders db) ->
  keeps leadsOnly (Gateway.liftDb c).
Proof.
  intros Hc w. rewrite liftDb_run. simpl. destruct (Hc (Gateway.store w)).
  by repeat split.
Qed.

(** The two optional writes between the answer of the responder and its
    turn: the flag, and the name and the city. *)
Lemma flag_step_leadsOnly (b : bool) (env : Pg.Env) (n : string) :
  keeps leadsOnly
    (if b
     then Effects.bind (Gateway.liftDb (DatabaseMore.markForHumanAgent env n))
            (λ _, Effects.ret tt)
     else Effects.ret tt).
Proof.
  destruct b; [| by apply keeps_ret].
  apply (keeps_bind leadsOnly leadsOnly leadsOnly); [exact leadsOnly_then | |].
  - apply liftDb_leadsOnly. apply markForHumanAgent_others.
  - intros _. by apply keeps_ret.
Qed.

Lemma profile_step_leadsOnly (extracted : option Ai.ExtractedInfo) (env : Pg.Env)
    (k : Pg.uuid) :
  keeps leadsOnly
    (match extracted with
     | Some info =>
         let name := Gateway.present (Ai.i_name info) in
         let city := Gateway.present (Ai.i_city info) in
         if bool_decide (name = None /\ city = None) then Effects.ret tt
         else
           Effects.bind
             (Gateway.liftDb
                (Database.updateLead env k
                   (Pg.Leads.mkPatch (Some <$> name) (Some <$> city) None None None None)))
             (λ _, Effects.ret tt)
     | None => Effects.ret tt
     end).
Proof.
  destruct extracted as [info|]; [| by apply keeps_ret]. simpl.
  destruct (bool_decide _); [by apply keeps_ret |].
  apply (keeps_bind leadsOnly leadsOnly leadsOnly); [exact leadsOnly_then | |].
  - apply liftDb_leadsOnly. apply updateLead_others.
  - intros _. by apply keeps_ret.
Qed.

(** X16. What the bot tells a customer is on record. Handling a message
    adds to the history at most the customer's turn and then the
    assistant's, both under the sender's number. Every text handed to the
    socket, the apology apart, comes after the customer's turn was
    stored; and, the takeover notice apart, it is the message of the
    assistant's turn stored just before. *)
Theorem replies_are_on_record (envs : Gateway.Envs) (message : Gateway.WAMessage)
    (w : Gateway.World) :
  exists w' turns sent,
    Gateway.handleIncomingMessage envs message w = (Effects.Returned tt, w')
    /\ Pg.chat_history (Gateway.store w') = Pg.chat_history (Gateway.store w) ++ turns
    /\ Gateway.wire w' = Gateway.wire w ++ sent
    /\ (Pg.ChatHistory.role <$> turns) `prefix_of` ["user"; "assistant"]
    /\ Forall (λ r, Pg.ChatHistory.phone_number r = Gateway.remoteJid message) turns
    /\ forall text,
         Gateway.Text (Gateway.remoteJid message) text ∈ sent ->
         text = Gateway.apology
         \/ ((exists u, u ∈ turns /\ Pg.ChatHistory.role u = "user"
                        /\ Pg.ChatHistory.message u = Gateway.textOf message)
             /\ (text = Gateway.takeoverReply
                 \/ exists a, a ∈ turns /\ Pg.ChatHistory.role a = "assistant"
                              /\ Pg.ChatHistory.message a = text)).
Proof.
  set (jid := Gateway.remoteJid message).
  set (text := Gateway.textOf message).
  rewrite handleIncomingMessage_run.
  set (recorded := λ (turns : list Pg.ChatHistory.row) (sent : list Gateway.Outgoing),
         forall reply, Gateway.Text jid reply ∈ sent ->
           (exists u, u ∈ turns /\ Pg.ChatHistory.role u = "user"
                      /\ Pg.ChatHistory.message u = text)
           /\ (reply = Gateway.takeoverReply
               \/ exists a, a ∈ turns /\ Pg.ChatHistory.role a = "assistant"
                            /\ Pg.ChatHistory.message a = reply)).
  assert (Hnone : forall turns, recorded turns [])
    by (intros turns reply Hin; by apply elem_of_nil in Hin).
  assert (Hh : exists o w1 turns sent,
             Gateway.handle envs message w = (o, w1)
             /\ Pg.chat_history (Gateway.store w1)
                = Pg.chat_history (Gateway.store w) ++ turns
             /\ Gateway.wire w1 = Gateway.wire w ++ sent
             /\ (Pg.ChatHistory.role <$> turns) `prefix_of` ["user"; "assistant"]
             /\ Forall (λ r, Pg.ChatHistory.phone_number r = jid) turns
             /\ recorded turns sent).
  { destruct (ignored message) eqn:Hig.
    { rewrite handle_ignored by done. exists (Effects.Returned tt), w, [], [].
      rewrite !app_nil_r. split_and!; [done.. | by eexists | constructor | apply Hnone]. }
    apply (handle_attended envs message w) in Hig as (Hg & Hme & Htx).
    unfold Gateway.handle. rewrite Hg, Hme, Htx. fold jid text.
    rewrite bind_liftDb.
    pose proof (getOrCreateLead_others (Gateway.forLead envs) jid (Gateway.store w))
      as [Hchat1 _].
    destruct (Database.getOrCreateLead (Gateway.forLead envs) jid (Gateway.store w))
      as [[lead1|e] db1] eqn:E1; simpl in Hchat1.
    2: { eexists _, _, [], []. split; [reflexivity |]. simpl. rewrite !app_nil_r.
         split_and!; [done.. | by eexists | constructor | apply Hnone]. }
    rewrite bind_liftDb. simpl.
    destruct (saveChatMessage_cases (Gateway.forUserTurn envs) (Pg.Leads.id lead1) jid
                "user" text None db1) as [E2 | [e E2]]; rewrite E2.
    2: { eexists _, _, [], []. split; [reflexivity |]. simpl. rewrite !app_nil_r.
         split_and!; [done.. | by eexists | constructor | apply Hnone]. }
    set (u := Pg.ChatHistory.mk _ _ jid "user" text None _).
    set (db2 := Pg.setChatHistory _ db1).
    assert (Hu : exists u0, u0 ∈ [u] /\ Pg.ChatHistory.role u0 = "user"
                            /\ Pg.ChatHistory.message u0 = text)
      by (exists u; split; [apply list_elem_of_here | done]).
    assert (Hp1 : (Pg.ChatHistory.role <$> [u]) `prefix_of` ["user"; "assistant"])
      by (by exists ["assistant"]).
    destruct (bool_decide (Pg.Leads.needs_human_agent lead1 = Some true)).
    { rewrite liftWa_run.
      match goal with
      | |- context [Gateway.sendMessage ?j ?t ?w0] =>
          destruct (sendMessage_effect j t w0) as (sent & Hw & Hsent)
      end.
      eexists _, _, [u], sent. split; [reflexivity |]. rewrite Hw. simpl.
      rewrite Hchat1. split_and!; [done.. | by repeat constructor |].
      destruct Hsent as [-> | ->]; [apply Hnone |].
      intros reply Hin. apply list_elem_of_singleton in Hin as [= ->].
      split; [done | by left]. }
    rewrite bind_liftDb, getChatHistory_run, bind_liftAi. simpl.
    match goal with
    | |- context [Ai.generateResponse text ?h (Gateway.responder w)] =>
        destruct (Ai.generateResponse text h (Gateway.responder w))
          as [[response|e] r'] eqn:E3
    end.
    2: { eexists _, _, [u], []. split; [reflexivity |]. simpl. rewrite Hchat1, app_nil_r.
         split_and!; [done.. | by repeat constructor | apply Hnone]. }
    match goal with
    | |- context [Effects.bind ?c ?k ?w0] =>
        assert (Hk4 : leadsOnly w0 (snd (c w0))) by apply flag_step_leadsOnly;
        unfold Effects.bind at 1; destruct (c w0) as [[[]|e] w4]
    end; simpl in Hk4; destruct Hk4 as (_ & _ & _ & _ & Hw4 & Hc4 & _).
    2: { eexists _, _, [u], []. split; [reflexivity |]. rewrite Hw4, Hc4. simpl.
         rewrite Hchat1, app_nil_r.
         split_and!; [done.. | by repeat constructor | apply Hnone]. }
    match goal with
    | |- context [Effects.bind ?c ?k w4] =>
        assert (Hk5 : leadsOnly w4 (snd (c w4))) by apply profile_step_leadsOnly;
        unfold Effects.bind at 1; destruct (c w4) as [[[]|e] w5]
    end; simpl in Hk5; destruct Hk5 as (_ & _ & _ & _ & Hw5 & Hc5 & _).
    2: { eexists _, _, [u], []. split; [reflexivity |]. rewrite Hw5, Hc5, Hw4, Hc4. simpl.
         rewrite Hchat1, app_nil_r.
         split_and!; [done.. | by repeat constructor | apply Hnone]. }
    rewrite bind_liftDb.
    destruct (saveChatMessage_cases (Gateway.forAssistantTurn envs) (Pg.Leads.id lead1) jid
                "assistant" (Ai.message response) (Some (Ai.metadata response))
                (Gateway.store w5)) as [E6 | [e E6]]; rewrite E6.
    2: { eexists _, _, [u], []. split; [reflexivity |]. simpl. rewrite Hw5, Hc5, Hw4, Hc4.
         simpl. rewrite Hchat1, app_nil_r.
         split_and!; [done.. | by repeat constructor | apply Hnone]. }
    set (a := Pg.ChatHistory.mk _ _ jid "assistant" (Ai.message response) _ _).
    rewrite liftWa_run.
    match goal with
    | |- context [Gateway.sendMessage ?j ?t ?w0] =>
        destruct (sendMessage_effect j t w0) as (sent & Hw & Hsent)
    end.
    eexists _, _, [u; a], sent. split; [reflexivity |]. rewrite Hw. simpl.
    rewrite Hw5, Hc5, Hw4, Hc4. simpl. rewrite Hchat1, <- app_assoc. simpl.
    split_and!; [done.. | by repeat constructor |].
    destruct Hsent as [-> | ->]; [apply Hnone |].
    intros reply Hin. apply list_elem_of_singleton in Hin as [= ->].
    split.
    - exists u. split; [apply list_elem_of_here | done].
    - right. exists a. split; [| done]. apply list_elem_of_further, list_elem_of_here. }
  destruct Hh as (o & w1 & turns & sent & -> & Hc & Hw & Hp & Hf & Hrec).
  destruct o as [[]|e].
  - exists w1, turns, sent. split_and!; [done.. |]. intros reply Hin. right. by apply Hrec.
  - fold jid. destruct (sendMessage_effect jid Gateway.apology w1) as (more & -> & Hmore).
    eexists _, turns, (sent ++ more). split; [reflexivity |]. simpl.
    rewrite Hw, <- app_assoc. split_and!; [done.. |].
    intros reply Hin. apply elem_of_app in Hin as [Hin | Hin]; [right; by apply Hrec |].
    destruct Hmore as [-> | ->]; [by apply elem_of_nil in Hin |].
    apply list_elem_of_singleton in Hin as [= ->]. by left.
Qed.

(** ** whatsapp.js: the turns of a batch *)

Lemma fmap_patched {B : Type} (f : Pg.Leads.row -> B) (P : Pg.Leads.row -> Prop)
    `{!forall r, Decision (P r)} (p : Pg.Leads.patch) (l : list Pg.Leads.row) :
  (forall r, f (Pg.Leads.apply p r) = f r) ->
  f <$> ((λ r, if bool_decide (P r) then Pg.Leads.apply p r else r) <$> l) = f <$> l.
Proof.
  intros Hf. rewrite <- list_fmap_compose. apply list_fmap_ext.
  intros i r _. simpl. by destruct (bool_decide _).
Qed.

Lemma filed_key (db : Pg.Database) (t : Pg.ChatHistory.row) :
  filed db t
  <-> (Pg.ChatHistory.lead_id t, Pg.ChatHistory.phone_number t) ∈ leadKey <$> Pg.leads db.
Proof.
  unfold filed, leadKey. rewrite list_elem_of_fmap. split.
  - intros (lead & Hin & <- & <-). by exists lead.
  - intros (lead & [= -> ->] & Hin). by exists lead.
Qed.

#[local] Instance keysKept_reflexive : Reflexive keysKept.
Proof. by intros w key. Qed.

#[local] Instance files_reflexive : Reflexive files.
Proof. intros w. split; [done | by left]. Qed.

#[local] Instance filesUnder_reflexive (k : Pg.uuid) (jid : string) :
  Reflexive (filesUnder k jid).
Proof. intros w. split; [done | by left]. Qed.

Lemma files_then (x y z : Gateway.World) : files x y -> files y z -> files x z.
Proof.
  intros [Hk1 Ht1] [Hk2 Ht2]. split; [intros key Hkey; by apply Hk2, Hk1 |].
  intros t Ht. destruct (Ht2 t Ht) as [Hy | Hf]; [| by right].
  destruct (Ht1 t Hy) as [Hx | Hf]; [by left | right].
  apply filed_key. apply Hk2. by apply filed_key.
Qed.

Lemma filesUnder_then (k : Pg.uuid) (jid : string) (x y z : Gateway.World) :
  filesUnder k jid x y -> filesUnder k jid y z -> filesUnder k jid x z.
Proof.
  intros [Hk1 Ht1] [Hk2 Ht2]. split; [intros key Hkey; by apply Hk2, Hk1 |].
  intros t Ht. destruct (Ht2 t Ht) as [Hy | Hf]; [| by right]. by apply Ht1.
Qed.

(** The turns of a lead that is in the store under that number are
    filed. *)
Lemma filesUnder_files (k : Pg.uuid) (jid : string) (x y z : Gateway.World) :
  files x y -> (k, jid) ∈ leadKey <$> Pg.leads (Gateway.store y) ->
  filesUnder k jid y z -> files x z.
Proof.
  intros Hxy Hkey [Hk Ht]. apply (files_then x y z); [done |].
  split; [done |]. intros t Hin. destruct (Ht t Hin) as [Hy | [<- <-]]; [by left | right].
  apply filed_key. by apply Hk.
Qed.

(** A request that changes no id and no number of a lead and leaves the
    turns alone. *)
Lemma liftDb_filesUnder {A : Type} (k : Pg.uuid) (jid : string) (c : Pg.Db A) :
  (forall db, Pg.chat_history (snd (c db)) = Pg.chat_history db
              /\ leadKey <$> Pg.leads (snd (c db)) = leadKey <$> Pg.leads db) ->
  keeps (filesUnder k jid) (Gateway.liftDb c).
Proof.
  intros Hc w. rewrite liftDb_run. simpl. destruct (Hc (Gateway.store w)) as [Hchat Hkeys].
  split.
  - intros key. simpl. by rewrite Hkeys.
  - intros t. simpl. rewrite Hchat. by left.
Qed.

Lemma updateLead_keys (env : Pg.Env) (k : Pg.uuid) (p : Pg.Leads.patch)
    (db : Pg.Database) :
  Pg.chat_history (snd (Database.updateLead env k p db)) = Pg.chat_history db
  /\ leadKey <$> Pg.leads (snd (Database.updateLead env k p db)) = leadKey <$> Pg.leads db.
Proof.
  split; [apply updateLead_others |].
  unfold Database.updateLead, Pg.updateLeadById.
  destruct (negb _); [done |]. destruct (Pg.single _); [| done]. simpl.
  by apply fmap_patched.
Qed.

Lemma markForHumanAgent_keys (env : Pg.Env) (n : string) (db : Pg.Database) :
  Pg.chat_history (snd (DatabaseMore.markForHumanAgent env n db)) = Pg.chat_history db
  /\ leadKey <$> Pg.leads (snd (DatabaseMore.markForHumanAgent env n db))
     = leadKey <$> Pg.leads db.
Proof.
  split; [apply markForHumanAgent_others |].
  unfold DatabaseMore.markForHumanAgent, StoreRequests.updateLeadByPhone.
  destruct (negb _); [done |]. destruct (Pg.single _); [| done]. simpl.
  by apply fmap_patched.
Qed.

Lemma getChatHistory_keys (n : string) (limit : option nat) (db : Pg.Database) :
  Pg.chat_history (snd (Database.getChatHistory n limit db)) = Pg.chat_history db
  /\ leadKey <$> Pg.leads (snd (Database.getChatHistory n limit db))
     = leadKey <$> Pg.leads db.
Proof. by rewrite getChatHistory_run. Qed.

(** A turn stored for the lead [k] under [jid]. *)
Lemma saveChatMessage_filesUnder (env : Pg.Env) (k : Pg.uuid) (jid role message : string)
    (metadata : option Ai.Metadata) :
  keeps (filesUnder k jid)
    (Gateway.liftDb (Database.saveChatMessage env k jid role message metadata)).
Proof.
  intros w. rewrite liftDb_run.
  destruct (saveChatMessage_cases env k jid role message metadata (Gateway.store w))
    as [E | [e E]]; rewrite E; simpl.
  - split; [by intros key |]. intros t. simpl. rewrite elem_of_app, list_elem_of_singleton.
    intros [Hin | ->]; [by left | by right].
  - split; [by intros key | intros t; simpl; by left].
Qed.

Lemma liftAi_filesUnder {A : Type} (k : Pg.uuid) (jid : string) (c : Ai.Js A) :
  keeps (filesUnder k jid) (Gateway.liftAi c).
Proof. intros w. rewrite liftAi_run. simpl. split; [by intros key | by left]. Qed.

Lemma sendMessage_store (jid text : string) (w : Gateway.World) :
  Gateway.store (snd (Gateway.liftWa (Gateway.sendMessage jid text) w)) = Gateway.store w.
Proof.
  rewrite liftWa_run. simpl. by destruct (sendMessage_effect jid text w) as (sent & -> & _).
Qed.

Lemma sendMessage_filesUnder (k : Pg.uuid) (jid to text : string) :
  keeps (filesUnder k jid) (Gateway.liftWa (Gateway.sendMessage to text)).
Proof.
  intros w. unfold filesUnder, keysKept. rewrite sendMessage_store.
  split; [done | by left].
Qed.

Lemma sendMessage_files (to text : string) :
  keeps files (Gateway.liftWa (Gateway.sendMessage to text)).
Proof.
  intros w. unfold files, keysKept. rewrite sendMessage_store.
  split; [done | by left].
Qed.

(** [getOrCreateLead] keeps the id and the number of every lead, and the
    lead it returns is in the store it leaves, under the number asked
    for. *)
Lemma getOrCreateLead_keys (env : Pg.Env) (n : string) (db : Pg.Database) :
  (forall key, key ∈ leadKey <$> Pg.leads db ->
               key ∈ leadKey <$> Pg.leads (snd (Database.getOrCreateLead env n db)))
  /\ forall lead, fst (Database.getOrCreateLead env n db) = Effects.Returned lead ->
       (Pg.Leads.id lead, n) ∈ leadKey <$> Pg.leads (snd (Database.getOrCreateLead env n db)).
Proof.
  unfold Database.getOrCreateLead, Effects.bind, Pg.selectLeadByPhone.
  destruct (filter (λ r, Pg.Leads.phone_number r = n) (Pg.leads db))
    as [|found [|? ?]] eqn:Hsel; simpl; [| | by split].
  - unfold Pg.insertLead. simpl.
    destruct (bool_decide _); [by split |]. destruct (bool_decide _); [by split |]. simpl.
    split.
    + intros key Hkey. rewrite fmap_app. apply elem_of_app. by left.
    + intros lead [= <-]. rewrite fmap_app. apply elem_of_app. right. simpl.
      apply list_elem_of_here.
  - assert (Hf : found ∈ filter (λ r, Pg.Leads.phone_number r = n) (Pg.leads db))
      by (rewrite Hsel; apply list_elem_of_here).
    apply list_elem_of_filter in Hf as [Hn Hf].
    unfold Pg.updateLeadById. destruct (negb _); [by split |].
    assert (Hi : found ∈ filter (λ r, Pg.Leads.id r = Pg.Leads.id found) (Pg.leads db))
      by (by apply list_elem_of_filter).
    destruct (filter (λ r, Pg.Leads.id r = Pg.Leads.id found) (Pg.leads db))
      as [|one [|? ?]] eqn:Hid; simpl; [by split | | by split].
    apply list_elem_of_singleton in Hi as <-.
    rewrite fmap_patched by done. split; [done |].
    intros lead [= <-]. simpl. rewrite <- Hn.
    apply list_elem_of_fmap. by exists found.
Qed.

(** The [try] block files the turns it stores: they are of the lead
    [getOrCreateLead] returned, under the number it was asked for. *)
Lemma handle_files (envs : Gateway.Envs) (message : Gateway.WAMessage) :
  keeps files (Gateway.handle envs message).
Proof.
  intros w. unfold Gateway.handle.
  destruct (_ || _); [done |].
  destruct (Gateway.fromMe message); [done |].
  destruct (String.eqb _ _); [done |].
  set (jid := Gateway.remoteJid message).
  rewrite bind_liftDb.
  destruct (getOrCreateLead_keys (Gateway.forLead envs) jid (Gateway.store w))
    as [Hkeys Hlead].
  pose proof (getOrCreateLead_others (Gateway.forLead envs) jid (Gateway.store w))
    as [Hchat _].
  destruct (Database.getOrCreateLead (Gateway.forLead envs) jid (Gateway.store w))
    as [[lead|e] db1]; simpl in Hkeys, Hlead, Hchat.
  2: { simpl. split; [done |]. intros t. simpl. rewrite Hchat. by left. }
  assert (Hfirst : files w (Gateway.setStore db1 w)).
  { split; [done |]. intros t. simpl. rewrite Hchat. by left. }
  apply (filesUnder_files (Pg.Leads.id lead) jid w (Gateway.setStore db1 w));
    [done | by apply Hlead |].
  set (R := filesUnder (Pg.Leads.id lead) jid).
  pose proof (filesUnder_then (Pg.Leads.id lead) jid) as HR. fold R in HR.
  assert (Hret : forall a : unit, keeps R (Effects.ret (E := Gateway.Failure) a))
    by (intros a; apply (keeps_ret (filesUnder (Pg.Leads.id lead) jid))).
  cbv beta.
  match goal with
  | |- R _ (snd (Effects.bind ?c ?k _)) =>
      assert (Htail : keeps R (Effects.bind c k)); [| by apply Htail]
  end.
  apply (keeps_bind R R R); [done | apply saveChatMessage_filesUnder |]. intros _.
  destruct (bool_decide _); [apply sendMessage_filesUnder |].
  apply (keeps_bind R R R);
    [done | apply liftDb_filesUnder, getChatHistory_keys |]. intros chatHistory.
  apply (keeps_bind R R R); [done | apply liftAi_filesUnder |]. intros response.
  apply (keeps_bind R R R); [done | |].
  { destruct (bool_decide _); [| by apply Hret].
    apply (keeps_bind R R R);
      [done | apply liftDb_filesUnder, markForHumanAgent_keys |].
    intros _. by apply Hret. }
  intros _.
  apply (keeps_bind R R R); [done | |].
  { destruct (Ai.extractedInfo _) as [info|]; [| by apply Hret].
    destruct (bool_decide _); [by apply Hret |].
    apply (keeps_bind R R R); [done | apply liftDb_filesUnder, updateLead_keys |].
    intros _. by apply Hret. }
  intros _.
  apply (keeps_bind R R R); [done | apply saveChatMessage_filesUnder |]. intros _.
  apply sendMessage_filesUnder.
Qed.

Lemma handleIncomingMessage_files (envs : Gateway.Envs) (message : Gateway.WAMessage) :
  keeps files (Gateway.handleIncomingMessage envs message).
Proof.
  unfold Gateway.handleIncomingMessage.
  apply (keeps_tryCatch files files files); [exact files_then | apply handle_files |].
  intros error w. unfold Effects.tryCatch.
  pose proof (sendMessage_files (Gateway.remoteJid message) Gateway.apology w) as H.
  by destruct (Gateway.liftWa _ w) as [[[]|e] w1].
Qed.

Lemma handleAll_files (messages : list (Gateway.Envs * Gateway.WAMessage)) :
  keeps files (Gateway.handleAll messages).
Proof.
  induction messages as [|[envs msg] rest IH]; [by intros w |].
  simpl. apply (keeps_bind files files files); [exact files_then | | by intros _].
  apply handleIncomingMessage_files.
Qed.

(** X13. The listener on 'messages.upsert' files every turn it stores.
    After a batch, whatever its type and whatever failed on the way,
    each turn added to the history points to a lead that is in the
    store under the number the turn is stored with: the lead
    [getOrCreateLead] gave for the sender. No lead is removed or changes
    its id or its number, so a turn that was filed before the batch
    still is. *)
Theorem onMessagesUpsert_files_turns (type : string)
    (messages : list (Gateway.Envs * Gateway.WAMessage)) (w : Gateway.World) :
  let w' := snd (Gateway.onMessagesUpsert type messages w) in
  (forall t, t ∈ Pg.chat_history (Gateway.store w') ->
             t ∈ Pg.chat_history (Gateway.store w) \/ filed (Gateway.store w') t)
  /\ (forall lead, lead ∈ Pg.leads (Gateway.store w) ->
        exists lead', lead' ∈ Pg.leads (Gateway.store w')
                      /\ Pg.Leads.id lead' = Pg.Leads.id lead
                      /\ Pg.Leads.phone_number lead' = Pg.Leads.phone_number lead)
  /\ (forall t, filed (Gateway.store w) t -> filed (Gateway.store w') t).
Proof.
  intros w'.
  assert (H : files w w').
  { subst w'. unfold Gateway.onMessagesUpsert.
    destruct (negb _); [reflexivity | apply handleAll_files]. }
  destruct H as [Hkeys Hturns]. split_and!; [done | |].
  - intros lead Hin.
    assert (Hkey : leadKey lead ∈ leadKey <$> Pg.leads (Gateway.store w))
      by (by apply list_elem_of_fmap_2).
    apply Hkeys, list_elem_of_fmap in Hkey as (lead' & [= Hi Hn] & Hin').
    by exists lead'.
  - intros t Ht. apply filed_key. apply Hkeys. by apply filed_key.
Qed.

(** A first message and its answer: both turns are of the new lead. *)
Example onMessagesUpsert_run :
  let w' := snd (Gateway.onMessagesUpsert "notify"
                   [(oneExchange, incoming "do you sell kurtas?")]
                   (connected emptyStore worldWithCatalog)) in
  (λ t, (Pg.ChatHistory.lead_id t, Pg.ChatHistory.phone_number t))
    <$> Pg.chat_history (Gateway.store w')
  = [(7%N, customer); (7%N, customer)]
  /\ leadKey <$> Pg.leads (Gateway.store w') = [(7%N, customer)].
Proof. by vm_compute. Qed.

(** ** ai.js: the one request to the model *)

(** [loadProducts] writes to the cache only. *)
Lemma loadProducts_frame (r : Ai.World) :
  Ai.fetched (snd (Ai.loadProducts r)) = Ai.fetched r
  /\ Ai.ollama (snd (Ai.loadProducts r)) = Ai.ollama r
  /\ Ai.OLLAMA_URL (snd (Ai.loadProducts r)) = Ai.OLLAMA_URL r
  /\ Ai.OLLAMA_MODEL (snd (Ai.loadProducts r)) = Ai.OLLAMA_MODEL r
  /\ Ai.products_json (snd (Ai.loadProducts r)) = Ai.products_json r.
Proof.
  unfold Ai.loadProducts, Effects.bind, Effects.gets, Effects.modify. simpl.
  destruct (Ai.productsData r); [done |]. simpl.
  destruct (Ai.products_json r) eqn:E; simpl; by rewrite ?E.
Qed.

Lemma generateResponse_fetches (text : string) (chatHistory : list Ai.HistoryItem)
    (r : Ai.World) :
  exists response r',
    Ai.generateResponse text chatHistory r = (Effects.Returned response, r')
    /\ match fst (Ai.loadProducts r) with
       | Effects.Returned (Some products) =>
           if Ai.isAgentRequested text then Ai.fetched r' = Ai.fetched r
           else
             let request := requestFor r products chatHistory text in
             Ai.fetched r' = Ai.fetched r ++ [request]
             /\ match Ai.ollama r request with
                | Ai.Content c =>
                    response
                    = Ai.mkResponse c
                        (Ai.mkMetadata (Some false)
                           (Some (Ai.extractCustomerInfo text chatHistory))
                           (Some (map (λ p, Ai.mkRef (Ai.p_id p) (Ai.p_name p) (Ai.p_price p))
                                    (Ai.findRelevantProducts JsString.toLowerCase text products)))
                           None None)
                | _ => Ai.message response = Ai.fallbackReply
                       /\ Ai.error (Ai.metadata response) = Some true
                end
       | _ => Ai.fetched r' = Ai.fetched r
       end.
Proof.
  unfold Ai.generateResponse, Effects.tryCatch, Ai.respond, Effects.bind.
  destruct (loadProducts_frame r) as (Hf & Ho & Hu & Hm & _).
  destruct (Ai.loadProducts r) as [[products|e] r1]; simpl in *.
  2: { eexists _, _. split; [reflexivity | done]. }
  destruct (Ai.isAgentRequested text).
  { eexists _, _. split; [reflexivity |]. by destruct products. }
  destruct products as [products|]; simpl.
  2: { eexists _, _. split; [reflexivity | done]. }
  unfold Ai.callOllama, Effects.bind, Effects.gets, Effects.modify. simpl.
  unfold requestFor. rewrite Hu, Hm, Ho.
  destruct (Ai.ollama r _) as [e|status statusText|e|c]; simpl.
  all: eexists _, _; (split; [reflexivity |]); simpl; by rewrite Hf.
Qed.


(** ** whatsapp.js: what the model is shown *)

(** X18. Handling a message calls the model at most once. The history
    in that request is read after the customer's turn was stored, and it
    is the ten oldest turns of the number, not the ten latest; the
    customer's message is then added once more at the end. So a customer
    with fewer than ten turns on record has the message twice in the
    request. *)
Theorem model_is_shown_oldest_turns (envs : Gateway.Envs) (message : Gateway.WAMessage)
    (w : Gateway.World) :
  let jid := Gateway.remoteJid message in
  let text := Gateway.textOf message in
  let stored := filter (λ r, Pg.ChatHistory.phone_number r = jid)
                  (Pg.chat_history (Gateway.store w)) in
  let mine := Ai.mkOllamaMessage "user" (Some text) in
  exists w',
    Gateway.handleIncomingMessage envs message w = (Effects.Returned tt, w')
    /\ (Ai.fetched (Gateway.responder w') = Ai.fetched (Gateway.responder w)
        \/ exists products leadId,
             let turn := Pg.ChatHistory.mk (Pg.pg_uuid (Gateway.forUserTurn envs)) leadId jid
                           "user" text None (Pg.pg_now (Gateway.forUserTurn envs)) in
             let history := Gateway.asHistory
                              <$> take 10 (Pg.orderByCreatedAt (stored ++ [turn])) in
             let request := requestFor (Gateway.responder w) products history text in
             Ai.fetched (Gateway.responder w')
             = Ai.fetched (Gateway.responder w) ++ [request]
             /\ last (Ai.rq_messages request) = Some mine
             /\ (length stored < 10 ->
                 exists pre post,
                   Ai.rq_messages request
                   = Ai.mkOllamaMessage "system" (Some (Ai.createSystemPrompt products))
                     :: pre ++ [mine] ++ post ++ [mine])).
Proof.
  intros jid text stored mine.
  rewrite handleIncomingMessage_run.
  set (shown := λ r',
         Ai.fetched r' = Ai.fetched (Gateway.responder w)
         \/ exists products leadId,
              let turn := Pg.ChatHistory.mk (Pg.pg_uuid (Gateway.forUserTurn envs)) leadId jid
                            "user" text None (Pg.pg_now (Gateway.forUserTurn envs)) in
              let history := Gateway.asHistory
                               <$> take 10 (Pg.orderByCreatedAt (stored ++ [turn])) in
              let request := requestFor (Gateway.responder w) products history text in
              Ai.fetched r' = Ai.fetched (Gateway.responder w) ++ [request]
              /\ last (Ai.rq_messages request) = Some mine
              /\ (length stored < 10 ->
                  exists pre post,
                    Ai.rq_messages request
                    = Ai.mkOllamaMessage "system" (Some (Ai.createSystemPrompt products))
                      :: pre ++ [mine] ++ post ++ [mine])).
  assert (Hh : exists o w1, Gateway.handle envs message w = (o, w1)
                            /\ shown (Gateway.responder w1)).
  { destruct (ignored message) eqn:Hig.
    { rewrite handle_ignored by done. eexists _, _. split; [reflexivity | by left]. }
    apply (handle_attended envs message w) in Hig as (Hg & Hme & Htx).
    unfold Gateway.handle. rewrite Hg, Hme, Htx. fold jid text.
    rewrite bind_liftDb.
    pose proof (getOrCreateLead_others (Gateway.forLead envs) jid (Gateway.store w))
      as [Hchat1 _].
    destruct (Database.getOrCreateLead (Gateway.forLead envs) jid (Gateway.store w))
      as [[lead1|e] db1] eqn:E1; simpl in Hchat1.
    2: { eexists _, _. split; [reflexivity | by left]. }
    rewrite bind_liftDb. simpl.
    destruct (saveChatMessage_cases (Gateway.forUserTurn envs) (Pg.Leads.id lead1) jid
                "user" text None db1) as [E2 | [e E2]]; rewrite E2.
    2: { eexists _, _. split; [reflexivity | by left]. }
    set (u := Pg.ChatHistory.mk _ _ jid "user" text None _).
    destruct (bool_decide (Pg.Leads.needs_human_agent lead1 = Some true)).
    { rewrite liftWa_run.
      match goal with
      | |- context [Gateway.sendMessage ?j ?t ?w0] =>
          destruct (sendMessage_effect j t w0) as (sent & Hw & Hsent)
      end.
      eexists _, _. split; [reflexivity |]. rewrite Hw. by left. }
    rewrite bind_liftDb, getChatHistory_run, bind_liftAi. simpl.
    rewrite Hchat1, filter_app, (filter_cons_True _ u) by done.
    rewrite filter_nil. fold stored.
    set (history := Gateway.asHistory <$> take 10 (Pg.orderByCreatedAt (stored ++ [u]))).
    destruct (generateResponse_fetches text history (Gateway.responder w))
      as (response & r3 & E3 & Hfetched). rewrite E3.
    assert (Hshown : shown r3).
    { destruct (fst (Ai.loadProducts (Gateway.responder w))) as [[products|]|e];
        [| by left..].
      destruct (Ai.isAgentRequested text); [by left |].
      destruct Hfetched as [Hfetched _]. right. exists products, (Pg.Leads.id lead1).
      fold u. fold history. simpl. split; [done |].
      assert (Hmine : Ai.formatMessage (Ai.mkHistoryItem "user" text None) = mine).
      { unfold Ai.formatMessage. simpl. fold text in Htx. by rewrite Htx. }
      split.
      - rewrite map_app. simpl. by rewrite last_cons, last_snoc, Hmine.
      - intros Hfew.
        assert (Hin : Gateway.asHistory u ∈ history).
        { apply list_elem_of_fmap_2. rewrite take_ge.
          - unfold Pg.orderByCreatedAt. rewrite merge_sort_Permutation.
            apply elem_of_app. right. apply list_elem_of_here.
          - unfold Pg.orderByCreatedAt. rewrite merge_sort_Permutation, length_app.
            simpl. lia. }
        apply list_elem_of_split in Hin as (h1 & h2 & Heq).
        exists (map Ai.formatMessage h1), (map Ai.formatMessage h2). f_equal.
        fold history. rewrite Heq, <- app_assoc, !map_app. simpl.
        rewrite Hmine. f_equal. f_equal.
        unfold Ai.formatMessage, mine. simpl. fold text in Htx. by rewrite Htx. }
    clearbody history.
    match goal with
    | |- context [Effects.bind ?c ?k ?w0] =>
        assert (Hk4 : leadsOnly w0 (snd (c w0))) by apply flag_step_leadsOnly;
        unfold Effects.bind at 1; destruct (c w0) as [[[]|e] w4]
    end; simpl in Hk4; destruct Hk4 as (Hr4 & _).
    2: { eexists _, _. split; [reflexivity |]. by rewrite Hr4. }
    match goal with
    | |- context [Effects.bind ?c ?k w4] =>
        assert (Hk5 : leadsOnly w4 (snd (c w4))) by apply profile_step_leadsOnly;
        unfold Effects.bind at 1; destruct (c w4) as [[[]|e] w5]
    end; simpl in Hk5; destruct Hk5 as (Hr5 & _).
    2: { eexists _, _. split; [reflexivity |]. by rewrite Hr5, Hr4. }
    rewrite bind_liftDb.
    destruct (Database.saveChatMessage _ _ _ _ _ _ (Gateway.store w5)) as [[a|e] db6].
    2: { eexists _, _. split; [reflexivity |]. simpl. by rewrite Hr5, Hr4. }
    rewrite liftWa_run.
    match goal with
    | |- context [Gateway.sendMessage ?j ?t ?w0] =>
        destruct (sendMessage_effect j t w0) as (sent & Hw & Hsent)
    end.
    eexists _, _. split; [reflexivity |]. rewrite Hw. simpl. by rewrite Hr5, Hr4. }
  destruct Hh as (o & w1 & -> & Hshown).
  destruct o as [[]|e].
  - by exists w1.
  - fold jid. destruct (sendMessage_effect jid Gateway.apology w1) as (more & -> & _).
    by eexists.
Qed.

(** A first message: the one request carries it twice after the system
    prompt. *)
Example first_message_shown_twice :
  let w' := snd (Gateway.handleIncomingMessage oneExchange (incoming "do you sell kurtas?")
                   (connected emptyStore worldWithCatalog)) in
  (tail ∘ Ai.rq_messages) <$> Ai.fetched (Gateway.responder w')
  = [[Ai.mkOllamaMessage "user" (Some "do you sell kurtas?");
      Ai.mkOllamaMessage "user" (Some "do you sell kurtas?")]]
  /\ Gateway.wire w' = [Gateway.Text customer "Sure!"].
Proof. by vm_compute. Qed.

(** ** ai.js: the catalog *)

(** X19. [loadProducts] caches what it loads and nothing else. A catalog
    it has returned is in the cache, and any later call returns it
    without reading products.json, whatever the file has become. A file
    without [products] is returned as undefined and read again the next
    time; a failure leaves the world as it was, with nothing cached. *)
Theorem loadProducts_caches (r : Ai.World) :
  match Ai.loadProducts r with
  | (Effects.Returned (Some products), r') =>
      Ai.productsData r' = Some products
      /\ forall file url model server requests,
           Ai.loadProducts (Ai.mkWorld (Some products) file url model server requests)
           = (Effects.Returned (Some products),
              Ai.mkWorld (Some products) file url model server requests)
  | (Effects.Returned None, r') =>
      Ai.productsData r' = None /\ Ai.products_json r = Ai.Parsed None
  | (Effects.Thrown e, r') =>
      r' = r /\ Ai.productsData r = None
      /\ forall products, Ai.products_json r <> Ai.Parsed products
  end.
Proof.
  unfold Ai.loadProducts, Effects.bind, Effects.gets, Effects.modify. simpl.
  destruct (Ai.productsData r) as [cached|] eqn:Hc; simpl; [by rewrite Hc |].
  destruct (Ai.products_json r) as [e|e| |[products|]] eqn:Hf; simpl; by rewrite ?Hc.
Qed.

(** ** ai.js: the products of a message *)

Lemma relevant_matches (toLowerCase : string -> string) (message : string)
    (p : Ai.Product) :
  relevant toLowerCase (toLowerCase message) p = true <-> matches toLowerCase message p.
Proof.
  unfold relevant, matches, occurs. rewrite !orb_true_iff.
  assert (Hk : Ai.keywordMatches toLowerCase (toLowerCase message) p = true
               <-> exists ks k, Ai.p_keywords p = Some ks /\ k ∈ ks
                                /\ exists pre post,
                                     toLowerCase message
                                     = pre +:+ toLowerCase k +:+ post).
  { unfold Ai.keywordMatches. destruct (Ai.p_keywords p) as [ks|].
    - rewrite existsb_exists. split.
      + intros (k & Hin & H). exists ks, k. split; [done |].
        split; [by apply list_elem_of_In | by apply includes_spec].
      + intros (ks' & k & [= <-] & Hin & H). exists k.
        split; [by apply list_elem_of_In | by apply includes_spec].
    - split; [discriminate | by intros (? & ? & ? & _)]. }
  assert (Hc : Ai.categoryMatches toLowerCase (toLowerCase message) p = true
               <-> exists c, Ai.p_category p = Some c /\ c <> ""
                             /\ exists pre post,
                                  toLowerCase message = pre +:+ toLowerCase c +:+ post).
  { unfold Ai.categoryMatches. destruct (Ai.p_category p) as [c|].
    - rewrite andb_true_iff, negb_true_iff. split.
      + intros [Hne H]. exists c. split; [done |]. split.
        * intros ->. discriminate.
        * by apply includes_spec.
      + intros (c' & [= <-] & Hne & H). split.
        * by apply String.eqb_neq.
        * by apply includes_spec.
    - split; [discriminate | by intros (? & ? & _)]. }
  assert (Hn : Ai.nameMatches toLowerCase (toLowerCase message) p = true
               <-> exists pre post,
                     toLowerCase message = pre +:+ toLowerCase (Ai.p_name p) +:+ post).
  { unfold Ai.nameMatches. apply includes_spec. }
  rewrite Hk, Hc, Hn. tauto.
Qed.

(** X20. [findRelevantProducts] drops a product that matches only when
    three that match come before it in the catalog: the products that
    match, in catalog order, are the result and then the ones left out,
    and some are left out only when the result has three. A product
    matches when, lower-cased, one of its keywords, its category unless
    it is the empty string, or its name occurs in the lower-cased
    message; this holds whatever [toLowerCase] makes of a string. *)
Theorem findRelevantProducts_complete (toLowerCase : string -> string) (message : string)
    (products : list Ai.Product) :
  exists leftOut,
    List.filter (relevant toLowerCase (toLowerCase message)) products
    = Ai.findRelevantProducts toLowerCase message products ++ leftOut
    /\ (leftOut <> [] -> length (Ai.findRelevantProducts toLowerCase message products) = 3)
    /\ (forall p, p ∈ products -> matches toLowerCase message p ->
        p ∈ Ai.findRelevantProducts toLowerCase message products \/ p ∈ leftOut)
    /\ Forall (matches toLowerCase message)
         (Ai.findRelevantProducts toLowerCase message products ++ leftOut)
    /\ Ai.findRelevantProducts toLowerCase message products ++ leftOut
       `sublist_of` products.
Proof.
  rewrite findRelevantProducts_first_three.
  set (found := List.filter (relevant toLowerCase (toLowerCase message)) products).
  exists (drop 3 found). rewrite take_drop. split_and!; [done | | | |].
  - intros Hne. rewrite length_take. destruct (decide (3 <= length found)); [lia |].
    rewrite drop_ge in Hne by lia. done.
  - intros p Hin Hm. apply elem_of_app. rewrite take_drop.
    apply list_elem_of_In, filter_In. split; [by apply list_elem_of_In |].
    by apply relevant_matches.
  - apply Forall_forall. intros p Hp.
    apply list_elem_of_In, filter_In in Hp as [_ Hp]. by apply relevant_matches.
  - apply filter_sublist.
Qed.

(** ** whatsapp.js: numbers that become the same address *)

Lemma string_of_list_ascii_inj (l k : list ascii) :
  string_of_list_ascii l = string_of_list_ascii k -> l = k.
Proof.
  intros H. by rewrite <- (list_ascii_of_string_of_list_ascii l),
                      <- (list_ascii_of_string_of_list_ascii k), H.
Qed.

Lemma append_cancel_r (s t u : string) : s +:+ u = t +:+ u -> s = t.
Proof.
  intros H.
  assert (Hl : list_ascii_of_string s ++ list_ascii_of_string u
               = list_ascii_of_string t ++ list_ascii_of_string u)
    by (by rewrite <- !list_ascii_of_string_app, H).
  apply app_inv_tail in Hl.
  by rewrite <- (string_of_list_ascii_of_string s), <- (string_of_list_ascii_of_string t), Hl.
Qed.

(** X21. Two phone numbers get the same address exactly when they have
    the same digits, or one has ten digits not starting with "1" and the
    other is that one with a "1" in front. So the spelling of a number
    never matters, and neither does leaving out the country code "1" of
    a ten-digit number. *)
Theorem formatPhoneNumber_same_address (s t : string) :
  Whatsapp.formatPhoneNumber s = Whatsapp.formatPhoneNumber t
  <-> digitsOf s = digitsOf t
      \/ (needsCountryCode (digitsOf s) = true /\ digitsOf t = "1"%char :: digitsOf s)
      \/ (needsCountryCode (digitsOf t) = true /\ digitsOf s = "1"%char :: digitsOf t).
Proof.
  rewrite !formatPhoneNumber_unfold. unfold normalized.
  assert (Hone : forall d, needsCountryCode ("1"%char :: d) = false).
  { intros d. unfold needsCountryCode. apply andb_false_iff. right.
    apply negb_false_iff. by apply bool_decide_eq_true. }
  split.
  - intros H. apply append_cancel_r, string_of_list_ascii_inj in H.
    destruct (needsCountryCode (digitsOf s)) eqn:Es,
             (needsCountryCode (digitsOf t)) eqn:Et; simpl in H.
    + left. by injection H.
    + right. left. by split.
    + right. right. by split.
    + by left.
  - intros [H | [[Hs Ht] | [Ht Hs]]].
    + by rewrite H.
    + by rewrite Ht, Hs, Hone.
    + by rewrite Hs, Ht, Hone.
Qed.

(** ** database.js: the statistics *)

Lemma roundHalfUp2_bounds (c t : Z) :
  (0 <= c <= t)%Z -> (0 < t)%Z ->
  (0 <= roundHalfUp2 c t <= 10000)%Z
  /\ (halfway c t -> 1 <= roundHalfUp2 c t)%Z.
Proof.
  intros Hc Ht. unfold roundHalfUp2, halfway.
  pose proof (Z.div_mod (20000 * c + t) (2 * t) ltac:(lia)) as Hd.
  pose proof (Z.mod_pos_bound (20000 * c + t) (2 * t) ltac:(lia)) as Hm.
  split; [split |].
  - apply Z.div_pos; lia.
  - apply Z.lt_succ_r, Z.div_lt_upper_bound; lia.
  - intros Hh. rewrite Hh in Hd.
    assert (Hq : (0 <= (20000 * c + t) / (2 * t))%Z) by (apply Z.div_pos; lia).
    destruct (Z.eq_dec ((20000 * c + t) / (2 * t))%Z 0%Z) as [E|E]; [| lia].
    rewrite E in Hd. lia.
Qed.

(** X22. The rate [getStatistics] returns with its counts. When the call
    returns counts with no more converted leads than leads, and at most
    [10^11] leads, the conversion rate is the number 0 if there is no
    lead, and otherwise a string of two decimals from "0.00" to
    "100.00". *)
Theorem getStatistics_rate_bounds (db db' : Pg.Database) (stats : Database.Statistics) :
  Database.getStatistics db = (Effects.Returned stats, db') ->
  (Database.convertedLeads stats <= Database.totalLeads stats)%N ->
  (Database.totalLeads stats <= 100000000000)%N ->
  (Database.totalLeads stats = 0%N /\ Database.conversionRate stats = JsValues.JNumber 0)
  \/ ((0 < Database.totalLeads stats)%N
      /\ exists h, (0 <= h <= 10000)%Z
                   /\ Database.conversionRate stats = JsValues.JString (Double.fixed2 h)).
Proof.
  unfold Database.getStatistics, Effects.bind, Effects.gets, Effects.ret.
  intros [= <- _]. simpl.
  set (T := Pg.countLeads (λ _, true) db).
  set (C := Pg.countLeads (λ r, bool_decide (Pg.Leads.status r = Some "converted")) db).
  intros HCT Hmax. destruct (N.ltb_spec 0 T) as [Hpos|Hzero]; [right | left].
  2: { split; [lia | done]. }
  split; [done |].
  destruct (percentage_hundredths (Z.of_N C) (Z.of_N T) ltac:(lia) ltac:(simpl; lia))
    as (m & e & Hp & Hn).
  rewrite !N2Z.id in Hp. fold (percentage C T). rewrite Hp. simpl.
  destruct (roundHalfUp2_bounds (Z.of_N C) (Z.of_N T) ltac:(lia) ltac:(lia))
    as [Hb Hh].
  destruct Hn as [-> | [Hhalf ->]].
  - by eexists.
  - eexists. split; [| done]. specialize (Hh Hhalf). lia.
Qed.

Lemma getStatistics_rate_bounds_witness :
  (Database.totalLeads
     (Database.mkStatistics 3 1 0 0 (JsValues.JString "33.33")) = 0%N
   /\ Database.conversionRate
        (Database.mkStatistics 3 1 0 0 (JsValues.JString "33.33")) = JsValues.JNumber 0)
  \/ ((0 < Database.totalLeads
             (Database.mkStatistics 3 1 0 0 (JsValues.JString "33.33")))%N
      /\ exists h, (0 <= h <= 10000)%Z
                   /\ Database.conversionRate
                        (Database.mkStatistics 3 1 0 0 (JsValues.JString "33.33"))
                      = JsValues.JString (Double.fixed2 h)).
Proof.
  apply (getStatistics_rate_bounds (storeWithLeads 1 2) (storeWithLeads 1 2)).
  - by vm_compute.
  - by vm_compute.
  - by vm_compute.
Defined.

(** ** routes/messages.js *)

Lemma delivered_nil (w : Gateway.World) : delivered w [].
Proof. intros before o after H. by destruct before. Qed.

Lemma delivered_cons (w : Gateway.World) (o : Gateway.Outgoing)
    (sent : list Gateway.Outgoing) :
  Gateway.network w (Gateway.wire w) o = None ->
  delivered (Gateway.setWire (Gateway.wire w ++ [o]) w) sent ->
  delivered w (o :: sent).
Proof.
  intros Ho Hs before x after H. destruct before as [|b before]; simpl in H.
  - injection H as <- _. by rewrite app_nil_r.
  - injection H as <- H. specialize (Hs before x after H). simpl in Hs.
    by rewrite <- app_assoc in Hs.
Qed.

(** What [sendMessage] and [sendMessageWithTyping] leave when they
    return and when they throw. *)
Lemma sendMessage_outcome (jid text : string) (w : Gateway.World) :
  exists sent,
    snd (Gateway.sendMessage jid text w) = Gateway.setWire (Gateway.wire w ++ sent) w
    /\ Forall (λ o, o = Gateway.Text jid text) sent
    /\ (Gateway.sock w && Gateway.isConnected w = false ->
        sent = [] /\ fst (Gateway.sendMessage jid text w) = Effects.Thrown Gateway.notConnected)
    /\ (fst (Gateway.sendMessage jid text w) = Effects.Returned tt ->
        Gateway.sock w && Gateway.isConnected w = true
        /\ sent = [Gateway.Text jid text] /\ delivered w sent).
Proof.
  destruct (Gateway.sock w && Gateway.isConnected w) eqn:Hr.
  - rewrite sendMessage_ready by done. exists [Gateway.Text jid text]. simpl.
    split_and!; [done | by repeat constructor | done |].
    destruct (Gateway.network w (Gateway.wire w) (Gateway.Text jid text)) eqn:Hn;
      [discriminate |].
    intros _. split_and!; [done.. |]. apply delivered_cons; [done | apply delivered_nil].
  - rewrite sendMessage_not_ready by done. exists []. simpl. rewrite app_nil_r.
    split_and!; [by destruct w | constructor | done | discriminate].
Qed.

Lemma sendMessageWithTyping_not_ready (jid text : string) (w : Gateway.World) :
  Gateway.sock w && Gateway.isConnected w = false ->
  Gateway.sendMessageWithTyping jid text w = (Effects.Thrown Gateway.notConnected, w).
Proof.
  intros H. unfold Gateway.sendMessageWithTyping, Effects.tryCatch, Effects.bind, Effects.gets.
  by rewrite H.
Qed.

Lemma sendMessageWithTyping_ready (jid text : string) (w : Gateway.World) :
  let composing := Gateway.Presence "composing" jid in
  let message := Gateway.Text jid text in
  let available := Gateway.Presence "available" jid in
  Gateway.sock w && Gateway.isConnected w = true ->
  Gateway.sendMessageWithTyping jid text w
  = match Gateway.network w (Gateway.wire w) composing with
    | Some e => (Effects.Thrown e, Gateway.setWire (Gateway.wire w ++ [composing]) w)
    | None =>
        match Gateway.network w (Gateway.wire w ++ [composing]) message with
        | Some e =>
            (Effects.Thrown e, Gateway.setWire (Gateway.wire w ++ [composing; message]) w)
        | None =>
            (match Gateway.network w (Gateway.wire w ++ [composing; message]) available with
             | Some e => Effects.Thrown e
             | None => Effects.Returned tt
             end,
             Gateway.setWire (Gateway.wire w ++ [composing; message; available]) w)
        end
    end.
Proof.
  intros composing message available H.
  unfold Gateway.sendMessageWithTyping, Effects.tryCatch, Effects.bind, Effects.gets.
  rewrite H. simpl. unfold Gateway.socketSend at 1. fold composing.
  destruct (Gateway.network w (Gateway.wire w) composing); [done |]. simpl.
  unfold Gateway.socketSend at 1. simpl. fold message.
  destruct (Gateway.network w (Gateway.wire w ++ [composing]) message); simpl.
  { by rewrite <- app_assoc. }
  unfold Gateway.socketSend. simpl. fold available. rewrite <- !app_assoc. simpl.
  by destruct (Gateway.network w (Gateway.wire w ++ [composing; message]) available).
Qed.

Lemma sendMessageWithTyping_outcome (jid text : string) (w : Gateway.World) :
  exists sent,
    snd (Gateway.sendMessageWithTyping jid text w)
    = Gateway.setWire (Gateway.wire w ++ sent) w
    /\ sent `prefix_of` [Gateway.Presence "composing" jid; Gateway.Text jid text;
                         Gateway.Presence "available" jid]
    /\ (Gateway.sock w && Gateway.isConnected w = false ->
        sent = []
        /\ fst (Gateway.sendMessageWithTyping jid text w)
           = Effects.Thrown Gateway.notConnected)
    /\ (fst (Gateway.sendMessageWithTyping jid text w) = Effects.Returned tt ->
        Gateway.sock w && Gateway.isConnected w = true
        /\ sent = [Gateway.Presence "composing" jid; Gateway.Text jid text;
                   Gateway.Presence "available" jid]
        /\ delivered w sent).
Proof.
  destruct (Gateway.sock w && Gateway.isConnected w) eqn:Hr.
  2: { rewrite sendMessageWithTyping_not_ready by done. exists []. rewrite app_nil_r.
       split_and!; [by destruct w | apply prefix_nil | done | discriminate]. }
  rewrite sendMessageWithTyping_ready by done.
  destruct (Gateway.network w (Gateway.wire w) (Gateway.Presence "composing" jid))
    as [e1|] eqn:H1.
  { exists [Gateway.Presence "composing" jid].
    split_and!; [done | by eexists | discriminate | discriminate]. }
  destruct (Gateway.network w (Gateway.wire w ++ [Gateway.Presence "composing" jid])
              (Gateway.Text jid text)) as [e2|] eqn:H2.
  { exists [Gateway.Presence "composing" jid; Gateway.Text jid text].
    split_and!; [done | by eexists | discriminate | discriminate]. }
  exists [Gateway.Presence "composing" jid; Gateway.Text jid text;
          Gateway.Presence "available" jid].
  destruct (Gateway.network w
              (Gateway.wire w ++ [Gateway.Presence "composing" jid; Gateway.Text jid text])
              (Gateway.Presence "available" jid)) as [e3|] eqn:H3; simpl.
  { split_and!; [done | done | discriminate | discriminate]. }
  split_and!; [done | done | discriminate |]. intros _. split_and!; [done.. |].
  apply delivered_cons; [done |]. apply delivered_cons; [done |].
  apply delivered_cons; [simpl; by rewrite <- app_assoc | apply delivered_nil].
Qed.

(** X23. POST /api/messages/send. A body without a phone number or
    without a message is answered 400 and nothing is sent. A phone number
    that is not a string is answered 500 and nothing is sent. Otherwise
    the socket is handed requests for the formatted number only, with the
    typing indicator unless [withTyping] is given and falsy; the answer
    is 200 only if the socket took every request, the text among them,
    and not connected it is never 200 and nothing is sent. The store and
    the responder are not touched. *)
Theorem postSend_outcomes (phoneNumber : JsValues.JsValue) (message : option string)
    (withTyping : JsValues.JsValue) (w : Gateway.World) :
  exists answer sent,
    Routes.postSend phoneNumber message withTyping w
    = (answer, Gateway.setWire (Gateway.wire w ++ sent) w)
    /\ (JsValues.truthy phoneNumber = false \/ Routes.noText message = true ->
        answer = Routes.Refused 400 "Phone number and message are required" /\ sent = [])
    /\ (~ isString phoneNumber -> sent = [] /\ forall m d, answer <> Routes.Success 200 m d)
    /\ (Gateway.sock w && Gateway.isConnected w = false ->
        sent = [] /\ forall m d, answer <> Routes.Success 200 m d)
    /\ (forall s text, phoneNumber = JsValues.JString s -> message = Some text ->
        let jid := Whatsapp.formatPhoneNumber s in
        let typing := match withTyping with
                      | JsValues.JUndefined => true
                      | v => JsValues.truthy v
                      end in
        sent `prefix_of` (if typing
                          then [Gateway.Presence "composing" jid; Gateway.Text jid text;
                                Gateway.Presence "available" jid]
                          else [Gateway.Text jid text]))
    /\ (forall code m d, answer = Routes.Success code m d ->
        code = 200%N
        /\ exists s text, phoneNumber = JsValues.JString s /\ message = Some text
                          /\ d = (Whatsapp.formatPhoneNumber s, text)
                          /\ Gateway.Text (Whatsapp.formatPhoneNumber s) text ∈ sent
                          /\ delivered w sent).
Proof.
  assert (Hw : w = Gateway.setWire (Gateway.wire w ++ []) w)
    by (rewrite app_nil_r; by destruct w).
  assert (Hearly : forall answer : Routes.Answer (string * string),
            (forall c m d, answer <> Routes.Success c m d) ->
            (JsValues.truthy phoneNumber = false \/ Routes.noText message = true ->
             answer = Routes.Refused 400 "Phone number and message are required") ->
            exists answer' sent,
              (answer, w) = (answer', Gateway.setWire (Gateway.wire w ++ sent) w)
              /\ (JsValues.truthy phoneNumber = false \/ Routes.noText message = true ->
                  answer' = Routes.Refused 400 "Phone number and message are required"
                  /\ sent = [])
              /\ (~ isString phoneNumber ->
                  sent = [] /\ forall m d, answer' <> Routes.Success 200 m d)
              /\ (Gateway.sock w && Gateway.isConnected w = false ->
                  sent = [] /\ forall m d, answer' <> Routes.Success 200 m d)
              /\ (forall s text, phoneNumber = JsValues.JString s -> message = Some text ->
                  let jid := Whatsapp.formatPhoneNumber s in
                  let typing := match withTyping with
                                | JsValues.JUndefined => true
                                | v => JsValues.truthy v
                                end in
                  sent `prefix_of` (if typing
                                    then [Gateway.Presence "composing" jid;
                                          Gateway.Text jid text;
                                          Gateway.Presence "available" jid]
                                    else [Gateway.Text jid text]))
              /\ (forall code m d, answer' = Routes.Success code m d ->
                  code = 200%N
                  /\ exists s text, phoneNumber = JsValues.JString s /\ message = Some text
                                    /\ d = (Whatsapp.formatPhoneNumber s, text)
                                    /\ Gateway.Text (Whatsapp.formatPhoneNumber s) text ∈ sent
                                    /\ delivered w sent)).
  { intros answer Hno Href. exists answer, []. split; [by rewrite <- Hw |].
    split_and!; [by auto | done | done | intros; apply prefix_nil |].
    intros code m d ->. by destruct (Hno code m d). }
  unfold Routes.postSend.
  destruct (JsValues.truthy phoneNumber) eqn:Hp; simpl.
  2: { by apply Hearly. }
  destruct (Routes.noText message) eqn:Hm; simpl.
  { by apply Hearly. }
  destruct message as [text|]; [| discriminate]. simpl in Hm. simpl.
  destruct phoneNumber as [| |b|q|s| |]; simpl; try discriminate.
  1,2,4,5: apply Hearly; [done | by intros [[=]|[=]]].
  set (jid := Whatsapp.formatPhoneNumber s).
  set (typing := match withTyping with
                 | JsValues.JUndefined => true
                 | v => JsValues.truthy v
                 end).
  destruct typing.
  - destruct (sendMessageWithTyping_outcome jid text w) as (sent & Hsnd & Hpre & Hoff & Hret).
    destruct (Gateway.sendMessageWithTyping jid text w) as [[[]|e] w'] eqn:E;
      simpl in Hsnd, Hoff, Hret; subst w'.
    + destruct (Hret eq_refl) as (Hon & -> & Hd).
      eexists _, _. split; [reflexivity |].
      split_and!.
      * by intros [[=] | [=]].
      * intros Hn. destruct Hn. by exists s.
      * intros Hn. rewrite Hn in Hon. discriminate.
      * by intros ? ? [= <-] [= <-].
      * intros code m d [= <- <- <-]. split; [done |]. exists s, text.
        split_and!; [done.. | | done]. apply list_elem_of_further, list_elem_of_here.
    + eexists _, sent. split; [reflexivity |].
      split_and!.
      * by intros [[=] | [=]].
      * intros Hn. destruct Hn. by exists s.
      * intros Hn. by destruct (Hoff Hn) as [-> _].
      * by intros ? ? [= <-] [= <-].
      * by intros code m d [=].
  - destruct (sendMessage_outcome jid text w) as (sent & Hsnd & Hall & Hoff & Hret).
    destruct (Gateway.sendMessage jid text w) as [[[]|e] w'] eqn:E;
      simpl in Hsnd, Hoff, Hret; subst w'.
    + destruct (Hret eq_refl) as (Hon & -> & Hd).
      eexists _, _. split; [reflexivity |].
      split_and!.
      * by intros [[=] | [=]].
      * intros Hn. destruct Hn. by exists s.
      * intros Hn. rewrite Hn in Hon. discriminate.
      * by intros ? ? [= <-] [= <-].
      * intros code m d [= <- <- <-]. split; [done |]. exists s, text.
        split_and!; [done.. | | done]. apply list_elem_of_here.
    + eexists _, sent. split; [reflexivity |].
      split_and!.
      * by intros [[=] | [=]].
      * intros Hn. destruct Hn. by exists s.
      * intros Hn. by destruct (Hoff Hn) as [-> _].
      * intros ? ? [= <-] [= <-].
        destruct (Gateway.sock w && Gateway.isConnected w) eqn:Hon.
        -- rewrite sendMessage_ready in E by done. injection E as _ E.
           assert (Hs : sent = [Gateway.Text jid text]).
           { by apply app_inv_head in E. }
           by rewrite Hs.
        -- destruct (Hoff eq_refl) as [-> _]. apply prefix_nil.
      * by intros code m d [=].
Qed.




(** ** routes/orders.js *)


(** That order: stored under the formatted number, the lead converted. *)
Example postOrder_run :
  let '(answer, db') :=
    Routes.postOrder orderPlaced (Some 7%N) (JsValues.JString "(555) 123-4567")
      (Routes.ProductList oneKurta) (Some 2999%Z) None storeWithLostLead in
  answer = Routes.Success 201 (Some "Order created successfully")
             (Pg.Orders.mk 21%N 7%N "15551234567@s.whatsapp.net" oneKurta (Some 2999%Z)
                (Some "pending") None 90001%Z)
  /\ Pg.Leads.status <$> Pg.leads db' = [Some "converted"].
Proof. by vm_compute. Qed.




(** ** routes/leads.js *)

(** X27. PUT /api/leads/:id copies four fields of the body and no
    other. A body with none of them is answered 400 and nothing is
    written, whatever else it holds. Otherwise the answer is 200 with the
    lead as updated, or 500 with nothing written; in no case does a lead
    change its id, its phone number, its creation time or the time of its
    last message, nor does a lead with another id, a turn or an order
    change. A field given as null is stored as NULL. *)
Theorem putLead_allowed_fields (env : Pg.Env) (id : Pg.uuid) (updates : Pg.Leads.patch)
    (db : Pg.Database) :
  let none := Pg.Leads.set_customer_name updates = None /\ Pg.Leads.set_city updates = None
              /\ Pg.Leads.set_status updates = None
              /\ Pg.Leads.set_needs_human_agent updates = None in
  exists answer db',
    Routes.putLead env id updates db = (answer, db')
    /\ (none -> answer = Routes.Refused 400 "No valid fields to update" /\ db' = db)
    /\ (~ none -> (exists lead, answer = Routes.Success 200 None lead)
                  \/ (db' = db /\ exists e, answer = Routes.Failed 500 "Failed to update lead"
                                                      (Gateway.StoreFailure e)))
    /\ Forall2 (λ r r', Pg.Leads.id r' = Pg.Leads.id r
                        /\ Pg.Leads.phone_number r' = Pg.Leads.phone_number r
                        /\ Pg.Leads.created_at r' = Pg.Leads.created_at r
                        /\ Pg.Leads.last_message_at r' = Pg.Leads.last_message_at r
                        /\ (Pg.Leads.id r <> id -> r' = r))
         (Pg.leads db) (Pg.leads db')
    /\ Pg.chat_history db' = Pg.chat_history db
    /\ Pg.orders db' = Pg.orders db
    /\ (forall code m lead, answer = Routes.Success code m lead ->
        lead ∈ Pg.leads db' /\ Pg.Leads.id lead = id
        /\ Pg.Leads.updated_at lead = Pg.date1 env
        /\ (forall v, Pg.Leads.set_customer_name updates = Some v ->
                      Pg.Leads.customer_name lead = v)
        /\ (forall v, Pg.Leads.set_city updates = Some v -> Pg.Leads.city lead = v)
        /\ (forall v, Pg.Leads.set_status updates = Some v -> Pg.Leads.status lead = v)
        /\ (forall v, Pg.Leads.set_needs_human_agent updates = Some v ->
                      Pg.Leads.needs_human_agent lead = v)).
Proof.
  intros none.
  assert (Hsame : Forall2 (λ r r', Pg.Leads.id r' = Pg.Leads.id r
                        /\ Pg.Leads.phone_number r' = Pg.Leads.phone_number r
                        /\ Pg.Leads.created_at r' = Pg.Leads.created_at r
                        /\ Pg.Leads.last_message_at r' = Pg.Leads.last_message_at r
                        /\ (Pg.Leads.id r <> id -> r' = r)) (Pg.leads db) (Pg.leads db)).
  { apply Forall_Forall2_diag, Forall_forall. by intros. }
  assert (Hnone : none \/ ~ none).
  { unfold none. destruct (Pg.Leads.set_customer_name updates), (Pg.Leads.set_city updates),
      (Pg.Leads.set_status updates), (Pg.Leads.set_needs_human_agent updates);
      (by left) || (right; by intros (? & ? & ? & ?)). }
  destruct Hnone as [Hn | Hn].
  { destruct Hn as (H1 & H2 & H3 & H4). unfold Routes.putLead. rewrite H1, H2, H3, H4.
    eexists _, _. split; [reflexivity |].
    split_and!; [done | | done | done | done | done].
    intros Hno. destruct Hno. unfold none. by rewrite H1, H2, H3, H4. }
  set (p := Pg.Leads.mkPatch (Pg.Leads.set_customer_name updates) (Pg.Leads.set_city updates)
              (Pg.Leads.set_status updates) (Pg.Leads.set_needs_human_agent updates)
              None (Some (Pg.date1 env))).
  assert (Hrun : Routes.putLead env id updates db
                 = match Pg.updateLeadById id p db with
                   | (Effects.Returned updatedLead, db') =>
                       (Routes.Success 200 None updatedLead, db')
                   | (Effects.Thrown e, db') =>
                       (Routes.Failed 500 "Failed to update lead" (Gateway.StoreFailure e),
                        db')
                   end).
  { unfold Routes.putLead, Database.updateLead. simpl. fold p.
    destruct (Pg.Leads.set_customer_name updates), (Pg.Leads.set_city updates),
      (Pg.Leads.set_status updates), (Pg.Leads.set_needs_human_agent updates);
      try reflexivity.
    destruct Hn. by unfold none. }
  rewrite Hrun. unfold Pg.updateLeadById.
  destruct (negb _).
  { eexists _, _. split; [reflexivity |].
    split_and!; [done | | done | done | done | done]. intros _. right. eauto. }
  destruct (filter (λ r, Pg.Leads.id r = id) (Pg.leads db)) as [|one [|two rest]] eqn:Hf;
    simpl.
  1,3: eexists _, _; (split; [reflexivity |]);
       (split_and!; [done | | done | done | done | done]); intros _; right; eauto.
  eexists _, _. split; [reflexivity |]. simpl.
  assert (Hone : one ∈ filter (λ r, Pg.Leads.id r = id) (Pg.leads db))
    by (rewrite Hf; apply list_elem_of_here).
  apply list_elem_of_filter in Hone as [Hid Hone].
  split_and!; [done | by eauto | | done | done |].
  - apply Forall2_fmap_r, Forall_Forall2_diag, Forall_forall. intros r _. simpl.
    destruct (decide (Pg.Leads.id r = id)) as [E|E].
    + rewrite (bool_decide_eq_true_2 _ E). by split_and!.
    + rewrite (bool_decide_eq_false_2 _ E). by split_and!.
  - intros code m lead [= <- <- <-]. split_and!; [| done | done | | | |].
    + apply list_elem_of_fmap. exists one. split; [| done].
      by rewrite bool_decide_eq_true_2.
    + intros v Hv. subst p. simpl. by rewrite Hv.
    + intros v Hv. subst p. simpl. by rewrite Hv.
    + intros v Hv. subst p. simpl. by rewrite Hv.
    + intros v Hv. subst p. simpl. by rewrite Hv.
Qed.

(** X28. GET /api/leads. A request to the store that fails is answered
    500, "Failed to fetch leads", with the error. One that gets through
    is answered 200, with the number of leads and the leads, latest
    contact first, and the store is left alone. A [status] parameter
    that is not empty keeps the leads of that status. A
    [needs_human_agent] parameter keeps the flagged leads only when it is
    exactly "true": any other value, "1" or "TRUE" as much as "false",
    keeps the leads whose flag is false. *)
Theorem getLeads_query (status needs_human_agent : option string) (db : Pg.Database) :
  (forall e, fst (Routes.getLeads (Some e) status needs_human_agent db)
             = Routes.Failed 500 "Failed to fetch leads" (Gateway.StoreFailure e))
  /\ exists leads,
       Routes.getLeads None status needs_human_agent db
       = (Routes.Success 200 None (length leads, leads), db)
       /\ StronglySorted StoreRequests.latestFirst leads
       /\ leads ⊆+ Pg.leads db
       /\ forall r,
            r ∈ leads <->
            r ∈ Pg.leads db
            /\ (forall s, status = Some s -> s <> "" -> Pg.Leads.status r = Some s)
            /\ (forall v, needs_human_agent = Some v ->
                          Pg.Leads.needs_human_agent r
                          = Some (bool_decide (v = "true"))).
Proof.
  split; [done |].
  unfold Routes.getLeads, DatabaseMore.getLeads, Effects.gets.
  eexists. split; [reflexivity |].
  set (filters := StoreRequests.mkFilters _ _).
  assert (Hp : merge_sort StoreRequests.latestFirst
                 (List.filter (DatabaseMore.keepsLead filters) (Pg.leads db))
               ≡ₚ List.filter (DatabaseMore.keepsLead filters) (Pg.leads db))
    by apply merge_sort_Permutation.
  split; [apply (StronglySorted_merge_sort StoreRequests.latestFirst) |].
  split; [rewrite Hp; apply sublist_submseteq, filter_sublist |].
  intros r. rewrite Hp, list_elem_of_In, filter_In, <- list_elem_of_In, keepsLead_spec.
  assert (Heq : forall v, String.eqb "true" v = bool_decide (v = "true")).
  { intros v. destruct (String.eqb_spec "true" v) as [<-|Hne].
    - by rewrite bool_decide_eq_true_2.
    - rewrite bool_decide_eq_false_2; [done | congruence]. }
  unfold filters. cbn [StoreRequests.f_status StoreRequests.f_needs_human_agent]. split.
  - intros (Hin & Hs & Hb). split_and!; [done | |].
    + intros s -> Hne. apply (Hs s); [| done].
      by rewrite (proj2 (String.eqb_neq s "") Hne).
    + intros v ->. rewrite <- Heq. by apply Hb.
  - intros (Hin & Hs & Hb). split_and!; [done | |].
    + intros s Hsome Hne. destruct status as [s0|]; [| discriminate].
      destruct (String.eqb_spec s0 "") as [->|Hne0]; [discriminate |].
      injection Hsome as ->. by apply Hs.
    + intros b Hsome. destruct needs_human_agent as [v|]; [| discriminate].
      rewrite (Hb v eq_refl), <- Heq. exact Hsome.
Qed.
